(** * jam_session.py: a batch driver around the pbjam peak-bagging session

    Shallow embedding of [lc_to_lk], [jam.__init__] and [jam.__call__] of
    [src/jam_session.py], and the properties of its resolver, its driver and
    its failure ledger.

    The collaborators the script imports (numpy's [genfromtxt], pbjam's
    [query_lightkurve], [organize_sess_dataframe], [star], pandas' readers)
    are the fields of an environment [env]: every theorem holds for all
    environments.
    Python exceptions are the instances of [Exception], the class both
    handlers of the script catch. *)

From Stdlib Require Import List String Ascii ZArith Bool Arith Lia.
From Stdlib Require Import Permutation Sorted DecimalString.
Import ListNotations.
Open Scope string_scope.

(** ** Exceptions and results *)

(** What the script observes of an exception: [type(ex).__name__],
    [str(ex)] and [repr(ex.args)]. *)
Record exn := mk_exn {
  exn_type : string;
  exn_str : string;
  exn_args : string
}.

Inductive result (A : Type) : Type :=
| Ok (a : A)
| Raise (e : exn).
Arguments Ok {A} a.
Arguments Raise {A} e.

Definition nl : string := String (ascii_of_nat 10) EmptyString.
Definition dquote : string := String (ascii_of_nat 34) EmptyString.
Definition repr_nat (n : nat) : string := NilZero.string_of_uint (Nat.to_uint n).

(** [KeyError(label)] as pandas raises it from [.loc] on a missing label. *)
Definition KeyError (label : nat) : exn :=
  mk_exn "KeyError" (repr_nat label) ("(" ++ repr_nat label ++ ",)").

(** [TypeError(msg)]; the message of line 70 holds an apostrophe, so its
    [repr] is written with double quotes. *)
Definition TypeError (msg : string) : exn :=
  mk_exn "TypeError" msg ("(" ++ dquote ++ msg ++ dquote ++ ",)").

(** The failed lookup of attribute [attr] on an instance of [tyname]. *)
Definition AttributeError (tyname attr : string) : exn :=
  let msg := "'" ++ tyname ++ "' object has no attribute '" ++ attr ++ "'" in
  mk_exn "AttributeError" msg ("(" ++ dquote ++ msg ++ dquote ++ ",)").

(** Reading a local name that no executed statement has bound (the message
    is the one of CPython up to 3.10). *)
Definition UnboundLocalError (name : string) : exn :=
  let msg := "local variable '" ++ name ++ "' referenced before assignment" in
  mk_exn "UnboundLocalError" msg ("(" ++ dquote ++ msg ++ dquote ++ ",)").

Definition ValueError (msg : string) : exn :=
  mk_exn "ValueError" msg ("('" ++ msg ++ "',)").

Definition IndexError (msg : string) : exn :=
  mk_exn "IndexError" msg ("('" ++ msg ++ "',)").

(** [except K:] matches on the class of the exception. *)
Definition is_instance (k : string) (e : exn) : bool := String.eqb (exn_type e) k.

(** ** The failure ledger and the observable trace *)

(** Index labels of [failed_lk_query].  [lc_to_lk] indexes it with its loop
    variable [id], a star identifier.  [jam.__call__] has no local [id]: the
    name resolves to Python's builtin function, which is what it hands to
    [.at]. *)
Inductive ledger_key :=
| KId (identifier : string)
| KBuiltin_id.

Definition ledger_key_eqb (a b : ledger_key) : bool :=
  match a, b with
  | KId x, KId y => String.eqb x y
  | KBuiltin_id, KBuiltin_id => true
  | _, _ => false
  end.

(** [failed_lk_query], a DataFrame with the one column ['error']. *)
Definition ledger_t := list (ledger_key * string).

(** [failed_lk_query.at[k, 'error'] = msg]: overwrite the row labelled [k],
    or enlarge the frame by one row. *)
Fixpoint ledger_at (L : ledger_t) (k : ledger_key) (msg : string) : ledger_t :=
  match L with
  | [] => [(k, msg)]
  | (k', m) :: L' =>
      if ledger_key_eqb k k' then (k, msg) :: L'
      else (k', m) :: ledger_at L' k msg
  end.

Fixpoint ledger_get (L : ledger_t) (k : ledger_key) : option string :=
  match L with
  | [] => None
  | (k', m) :: L' => if ledger_key_eqb k k' then Some m else ledger_get L' k
  end.

Definition ledger_count (L : ledger_t) (k : ledger_key) : nat :=
  List.length (filter (fun p => ledger_key_eqb k (fst p)) L).

(** What the program does that an observer sees, in order. *)
Inductive event :=
| Printed (text : string)               (* print(...) *)
| Warn (text : string)                  (* warnings.warn(...) *)
| Query (pos : nat) (id : string)       (* query_lightkurve called at row [pos] *)
| Fit (slot : nat) (id : string).       (* st(...) called on slot [slot] *)

Record world := mk_world {
  ledger : ledger_t;
  trace : list event
}.

Definition world0 : world := mk_world [] [].

(** ** State and exceptions *)

(** A statement runs in a world and ends normally or by raising; what it
    printed and wrote before raising stays. *)
Definition M (A : Type) : Type := world -> result A * world.

Definition ret {A} (a : A) : M A := fun w => (Ok a, w).

Definition raise {A} (e : exn) : M A := fun w => (Raise e, w).

Definition bind {A B} (m : M A) (k : A -> M B) : M B :=
  fun w =>
    match m w with
    | (Ok a, w') => k a w'
    | (Raise e, w') => (Raise e, w')
    end.

Definition lift {A} (r : result A) : M A := fun w => (r, w).

(** [try: m except K as e: h e] *)
Definition try_except {A} (m : M A) (catches : exn -> bool) (h : exn -> M A) : M A :=
  fun w =>
    match m w with
    | (Ok a, w') => (Ok a, w')
    | (Raise e, w') => if catches e then h e w' else (Raise e, w')
    end.

Definition emit (e : event) : M unit :=
  fun w => (Ok tt, mk_world (ledger w) (trace w ++ [e])).

Definition ledger_write (k : ledger_key) (msg : string) : M unit :=
  fun w => (Ok tt, mk_world (ledger_at (ledger w) k msg) (trace w)).

Declare Scope py_scope.
Delimit Scope py_scope with py.
Notation "x <- m ;; k" := (bind m (fun x => k))
  (at level 61, m at next level, right associativity) : py_scope.
Notation "m ;;; k" := (bind m (fun _ => k))
  (at level 61, right associativity) : py_scope.
Open Scope py_scope.

Definition catch_all (e : exn) : bool := true.

Section Session.

(** [F]: the floating-point values of the table and of the light curves.
    [R]: the in-memory tables ([dict], [np.recarray], [pd.DataFrame]) a
    caller may hand to the constructor. *)
Context {F R : Type}.

(** ** Cell values *)

(** An [lk.LightCurve]: its samples [(time, flux)] in storage order, and
    the target it belongs to. *)
Record lightcurve := mk_lc {
  samples : list (F * F);
  targetid : string
}.

Definition lc_time (lc : lightcurve) : list F := map fst (samples lc).
Definition lc_flux (lc : lightcurve) : list F := map snd (samples lc).

(** What a cell of the columns [timeseries] and [psd] may hold, by the
    tests [lc_to_lk] applies to it.  [PyOther] is any other object: the
    name of its type, its truth value, and its attribute [__module__] when
    it has one (instances of builtin types such as float, list or tuple
    have none). *)
Inductive pyvalue :=
| PyNone
| PyStr (s : string)
| PyLightCurve (lc : lightcurve)
| PyOther (tyname : string) (truth : bool) (module : option string).

Definition lk_lightcurve_name : string := "lightkurve.lightcurve".

Definition is_str (v : pyvalue) : bool :=
  match v with PyStr _ => true | _ => false end.

(** [bool(v)]: a light curve has [__len__], so it is true when it holds
    samples. *)
Definition truthy (v : pyvalue) : bool :=
  match v with
  | PyNone => false
  | PyStr s => negb (String.eqb s EmptyString)
  | PyLightCurve lc => match samples lc with [] => false | _ => true end
  | PyOther _ t _ => t
  end.

(** [v.__module__] *)
Definition get_module (v : pyvalue) : result string :=
  match v with
  | PyNone => Raise (AttributeError "NoneType" "__module__")
  | PyStr _ => Raise (AttributeError "str" "__module__")
  | PyLightCurve _ => Ok lk_lightcurve_name
  | PyOther ty _ None => Raise (AttributeError ty "__module__")
  | PyOther _ _ (Some m) => Ok m
  end.

(** ** The table *)

(** The observation context handed to the archive query. *)
Record lkwargs := mk_lkwargs {
  cadence : pyvalue;
  month : pyvalue;
  sector : pyvalue;
  campaign : pyvalue;
  quarter : pyvalue;
  mission : pyvalue
}.

(** One row of [vardf].  [index] is the column [reset_index] adds. *)
Record row := mk_row {
  index : option nat;
  ID : string;
  numax : F; numax_err : F;
  dnu : F; dnu_err : F;
  teff : F; teff_err : F;
  bp_rp : F; bp_rp_err : F;
  timeseries : pyvalue;
  psd : pyvalue;
  context : lkwargs
}.

Definition set_timeseries (r : row) (v : pyvalue) : row :=
  mk_row (index r) (ID r) (numax r) (numax_err r) (dnu r) (dnu_err r)
         (teff r) (teff_err r) (bp_rp r) (bp_rp_err r) v (psd r) (context r).

Definition set_psd (r : row) (v : pyvalue) : row :=
  mk_row (index r) (ID r) (numax r) (numax_err r) (dnu r) (dnu_err r)
         (teff r) (teff_err r) (bp_rp r) (bp_rp_err r) (timeseries r) v (context r).

Definition set_index (r : row) (l : nat) : row :=
  mk_row (Some l) (ID r) (numax r) (numax_err r) (dnu r) (dnu_err r)
         (teff r) (teff_err r) (bp_rp r) (bp_rp_err r) (timeseries r) (psd r)
         (context r).

(** A DataFrame: its rows in order, each under its index label. *)
Definition frame := list (nat * row).

Definition labels (df : frame) : list nat := map fst df.
Definition rows (df : frame) : list row := map snd df.

(** The frame [pd.read_csv] and [from_records] build: a RangeIndex. *)
Definition range_frame (rs : list row) : frame := combine (seq 0 (List.length rs)) rs.

Definition has_label (l : nat) (p : nat * row) : bool := Nat.eqb (fst p) l.

(** [vardf.loc[l, ...]]: the row labelled [l], or KeyError. *)
Definition loc_opt (df : frame) (l : nat) : option row :=
  option_map snd (find (has_label l) df).

Definition loc (df : frame) (l : nat) : M row :=
  match loc_opt df l with
  | Some r => ret r
  | None => raise (KeyError l)
  end.

(** [vardf.at[l, 'timeseries'] = v] *)
Definition at_timeseries (df : frame) (l : nat) (v : pyvalue) : frame :=
  map (fun p => if has_label l p then (fst p, set_timeseries (snd p) v) else p) df.

(** [vardf.drop(l)]: a new frame without the rows labelled [l]. *)
Definition drop (df : frame) (l : nat) : frame :=
  filter (fun p => negb (has_label l p)) df.

(** [vardf.reset_index()]: the old labels become the column [index], the
    new labels count from 0. *)
Definition reset_index (df : frame) : frame :=
  combine (seq 0 (List.length df)) (map (fun p => set_index (snd p) (fst p)) df).

(** The label and the identifier of every row, in the order of the frame. *)
Definition keys (df : frame) : list (nat * string) :=
  map (fun p => (fst p, ID (snd p))) df.

(** The rows whose label is not among [dropped]. *)
Definition kept (dropped : list nat) (q : nat * string) : bool :=
  negb (existsb (Nat.eqb (fst q)) dropped).

(** ** Stars and sessions *)

(** Modelled from the spec: the class [star] is pbjam's, it is not in
    src/.  A fitting unit is constructed "from: identifier, power spectrum,
    (numax, numax-uncertainty), (dnu, dnu-uncertainty), (temperature,
    temperature-uncertainty), (color, color-uncertainty), and an output-path
    context" and carries "a frequency axis". *)
Record star := mk_star {
  st_ID : string;
  st_pg : pyvalue;
  st_numax : F * F;
  st_dnu : F * F;
  st_teff : F * F;
  st_bp_rp : F * F;
  st_path : pyvalue;
  st_f : list F
}.

(** The keyword arguments of [jam.__call__], forwarded to every star. *)
Record fit_args := mk_fit_args {
  bw_fac : F;
  tune : Z;
  norders : Z;
  model_type : string;
  verbose : bool;
  nthreads : Z;
  store_chains : bool;
  make_plots : bool
}.

(** [dictlike], by the two [isinstance] tests of lines 95 and 96. *)
Inductive dictlike_arg :=
| DictPath (path : string)        (* a str *)
| DictRecords (d : R)             (* a dict, np.recarray or pd.DataFrame *)
| DictOther.                      (* None, or an object of any other type *)

Record init_args := mk_init_args {
  a_ID : pyvalue;
  a_numax : pyvalue;
  a_dnu : pyvalue;
  a_teff : pyvalue;
  a_bp_rp : pyvalue;
  a_timeseries : pyvalue;
  a_psd : pyvalue;
  a_dictlike : dictlike_arg;
  a_use_cached : bool;
  a_context : lkwargs;
  a_path : pyvalue;
  a_download_dir : pyvalue
}.

Record session := mk_session {
  stars : list (option star);
  pb_model_type : option string
}.

(** ** The environment *)

(** Arithmetic on [F], and the functions the script imports. *)
Record env := mk_env {
  fadd : F -> F -> F;
  fleb : F -> F -> bool;                (* a <= b *)
  fgtb : F -> F -> bool;                (* a > b *)
  of_int : Z -> F;
  (* np.genfromtxt(path, usecols=(0, 1)): the two columns of the file, row
     by row, or the exception it raises *)
  genfromtxt : string -> result (list (F * F));
  (* query_lightkurve(id, download_dir, use_cached, D) *)
  query_lightkurve : string -> pyvalue -> bool -> lkwargs -> result lightcurve;
  (* lc.to_periodogram(...) *)
  to_periodogram : lightcurve -> result pyvalue;
  (* pg.frequency *)
  frequency : pyvalue -> list F;
  (* st(bw_fac=..., ...): the fit ends normally or raises *)
  fit : star -> fit_args -> option exn;
  read_csv : string -> result (list row);
  from_records : R -> result (list row);
  organize_sess_dataframe : frame -> result frame;
  organize_sess_input : init_args -> result frame;
  format_col : frame -> pyvalue -> string -> result frame;
  (* DataFrame.to_csv(path, ...) on the rows of the ledger: the file is
     written, or the exception of the file system (the directory of the
     path does not exist) *)
  write_csv : string -> ledger_t -> option exn
}.

Context (E : env).

(** ** lc_to_lk *)

(** [arr_to_lk(t, d, ID, 'timeseries')] builds
    [lk.LightCurve(time=t, flux=d, targetid=ID)]. *)
Definition arr_to_lk (t d : list F) (name : string) : lightcurve :=
  mk_lc (combine t d) name.

(** Modelled from the spec: [sort_lc] is a helper of pbjam, it is not in
    src/.  "sort it by timestamp (ascending) in place": the samples are
    reordered by time, equal timestamps keep their order. *)
Fixpoint insert_sample (s : F * F) (l : list (F * F)) : list (F * F) :=
  match l with
  | [] => [s]
  | h :: t => if fleb E (fst s) (fst h) then s :: l else h :: insert_sample s t
  end.

Definition sort_samples (l : list (F * F)) : list (F * F) :=
  fold_right insert_sample [] l.

Definition sort_lc (lc : lightcurve) : lightcurve :=
  mk_lc (sort_samples (samples lc)) (targetid lc).

(** The order of two samples by their timestamps. *)
Definition time_le (a b : F * F) : Prop := fleb E (fst a) (fst b) = true.

(** [sort_lc(v)] mutates the object the cell refers to; objects other than
    light curves are not followed. *)
Definition sort_cell (v : pyvalue) : pyvalue :=
  match v with
  | PyLightCurve lc => PyLightCurve (sort_lc lc)
  | _ => v
  end.

Definition tinyoffset : Z := 1.

(** [d += tinyoffset], on the rows [(t, d)] of a file. *)
Definition add_offset (td : list (F * F)) : list (F * F) :=
  map (fun s => (fst s, fadd E (snd s) (of_int E tinyoffset))) td.

Definition query_failed_message (id : string) (exc : exn) : string :=
  "Lightkurve query failed on " ++ id ++ " due to:" ++ nl ++ exn_str exc ++ nl
  ++ "This target will be removed from the sample.".

Definition unsupported_message : string :=
  "Can't handle this type of time series object".

(** Lines 54-65: the archive query of row [i], and its handler. *)
Definition fetch_row (download_dir : pyvalue) (use_cached : bool)
    (i : nat) (id : string) (vardf : frame) : M frame :=
  r <- loc vardf i ;;
  let D := context r in
  try_except
    (emit (Query i id) ;;;
     lk_lc <- lift (query_lightkurve E id download_dir use_cached D) ;;
     ret (at_timeseries vardf i (PyLightCurve lk_lc)))
    catch_all
    (fun exc =>
       emit (Printed (query_failed_message id exc)) ;;;
       ledger_write (KId id) (exn_str exc) ;;;
       ret (drop vardf i)).

(** [t, d = np.genfromtxt(...).T] and [arr_to_lk(t, d, ...)], by the number
    of rows of the file.  An empty file is an empty array: there is
    nothing to unpack.  A file of one row is an array of one dimension: its
    two values are unpacked as scalars, and [lk.LightCurve] takes the
    length of what it is given.  From two rows on, [t] and [d] are the
    columns. *)
Definition nothing_to_unpack : exn :=
  ValueError "not enough values to unpack (expected 2, got 0)".

Definition unsized_series : exn :=
  mk_exn "TypeError" "len() of unsized object" "('len() of unsized object',)".

Definition unpack_columns (td : list (F * F)) : M (list (F * F)) :=
  match td with
  | [] => raise nothing_to_unpack
  | [_] => raise unsized_series
  | _ => ret td
  end.

(** Lines 46-70: the four branches on the type of the cell. *)
Definition resolve_cell (download_dir : pyvalue) (use_cached : bool)
    (i : nat) (id : string) (vardf : frame) : M frame :=
  r <- loc vardf i ;;
  match timeseries r with
  | PyStr fname =>
      td <- lift (genfromtxt E fname) ;;
      td <- unpack_columns td ;;
      let t := map fst td in
      let d := map (fun x => fadd E x (of_int E tinyoffset)) (map snd td) in
      r' <- loc vardf i ;;
      ret (at_timeseries vardf i (PyLightCurve (arr_to_lk t d (ID r'))))
  | v =>
      if negb (truthy v) then
        r' <- loc vardf i ;;
        if truthy (psd r') then ret vardf
        else fetch_row download_dir use_cached i id vardf
      else
        m <- lift (get_module v) ;;
        if String.eqb m lk_lightcurve_name then ret vardf
        else raise (TypeError unsupported_message)
  end.

(** Lines 73-77: sort what the cell holds now; a dropped row is a KeyError,
    which is ignored. *)
Definition sort_row (i : nat) (vardf : frame) : M frame :=
  try_except
    (r <- loc vardf i ;;
     if truthy (timeseries r)
     then ret (at_timeseries vardf i (sort_cell (timeseries r)))
     else ret vardf)
    (is_instance "KeyError")
    (fun _ => ret vardf).

(** One turn of the loop of line 45. *)
Definition lc_to_lk_step (download_dir : pyvalue) (use_cached : bool)
    (i : nat) (id : string) (vardf : frame) : M frame :=
  vardf' <- resolve_cell download_dir use_cached i id vardf ;;
  sort_row i vardf'.

(** The cases of a turn, by what the row holds: the result and the world
    of each. *)
Inductive step_case (dd : pyvalue) (uc : bool) (i : nat) (id : string)
    (df : frame) (w : world) : result frame * world -> Prop :=
| case_missing :
    loc_opt df i = None ->
    step_case dd uc i id df w (Raise (KeyError i), w)
| case_file_empty r path :
    loc_opt df i = Some r -> timeseries r = PyStr path ->
    genfromtxt E path = Ok [] ->
    step_case dd uc i id df w (Raise nothing_to_unpack, w)
| case_file_one_row r path s :
    loc_opt df i = Some r -> timeseries r = PyStr path ->
    genfromtxt E path = Ok [s] ->
    step_case dd uc i id df w (Raise unsized_series, w)
| case_file_ok r path td :
    loc_opt df i = Some r -> timeseries r = PyStr path ->
    genfromtxt E path = Ok td -> 2 <= List.length td ->
    step_case dd uc i id df w
      (Ok (at_timeseries df i
             (PyLightCurve (mk_lc (sort_samples (add_offset td)) (ID r)))), w)
| case_file_fail r path e :
    loc_opt df i = Some r -> timeseries r = PyStr path ->
    genfromtxt E path = Raise e ->
    step_case dd uc i id df w (Raise e, w)
| case_has_psd r :
    loc_opt df i = Some r -> is_str (timeseries r) = false ->
    truthy (timeseries r) = false -> truthy (psd r) = true ->
    step_case dd uc i id df w (Ok df, w)
| case_fetch_ok r lc :
    loc_opt df i = Some r -> is_str (timeseries r) = false ->
    truthy (timeseries r) = false -> truthy (psd r) = false ->
    query_lightkurve E id dd uc (context r) = Ok lc ->
    step_case dd uc i id df w
      (Ok (at_timeseries df i (PyLightCurve (sort_lc lc))),
       mk_world (ledger w) (trace w ++ [Query i id]))
| case_fetch_fail r exc :
    loc_opt df i = Some r -> is_str (timeseries r) = false ->
    truthy (timeseries r) = false -> truthy (psd r) = false ->
    query_lightkurve E id dd uc (context r) = Raise exc ->
    step_case dd uc i id df w
      (Ok (drop df i),
       mk_world (ledger_at (ledger w) (KId id) (exn_str exc))
                (trace w ++ [Query i id; Printed (query_failed_message id exc)]))
| case_accept r :
    loc_opt df i = Some r -> is_str (timeseries r) = false ->
    truthy (timeseries r) = true ->
    get_module (timeseries r) = Ok lk_lightcurve_name ->
    step_case dd uc i id df w
      (Ok (at_timeseries df i (sort_cell (timeseries r))), w)
| case_no_module r e :
    loc_opt df i = Some r -> is_str (timeseries r) = false ->
    truthy (timeseries r) = true ->
    get_module (timeseries r) = Raise e ->
    step_case dd uc i id df w (Raise e, w)
| case_unsupported r m :
    loc_opt df i = Some r -> is_str (timeseries r) = false ->
    truthy (timeseries r) = true ->
    get_module (timeseries r) = Ok m ->
    String.eqb m lk_lightcurve_name = false ->
    step_case dd uc i id df w (Raise (TypeError unsupported_message), w).

(** [for i, id in enumerate(ids)], from position [i] on.  The identifiers
    are those of the frame the function was called with; [vardf] is the
    local variable the loop rebinds. *)
Fixpoint lc_to_lk_loop (download_dir : pyvalue) (use_cached : bool)
    (i : nat) (ids : list string) (vardf : frame) : M frame :=
  match ids with
  | [] => ret vardf
  | id :: ids' =>
      vardf' <- lc_to_lk_step download_dir use_cached i id vardf ;;
      lc_to_lk_loop download_dir use_cached (S i) ids' vardf'
  end.

Definition lc_to_lk (vardf : frame) (download_dir : pyvalue) (use_cached : bool)
    : M frame :=
  vardf' <- lc_to_lk_loop download_dir use_cached 0 (map ID (rows vardf)) vardf ;;
  ret (reset_index vardf').

(** ** The periodogram converter *)

(** Modelled from the spec: [lk_to_pg] is a helper of pbjam, it is not in
    src/.  "For every surviving record whose time-series value is a raw or
    fetched series, compute its power-spectrum representation and store it
    in the power-spectrum field [...] Records that already had an explicit
    power spectrum supplied are left untouched", exceptions of the
    transform propagate. *)
Definition lk_to_pg_row (r : row) : result row :=
  if truthy (psd r) then Ok r
  else
    match timeseries r with
    | PyLightCurve lc =>
        match to_periodogram E lc with
        | Ok pg => Ok (set_psd r pg)
        | Raise e => Raise e
        end
    | _ => Ok r
    end.

Fixpoint lk_to_pg (vardf : frame) : result frame :=
  match vardf with
  | [] => Ok []
  | (l, r) :: rest =>
      match lk_to_pg_row r with
      | Raise e => Raise e
      | Ok r' =>
          match lk_to_pg rest with
          | Raise e => Raise e
          | Ok rest' => Ok ((l, r') :: rest')
          end
      end
  end.

(** ** jam.__init__ *)

Definition star_of_row (r : row) (path : pyvalue) : star :=
  mk_star (ID r) (psd r) (numax r, numax_err r) (dnu r, dnu_err r)
          (teff r, teff_err r) (bp_rp r, bp_rp_err r) path
          (frequency E (psd r)).

Definition unrecognized_message : string :=
  "Unrecognized type in dictlike. Must be able to " ++
  "convert to dataframe through " ++
  "pandas.DataFrame.from_records()".

Definition ignoring_message : string :=
  "Dictlike provided as input, ignoring other " ++
  "input fit parameters.".

Definition nyquist_message (id : string) : string :=
  "Input numax is greater than Nyquist frequeny " ++ "for " ++ id.

(** Reading the local variable [vardf]: unbound when no assignment to it
    was executed. *)
Definition read_vardf (vardf : option frame) : M frame :=
  match vardf with
  | Some v => ret v
  | None => raise (UnboundLocalError "vardf")
  end.

(** Lines 96-104: the table is read from a path or converted from records;
    a TypeError of the conversion is printed and leaves [vardf] unbound. *)
Definition read_dictlike (d : dictlike_arg) : M (option frame) :=
  match d with
  | DictPath path =>
      rs <- lift (read_csv E path) ;; ret (Some (range_frame rs))
  | DictRecords recs =>
      try_except
        (rs <- lift (from_records E recs) ;; ret (Some (range_frame rs)))
        (is_instance "TypeError")
        (fun _ => emit (Printed unrecognized_message) ;;; ret None)
  | DictOther => ret None
  end.

(** Lines 95-119: what [vardf] is bound to, if it is, before line 124. *)
Definition load_table (a : init_args) : M (option frame) :=
  match a_dictlike a with
  | DictOther =>
      if truthy (a_ID a) then
        v <- lift (organize_sess_input E a) ;;
        v <- lift (format_col E v (a_timeseries a) "timeseries") ;;
        v <- lift (format_col E v (a_psd a) "psd") ;;
        ret (Some v)
      else ret None
  | d =>
      vardf <- read_dictlike d ;;
      (if existsb truthy [a_ID a; a_numax a; a_dnu a; a_teff a; a_bp_rp a]
       then emit (Warn ignoring_message) else ret tt) ;;;
      v <- read_vardf vardf ;;
      v <- lift (organize_sess_dataframe E v) ;;
      ret (Some v)
  end.

(** Lines 132-139: one star per position of the table. *)
Fixpoint build_stars (vardf : frame) (path : pyvalue) (positions : list nat)
    : M (list star) :=
  match positions with
  | [] => ret []
  | i :: rest =>
      r <- loc vardf i ;;
      sts <- build_stars vardf path rest ;;
      ret (star_of_row r path :: sts)
  end.

(** Lines 141-144: [st.numax[0] > st.f[-1]]. *)
Definition nyquist_check (st : star) : M unit :=
  match rev (st_f st) with
  | [] => raise (IndexError "index -1 is out of bounds for axis 0 with size 0")
  | nyq :: _ =>
      if fgtb E (fst (st_numax st)) nyq
      then emit (Warn (nyquist_message (st_ID st)))
      else ret tt
  end.

Fixpoint nyquist_checks (sts : list star) : M unit :=
  match sts with
  | [] => ret tt
  | st :: rest => nyquist_check st ;;; nyquist_checks rest
  end.

Definition jam_init (a : init_args) : M session :=
  vardf <- load_table a ;;
  v <- read_vardf vardf ;;
  vardf <- lc_to_lk v (a_download_dir a) (a_use_cached a) ;;
  vardf <- lift (lk_to_pg vardf) ;;
  sts <- build_stars vardf (a_path a) (seq 0 (List.length vardf)) ;;
  nyquist_checks sts ;;;
  ret (mk_session (map Some sts) None).

(** ** jam.__call__ *)

Definition fit_failed_message (id : string) (ex : exn) : string :=
  "Star " ++ id ++ " produced an exception of type " ++ exn_type ex ++
  " occurred. Arguments:" ++ nl ++ exn_args ex.

(** [self.stars[i] = None] *)
Fixpoint release_slot (slots : list (option star)) (i : nat) : list (option star) :=
  match slots, i with
  | [], _ => []
  | _ :: rest, O => None :: rest
  | s :: rest, S j => s :: release_slot rest j
  end.

(** [st(...)]: a released slot holds None, which is not callable. *)
Definition call_star (args : fit_args) (i : nat) (st : option star) : M unit :=
  match st with
  | None => raise (TypeError "'NoneType' object is not callable")
  | Some s =>
      emit (Fit i (st_ID s)) ;;;
      match fit E s args with
      | None => ret tt
      | Some ex => raise ex
      end
  end.

(** [st.ID] *)
Definition get_ID (st : option star) : M string :=
  match st with
  | None => raise (AttributeError "NoneType" "ID")
  | Some s => ret (st_ID s)
  end.

(** Lines 161-175.  [todo] is what is left of the list the loop iterates;
    [slots] is [self.stars], of which the loop releases the slots it is
    done with.  The handler writes the ledger at [id], which is not a local
    name of [__call__]. *)
Fixpoint call_loop (args : fit_args) (i : nat) (todo slots : list (option star))
    : M (list (option star)) :=
  match todo with
  | [] => ret slots
  | st :: todo' =>
      slots' <-
        try_except
          (call_star args i st ;;; ret (release_slot slots i))
          catch_all
          (fun ex =>
             sid <- get_ID st ;;
             emit (Printed (fit_failed_message sid ex)) ;;;
             ledger_write KBuiltin_id (exn_str ex) ;;;
             ret slots) ;;
      call_loop args (S i) todo' slots'
  end.

Definition jam_call (self : session) (args : fit_args) : M session :=
  slots <- call_loop args 0 (stars self) (stars self) ;;
  ret (mk_session slots (Some (model_type args))).

(** ** The script *)

(** The capitalised variables of lines 30-35. *)
Definition PATH_TO_INPUT_DATA : string := "test/input/jam_session_test_data.csv".
Definition OUTPUT_DATA_DIR : string := "test/output".
Definition LIGHTCURVE_DOWNLOAD_DIR : string := ".lightkurve-cache".
Definition MISSION : string := "Kepler".
Definition N_ORDERS : Z := 9.
Definition MAKE_PLOTS : bool := true.

(** [jam(dictlike=PATH_TO_INPUT_DATA, mission=MISSION,
    download_dir=LIGHTCURVE_DOWNLOAD_DIR, path=OUTPUT_DATA_DIR)]: the other
    parameters take their defaults of lines 88-91. *)
Definition main_init_args : init_args :=
  mk_init_args PyNone PyNone PyNone PyNone PyNone PyNone PyNone
    (DictPath PATH_TO_INPUT_DATA) false
    (mk_lkwargs PyNone PyNone PyNone PyNone PyNone (PyStr MISSION))
    (PyStr OUTPUT_DATA_DIR) (PyStr LIGHTCURVE_DOWNLOAD_DIR).

(** [jam_session(norders=N_ORDERS, make_plots=MAKE_PLOTS)]: the other
    parameters take their defaults of lines 146-148. *)
Definition main_fit_args : fit_args :=
  mk_fit_args (of_int E 1) 1500 N_ORDERS "simple" false 1 false MAKE_PLOTS.

(** The file [to_csv] writes: its path, and the rows of the ledger under the
    index label [id]. *)
Record csv_file := mk_csv {
  csv_path : string;
  csv_index_label : string;
  csv_rows : ledger_t
}.

(** [failed_lk_query.to_csv(os.path.join(OUTPUT_DATA_DIR,
    'failed_lk_targets.csv'), index_label='id')] *)
Definition to_csv (dir name label : string) : M csv_file :=
  fun w =>
    match write_csv E (dir ++ "/" ++ name) (ledger w) with
    | None => (Ok (mk_csv (dir ++ "/" ++ name) label (ledger w)), w)
    | Some ex => (Raise ex, w)
    end.

(** Lines 178-187. *)
Definition main : M csv_file :=
  jam_session <- jam_init main_init_args ;;
  jam_call jam_session main_fit_args ;;;
  to_csv OUTPUT_DATA_DIR "failed_lk_targets.csv" "id".

(** ** Observations on traces *)

Definition is_Fit (ev : event) : bool :=
  match ev with Fit _ _ => true | _ => false end.

Definition is_Printed (ev : event) : bool :=
  match ev with Printed _ => true | _ => false end.

Definition is_Query (ev : event) : bool :=
  match ev with Query _ _ => true | _ => false end.

(** The slot a star is left in by [jam.__call__]: released when its fit
    ended normally, kept when it raised. *)
Definition slot_after (args : fit_args) (st : star) : option star :=
  match fit E st args with
  | None => None
  | Some _ => Some st
  end.

(** The calls [Fit i id], [Fit (i+1) id'], ... of the stars [sts]. *)
Fixpoint fits_from (i : nat) (sts : list star) : list event :=
  match sts with
  | [] => []
  | st :: rest => Fit i (st_ID st) :: fits_from (S i) rest
  end.

(** A row whose turn of the loop of [lc_to_lk] ends normally and keeps the
    row: its file loads with two rows or more, or it has a spectrum, or its
    query answers, or it holds a light curve. *)
Definition resolves (dd : pyvalue) (uc : bool) (r : row) : bool :=
  match timeseries r with
  | PyStr path =>
      match genfromtxt E path with
      | Ok td => Nat.leb 2 (List.length td)
      | Raise _ => false
      end
  | v =>
      if truthy v then
        match get_module v with
        | Ok m => String.eqb m lk_lightcurve_name
        | Raise _ => false
        end
      else
        truthy (psd r) ||
        match query_lightkurve E (ID r) dd uc (context r) with
        | Ok _ => true
        | Raise _ => false
        end
  end.

(** The columns of a row that are not [timeseries] nor [index]. *)
Definition same_columns (r r' : row) : Prop :=
  ID r' = ID r /\ numax r' = numax r /\ numax_err r' = numax_err r /\
  dnu r' = dnu r /\ dnu_err r' = dnu_err r /\
  teff r' = teff r /\ teff_err r' = teff_err r /\
  bp_rp r' = bp_rp r /\ bp_rp_err r' = bp_rp_err r /\
  psd r' = psd r /\ context r' = context r.

(** The rows a query is made for. *)
Definition nothing_to_resolve (r : row) : Prop :=
  is_str (timeseries r) = false /\ truthy (timeseries r) = false /\
  truthy (psd r) = false.

(** The number of messages printed so far. *)
Definition printed (w : world) : nat := List.length (filter is_Printed (trace w)).

(** The stars whose fit raises. *)
Definition fails (args : fit_args) (st : star) : bool :=
  match fit E st args with Some _ => true | None => false end.

Definition fit_or_message (ev : event) : Prop :=
  is_Fit ev = true \/ is_Printed ev = true.

Definition query_or_message (ev : event) : Prop :=
  is_Query ev = true \/ is_Printed ev = true.

(** [any([ID, numax, dnu, teff, bp_rp])] of line 106. *)
Definition any_parameter (a : init_args) : bool :=
  existsb truthy [a_ID a; a_numax a; a_dnu a; a_teff a; a_bp_rp a].

(** What the constructor adds to the trace before it resolves the table. *)
Definition table_event (a : init_args) (ev : event) : Prop :=
  ev = Printed unrecognized_message \/
  (ev = Warn ignoring_message /\ a_dictlike a <> DictOther /\
   any_parameter a = true).

End Session.

(** ** A concrete environment *)

(** Timestamps and fluxes are integers here; the archive has no data for
    the target KIC2, the fit of KIC3 does not converge, the file
    [missing.txt] does not exist and the records [0] cannot be converted. *)
Module Sample.

Definition ctx : @lkwargs Z :=
  mk_lkwargs PyNone PyNone PyNone PyNone PyNone (PyStr "Kepler").

Definition a_row (id : string) (nmx : nat) (ts pg : @pyvalue Z) : @row Z :=
  mk_row None id (Z.of_nat nmx) 0%Z 0%Z 0%Z 0%Z 0%Z 0%Z 0%Z ts pg ctx.

Definition spectrum : @pyvalue Z :=
  PyOther "Periodogram" true (Some "lightkurve.periodogram").

Definition a_float : @pyvalue Z := PyOther "float" true None.

Definition a_table : @pyvalue Z := PyOther "DataFrame" true (Some "pandas.core.frame").

Definition no_data : exn := mk_exn "ValueError" "no data found" "('no data found',)".

Definition no_file : exn :=
  mk_exn "OSError" "missing.txt not found." "('missing.txt not found.',)".

Definition not_converged : exn :=
  mk_exn "RuntimeError" "fit did not converge" "('fit did not converge',)".

Definition not_records : exn :=
  mk_exn "TypeError" "unorderable keys" "('unorderable keys',)".

(** The rows of the file [lc.txt]. *)
Definition lc_txt : list (Z * Z) := [(3, 10); (1, 20); (2, 0)]%Z.

Definition cache : @pyvalue Z := PyStr ".lightkurve-cache".

Definition E : @env Z nat :=
  mk_env
    Z.add Z.leb Z.gtb (fun z => z)
    (fun path =>
       if String.eqb path "lc.txt" then Ok lc_txt
       else Raise no_file)
    (fun id _ _ _ =>
       if String.eqb id "KIC2" then Raise no_data
       else Ok (mk_lc [(2, 7); (1, 9)]%Z id))
    (fun _ => Ok spectrum)
    (fun _ => [10; 20; 50]%Z)
    (fun st _ => if String.eqb (st_ID st) "KIC3" then Some not_converged else None)
    (fun _ => Ok [a_row "KIC1" 30 (PyStr "lc.txt") PyNone;
                  a_row "KIC2" 30 PyNone PyNone;
                  a_row "KIC3" 70 PyNone spectrum])
    (fun d => match d with
              | O => Raise not_records
              | _ => Ok [a_row "KIC1" 30 PyNone spectrum]
              end)
    (fun v => Ok v)
    (fun _ => Ok [])
    (fun v _ _ => Ok v)
    (fun _ _ => None).

Definition args : @fit_args Z :=
  mk_fit_args 1%Z 1500%Z 9%Z "simple" false 1%Z false true.

Definition init (d : @dictlike_arg nat) : @init_args Z nat :=
  mk_init_args PyNone PyNone PyNone PyNone PyNone PyNone PyNone d false ctx
               (PyStr "test/output") cache.

(** The table of three stars: a file, an archive query that fails, a
    spectrum. *)
Definition three : list (@row Z) :=
  [a_row "KIC1" 30 (PyStr "lc.txt") PyNone;
   a_row "KIC2" 30 PyNone PyNone;
   a_row "KIC3" 70 PyNone spectrum].

Definition a_star (id : string) : @star Z :=
  mk_star id spectrum (30, 0)%Z (0, 0)%Z (0, 0)%Z (0, 0)%Z
          (PyStr "test/output") [10; 20; 50]%Z.

(** Five stars, of which the third cannot be fitted. *)
Definition five : @session Z :=
  mk_session [Some (a_star "KIC1"); Some (a_star "KIC2"); Some (a_star "KIC3");
              Some (a_star "KIC4"); Some (a_star "KIC5")] None.

(** What the resolver makes of [three]. *)
Definition resolved : @frame Z * world :=
  Eval vm_compute in
    match lc_to_lk E (range_frame three) cache false world0 with
    | (Ok out, w) => (out, w)
    | (Raise _, w) => ([], w)
    end.

(** A table whose second row names a file that does not exist. *)
Definition broken : list (@row Z) :=
  [a_row "KIC2" 30 PyNone PyNone;
   a_row "KIC7" 30 (PyStr "missing.txt") PyNone;
   a_row "KIC3" 70 PyNone spectrum].

(** The frame and the world after the first row of [broken]. *)
Definition broken_before : @frame Z * world :=
  Eval vm_compute in
    match lc_to_lk_loop E cache false 0
            (map ID (firstn 1 broken)) (range_frame broken) world0 with
    | (Ok df, w) => (df, w)
    | (Raise _, w) => ([], w)
    end.

(** The session built from the input file, and the world after. *)
Definition built : @session Z * world :=
  Eval vm_compute in
    match jam_init E (init (DictPath "in.csv")) world0 with
    | (Ok s, w) => (s, w)
    | (Raise _, w) => (mk_session [] None, w)
    end.

Definition star3 : @star Z :=
  mk_star "KIC3" spectrum (70, 0)%Z (0, 0)%Z (0, 0)%Z (0, 0)%Z
          (PyStr "test/output") [10; 20; 50]%Z.

(** An environment in which nothing fails, except reading [nowhere.csv]. *)
Definition E_ok : @env Z nat :=
  mk_env
    Z.add Z.leb Z.gtb (fun z => z)
    (fun _ => Ok lc_txt)
    (fun id _ _ _ => Ok (mk_lc [(2, 7); (1, 9)]%Z id))
    (fun _ => Ok spectrum)
    (fun _ => [10; 20; 50]%Z)
    (fun _ _ => None)
    (fun path => if String.eqb path "nowhere.csv" then Raise no_file else Ok three)
    (fun _ => Ok three)
    (fun v => Ok v)
    (fun _ => Ok [])
    (fun v _ _ => Ok v)
    (fun _ _ => None).

(** What the resolver makes of a table read from a file, from the empty
    world. *)
Definition run_resolver (e : @env Z nat) (rs : list (@row Z)) : @frame Z * world :=
  match lc_to_lk e (range_frame rs) cache false world0 with
  | (Ok out, w) => (out, w)
  | (Raise _, w) => ([], w)
  end.

Definition run_init (e : @env Z nat) (a : @init_args Z nat) : @session Z * world :=
  match jam_init e a world0 with
  | (Ok s, w) => (s, w)
  | (Raise _, w) => (mk_session [] None, w)
  end.

Definition run_call (e : @env Z nat) (s : @session Z) : @session Z * world :=
  match jam_call e s args world0 with
  | (Ok s', w) => (s', w)
  | (Raise _, w) => (mk_session [] None, w)
  end.

(** A row with nothing, whose query answers; a row that holds a series. *)
Definition fetching : list (@row Z) := [a_row "KIC4" 30 PyNone PyNone].

Definition a_series : @lightcurve Z := mk_lc [(2, 7); (1, 9)]%Z "KIC5".

Definition with_series : list (@row Z) :=
  [a_row "KIC5" 30 (PyLightCurve a_series) PyNone].

(** A table whose second row holds an object of another module. *)
Definition alien : list (@row Z) :=
  [a_row "KIC1" 30 (PyStr "lc.txt") PyNone;
   a_row "KIC8" 30 a_table PyNone].

Definition alien_before : @frame Z * world :=
  match lc_to_lk_loop E cache false 0 (map ID (firstn 1 alien))
          (range_frame alien) world0 with
  | (Ok df, w) => (df, w)
  | (Raise _, w) => ([], w)
  end.

Definition five_stars : list (@star Z) :=
  [a_star "KIC1"; a_star "KIC2"; a_star "KIC3"; a_star "KIC4"; a_star "KIC5"].

(** What the script writes, and the world it leaves. *)
Definition run_main (e : @env Z nat) : @csv_file * world :=
  match main e world0 with
  | (Ok f, w) => (f, w)
  | (Raise _, w) => (mk_csv EmptyString EmptyString [], w)
  end.

(** A world whose ledger has entries of an earlier run: one for a star
    that is not in the table [three], one for its second star. *)
Definition noted : world :=
  mk_world [(KId "KIC9", "earlier failure"); (KId "KIC2", "stale")] [].

(** The world the resolver leaves when it starts from [noted]. *)
Definition resolved_noted : @frame Z * world :=
  Eval vm_compute in
    match lc_to_lk E (range_frame three) cache false noted with
    | (Ok out, w) => (out, w)
    | (Raise _, w) => ([], w)
    end.

(** The directory [test/output] does not exist. *)
Definition no_dir : exn :=
  let msg := "Cannot save file into a non-existent directory: 'test/output'" in
  mk_exn "OSError" msg ("(" ++ dquote ++ msg ++ dquote ++ ",)").

(** The environment [E], where the ledger cannot be written. *)
Definition E_no_dir : @env Z nat :=
  mk_env
    (fadd E) (fleb E) (fgtb E) (of_int E) (genfromtxt E) (query_lightkurve E)
    (to_periodogram E) (frequency E) (fit E) (read_csv E) (from_records E)
    (organize_sess_dataframe E) (organize_sess_input E) (format_col E)
    (fun _ _ => Some no_dir).

(** The constructor called with a table and an identifier. *)
Definition init_with_ID : @init_args Z nat :=
  mk_init_args (PyStr "KIC1") PyNone PyNone PyNone PyNone PyNone PyNone
               (DictPath "in.csv") false ctx (PyStr "test/output") cache.

End Sample.

(** * Properties *)

Section Ledger.

Lemma ledger_key_eqb_eq a b : ledger_key_eqb a b = true <-> a = b.
Proof.
  destruct a as [x|], b as [y|]; cbn; split; intros H;
    try discriminate; try reflexivity.
  - apply String.eqb_eq in H. now subst.
  - inversion H. apply String.eqb_refl.
Qed.

Lemma ledger_key_eqb_refl a : ledger_key_eqb a a = true.
Proof. now apply ledger_key_eqb_eq. Qed.

Lemma ledger_key_eqb_neq a b : a <> b -> ledger_key_eqb a b = false.
Proof.
  intros H. destruct (ledger_key_eqb a b) eqn:He; [|reflexivity].
  apply ledger_key_eqb_eq in He. contradiction.
Qed.

Lemma ledger_get_at_same L k m : ledger_get (ledger_at L k m) k = Some m.
Proof.
  induction L as [|[k' m'] L IH]; cbn.
  - now rewrite ledger_key_eqb_refl.
  - destruct (ledger_key_eqb k k') eqn:He; cbn.
    + now rewrite ledger_key_eqb_refl.
    + now rewrite He.
Qed.

Lemma ledger_get_at_other L k k' m :
  k <> k' -> ledger_get (ledger_at L k' m) k = ledger_get L k.
Proof.
  intros Hne. induction L as [|[k0 m0] L IH]; cbn.
  - now rewrite ledger_key_eqb_neq.
  - destruct (ledger_key_eqb k' k0) eqn:He; cbn.
    + apply ledger_key_eqb_eq in He. subst k0.
      now rewrite ledger_key_eqb_neq.
    + destruct (ledger_key_eqb k k0); [reflexivity|exact IH].
Qed.

Lemma ledger_count_at_same L k m :
  ledger_count (ledger_at L k m) k = Nat.max 1 (ledger_count L k).
Proof.
  unfold ledger_count. induction L as [|[k0 m0] L IH]; cbn.
  - now rewrite ledger_key_eqb_refl.
  - destruct (ledger_key_eqb k k0) eqn:He; cbn.
    + rewrite ledger_key_eqb_refl. cbn. reflexivity.
    + rewrite He. exact IH.
Qed.

Lemma ledger_count_at_other L k k' m :
  k <> k' -> ledger_count (ledger_at L k' m) k = ledger_count L k.
Proof.
  intros Hne. unfold ledger_count. induction L as [|[k0 m0] L IH]; cbn.
  - now rewrite ledger_key_eqb_neq.
  - destruct (ledger_key_eqb k' k0) eqn:He; cbn.
    + apply ledger_key_eqb_eq in He. subst k0.
      rewrite ledger_key_eqb_neq by assumption. reflexivity.
    + destruct (ledger_key_eqb k k0); cbn; now rewrite IH.
Qed.

End Ledger.

Section Frames.

Context {F : Type}.
Implicit Types (df : @frame F) (r : @row F) (v : @pyvalue F).

Lemma has_label_true l (p : nat * @row F) : has_label l p = true <-> fst p = l.
Proof. unfold has_label. apply Nat.eqb_eq. Qed.

Lemma has_label_false l (p : nat * @row F) : has_label l p = false <-> fst p <> l.
Proof. unfold has_label. apply Nat.eqb_neq. Qed.

Lemma has_label_at k v l (p : nat * @row F) :
  has_label l (if has_label k p then (fst p, set_timeseries (snd p) v) else p)
  = has_label l p.
Proof. destruct (has_label k p); reflexivity. Qed.

Lemma loc_opt_at_other df k l v :
  l <> k -> loc_opt (at_timeseries df k v) l = loc_opt df l.
Proof.
  intros Hl. unfold loc_opt, at_timeseries.
  induction df as [|p df IH]; [reflexivity|].
  cbn [map find]. rewrite has_label_at.
  destruct (has_label l p) eqn:Hp; [|exact IH].
  apply has_label_true in Hp.
  assert (Hk : has_label k p = false) by (apply has_label_false; congruence).
  rewrite Hk. reflexivity.
Qed.

Lemma loc_opt_at_same df k v :
  loc_opt (at_timeseries df k v) k =
  option_map (fun r => set_timeseries r v) (loc_opt df k).
Proof.
  unfold loc_opt, at_timeseries.
  induction df as [|p df IH]; [reflexivity|].
  cbn [map find]. rewrite has_label_at.
  destruct (has_label k p) eqn:Hp; [reflexivity|exact IH].
Qed.

Lemma loc_opt_drop_other df k l :
  l <> k -> loc_opt (drop df k) l = loc_opt df l.
Proof.
  intros Hl. unfold loc_opt, drop.
  induction df as [|p df IH]; [reflexivity|].
  cbn [filter find].
  destruct (has_label k p) eqn:Hk; cbn [negb find].
  - apply has_label_true in Hk.
    assert (Hp : has_label l p = false) by (apply has_label_false; congruence).
    rewrite Hp. exact IH.
  - destruct (has_label l p); [reflexivity|exact IH].
Qed.

Lemma loc_opt_drop_same df k : loc_opt (drop df k) k = None.
Proof.
  unfold loc_opt, drop.
  induction df as [|p df IH]; [reflexivity|].
  cbn [filter].
  destruct (has_label k p) eqn:Hk; cbn [negb find]; [exact IH|].
  rewrite Hk. exact IH.
Qed.

Lemma at_at df k v v' :
  at_timeseries (at_timeseries df k v) k v' = at_timeseries df k v'.
Proof.
  unfold at_timeseries. rewrite map_map. apply map_ext.
  intros p. destruct (has_label k p) eqn:Hk.
  - unfold has_label in *. cbn [fst snd]. rewrite Hk. reflexivity.
  - rewrite Hk. reflexivity.
Qed.

Lemma keys_at df k v : keys (at_timeseries df k v) = keys df.
Proof.
  unfold keys, at_timeseries. rewrite map_map. apply map_ext.
  intros [a r]. destruct (has_label k (a, r)); reflexivity.
Qed.

Lemma keys_drop df k :
  keys (drop df k) = filter (fun q => negb (Nat.eqb (fst q) k)) (keys df).
Proof.
  unfold keys, drop. induction df as [|[a r] df IH]; simpl; [reflexivity|].
  unfold has_label at 1; simpl.
  destruct (Nat.eqb a k); simpl; rewrite IH; reflexivity.
Qed.

Lemma at_drop df k v : at_timeseries (drop df k) k v = drop df k.
Proof.
  unfold at_timeseries, drop.
  induction df as [|p df IH]; [reflexivity|].
  cbn [filter]. destruct (has_label k p) eqn:Hk; cbn [negb map]; [exact IH|].
  rewrite Hk, IH. reflexivity.
Qed.

Lemma combine_columns {A B C : Type} (f : B -> C) (td : list (A * B)) :
  combine (map fst td) (map f (map snd td)) = map (fun s => (fst s, f (snd s))) td.
Proof.
  induction td as [|[a b] td IH]; [reflexivity|].
  cbn [map combine fst snd]. rewrite IH. reflexivity.
Qed.

Lemma loc_opt_combine_seq k (xs : list (@row F)) p :
  loc_opt (combine (seq k (List.length xs)) xs) (k + p) = nth_error xs p.
Proof.
  revert k p. induction xs as [|x xs IH]; intros k p.
  - destruct p; reflexivity.
  - cbn [List.length seq combine]. unfold loc_opt. cbn [find].
    unfold has_label at 1. cbn [fst].
    destruct p as [|p].
    + rewrite Nat.add_0_r, Nat.eqb_refl. reflexivity.
    + destruct (Nat.eqb_spec k (k + S p)); [lia|].
      replace (k + S p) with (S k + p) by lia. apply IH.
Qed.

Lemma loc_opt_range (rs : list (@row F)) i :
  loc_opt (range_frame rs) i = nth_error rs i.
Proof. apply (loc_opt_combine_seq 0 rs i). Qed.

Lemma rows_combine_seq k (xs : list (@row F)) :
  rows (combine (seq k (List.length xs)) xs) = xs.
Proof.
  unfold rows. revert k. induction xs as [|x xs IH]; intros k; [reflexivity|].
  cbn. now rewrite IH.
Qed.

Lemma labels_combine_seq k (xs : list (@row F)) :
  labels (combine (seq k (List.length xs)) xs) = seq k (List.length xs).
Proof.
  unfold labels. revert k. induction xs as [|x xs IH]; intros k; [reflexivity|].
  cbn. now rewrite IH.
Qed.

Lemma length_reset_index df : List.length (reset_index df) = List.length df.
Proof.
  unfold reset_index. rewrite length_combine, length_seq, length_map. lia.
Qed.

Lemma rows_reset_index df :
  rows (reset_index df) = map (fun p => set_index (snd p) (fst p)) df.
Proof.
  unfold reset_index.
  rewrite <- (length_map (fun p => set_index (snd p) (fst p)) df).
  apply rows_combine_seq.
Qed.

Lemma labels_reset_index df :
  labels (reset_index df) = seq 0 (List.length (reset_index df)).
Proof.
  rewrite length_reset_index. unfold reset_index.
  rewrite <- (length_map (fun p => set_index (snd p) (fst p)) df).
  apply labels_combine_seq.
Qed.

Lemma loc_opt_reset_index df p :
  loc_opt (reset_index df) p = nth_error (rows (reset_index df)) p.
Proof.
  rewrite rows_reset_index. unfold reset_index.
  rewrite <- (length_map (fun p => set_index (snd p) (fst p)) df).
  apply (loc_opt_combine_seq 0).
Qed.

Lemma loc_opt_In df l r : loc_opt df l = Some r -> In (l, r) df.
Proof.
  unfold loc_opt. intros H.
  destruct (find (has_label l) df) as [[a r']|] eqn:Hf; [|discriminate].
  cbn in H. inversion H; subst. apply find_some in Hf.
  destruct Hf as [Hin Hl]. apply has_label_true in Hl. cbn in Hl. now subst.
Qed.

Lemma In_loc_opt df l r : In (l, r) df -> loc_opt df l <> None.
Proof.
  unfold loc_opt. intros Hin H.
  destruct (find (has_label l) df) eqn:Hf; [discriminate|].
  eapply find_none in Hf; [|eassumption].
  unfold has_label in Hf. cbn in Hf. now rewrite Nat.eqb_refl in Hf.
Qed.

Lemma In_combine_seq {A : Type} k (xs : list A) l s :
  In (l, s) (combine (seq k (List.length xs)) xs) ->
  exists p, l = k + p /\ nth_error xs p = Some s.
Proof.
  revert k. induction xs as [|x xs IH]; intros k Hin; [destruct Hin|].
  cbn in Hin. destruct Hin as [Hin|Hin].
  - inversion Hin; subst. exists 0. split; [lia|reflexivity].
  - apply IH in Hin. destruct Hin as [p [-> Hp]].
    exists (S p). split; [lia|exact Hp].
Qed.

Lemma keys_range (rs : list (@row F)) :
  keys (range_frame rs) = combine (seq 0 (List.length rs)) (map ID rs).
Proof.
  unfold keys, range_frame. generalize 0.
  induction rs as [|r rs IH]; intros k; [reflexivity|].
  cbn. now rewrite IH.
Qed.

End Frames.

Section Resolver.

Context {F R : Type} (E : @env F R).
Implicit Types (df : @frame F) (r : @row F) (v : @pyvalue F) (w : world).

(** *** Sorting by timestamp *)

Lemma insert_sample_perm s l : Permutation (insert_sample E s l) (s :: l).
Proof.
  induction l as [|h t IH]; cbn; [reflexivity|].
  destruct (fleb E (fst s) (fst h)); [reflexivity|].
  rewrite IH. apply perm_swap.
Qed.

Lemma sort_samples_perm l : Permutation (sort_samples E l) l.
Proof.
  induction l as [|s l IH]; cbn; [reflexivity|].
  rewrite insert_sample_perm. now constructor.
Qed.

Lemma insert_sample_hd s a l :
  time_le E a s -> HdRel (time_le E) a l -> HdRel (time_le E) a (insert_sample E s l).
Proof.
  intros Has Hal. destruct l as [|h t]; cbn; [now constructor|].
  destruct (fleb E (fst s) (fst h)); constructor; [assumption|].
  now inversion Hal.
Qed.

Section Total.

Hypothesis fleb_total : forall a b, fleb E a b = true \/ fleb E b a = true.

Lemma insert_sample_sorted s l :
  Sorted (time_le E) l -> Sorted (time_le E) (insert_sample E s l).
Proof.
  induction 1 as [|h t Ht IH Hh]; cbn; [repeat constructor|].
  destruct (fleb E (fst s) (fst h)) eqn:Hsh.
  - constructor; [now constructor|]. now constructor.
  - constructor; [assumption|].
    apply insert_sample_hd; [|assumption].
    unfold time_le. destruct (fleb_total (fst s) (fst h)); congruence.
Qed.

Lemma sort_samples_sorted l : Sorted (time_le E) (sort_samples E l).
Proof.
  induction l as [|s l IH]; cbn; [constructor|].
  now apply insert_sample_sorted.
Qed.

End Total.

(** Sorting a series that is in order leaves it as it is. *)
Lemma sort_samples_id l : Sorted (time_le E) l -> sort_samples E l = l.
Proof.
  induction 1 as [|h t Ht IH Hh]; [reflexivity|].
  cbn [sort_samples fold_right]. fold (sort_samples E t). rewrite IH.
  destruct Hh as [|b t' Hb]; [reflexivity|].
  cbn. unfold time_le in Hb. now rewrite Hb.
Qed.

Ltac unfold_m :=
  unfold lc_to_lk_step, resolve_cell, unpack_columns, fetch_row, sort_row,
    loc, bind, ret,
    raise, lift, try_except, emit, ledger_write, catch_all in *.

Ltac break_match :=
  match goal with
  | H : context [match ?x with _ => _ end] |- _ =>
      match type of x with
      | sumbool _ _ => fail 1
      | _ => destruct x eqn:?
      end
  end.

Ltac inv_pair :=
  match goal with
  | H : (_, _) = (_, _) |- _ => inversion H; subst; clear H
  end.

(** The last statement of a turn: the frame is kept, or the cell of row
    [i] is rewritten. *)
Lemma sort_row_spec i df w res w' :
  sort_row E i df w = (res, w') ->
  w' = w /\
  (res = Ok df \/ exists v, res = Ok (at_timeseries df i v)).
Proof.
  unfold_m. intros H.
  destruct (loc_opt df i) as [r|] eqn:Hr.
  - destruct (truthy (timeseries r)); inv_pair; split; eauto.
  - cbn in H. inv_pair. split; eauto.
Qed.

Lemma resolve_cell_frame dd uc i id df w df' w' :
  resolve_cell E dd uc i id df w = (Ok df', w') ->
  df' = df \/ df' = drop df i \/ exists v, df' = at_timeseries df i v.
Proof.
  unfold_m. intros H.
  repeat (break_match; try inv_pair; try discriminate); eauto.
Qed.

Lemma step_frame dd uc i id df w df' w' :
  lc_to_lk_step E dd uc i id df w = (Ok df', w') ->
  df' = df \/ df' = drop df i \/ exists v, df' = at_timeseries df i v.
Proof.
  unfold lc_to_lk_step, bind. intros H.
  destruct (resolve_cell E dd uc i id df w) as [[df1|e] w1] eqn:H1; [|discriminate].
  apply resolve_cell_frame in H1. apply sort_row_spec in H.
  destruct H as [_ [H|[v' H]]]; inversion H; subst; clear H; [exact H1|].
  destruct H1 as [->|[->|[v ->]]].
  - right; right; eauto.
  - rewrite at_drop. auto.
  - rewrite at_at. right; right; eauto.
Qed.

(** Two rows or more are unpacked as the two columns. *)
Lemma unpack_columns_ok (td : list (F * F)) w :
  2 <= List.length td -> unpack_columns td w = (Ok td, w).
Proof.
  destruct td as [|s0 [|s1 td]]; cbn [List.length]; intros H; try lia.
  reflexivity.
Qed.

(** What is unpacked has two rows or more. *)
Lemma unpack_columns_inv (td td' : list (F * F)) w w' :
  unpack_columns td w = (Ok td', w') ->
  td' = td /\ w' = w /\ 2 <= List.length td.
Proof.
  destruct td as [|s0 [|s1 td]]; cbn; intros H; inversion H; subst.
  repeat split. cbn. lia.
Qed.

(** A row whose cell is a path to a file that loads, with two rows or
    more. *)
Lemma step_file_ok dd uc i id df w r path td :
  loc_opt df i = Some r ->
  timeseries r = PyStr path ->
  genfromtxt E path = Ok td ->
  2 <= List.length td ->
  lc_to_lk_step E dd uc i id df w =
  (Ok (at_timeseries df i
         (PyLightCurve (mk_lc (sort_samples E (add_offset E td)) (ID r)))), w).
Proof.
  intros Hr Hts Hf Hlen.
  unfold lc_to_lk_step, resolve_cell, sort_row, loc, bind, ret, raise, lift.
  rewrite Hr, Hts, Hf, (unpack_columns_ok td w Hlen).
  rewrite loc_opt_at_same, Hr. cbn [option_map set_timeseries timeseries].
  unfold arr_to_lk. rewrite combine_columns. fold (add_offset E td).
  cbn [truthy samples].
  destruct (add_offset E td) as [|s l] eqn:Hl.
  - reflexivity.
  - rewrite at_at. reflexivity.
Qed.

(** A row whose cell is a path to an empty file. *)
Lemma step_file_empty dd uc i id df w r path :
  loc_opt df i = Some r ->
  timeseries r = PyStr path ->
  genfromtxt E path = Ok [] ->
  lc_to_lk_step E dd uc i id df w = (Raise nothing_to_unpack, w).
Proof.
  intros Hr Hts Hf. unfold_m. rewrite Hr, Hts, Hf. reflexivity.
Qed.

(** A row whose cell is a path to a file of one row. *)
Lemma step_file_one_row dd uc i id df w r path s :
  loc_opt df i = Some r ->
  timeseries r = PyStr path ->
  genfromtxt E path = Ok [s] ->
  lc_to_lk_step E dd uc i id df w = (Raise unsized_series, w).
Proof.
  intros Hr Hts Hf. unfold_m. rewrite Hr, Hts, Hf. reflexivity.
Qed.

(** A row whose cell is a path to a file that does not load. *)
Lemma step_file_fail dd uc i id df w r path e :
  loc_opt df i = Some r ->
  timeseries r = PyStr path ->
  genfromtxt E path = Raise e ->
  lc_to_lk_step E dd uc i id df w = (Raise e, w).
Proof.
  intros Hr Hts Hf. unfold_m. rewrite Hr, Hts, Hf. reflexivity.
Qed.

(** A row with no series and no spectrum, whose archive query raises. *)
Lemma step_fetch_fail dd uc i id df w r exc :
  loc_opt df i = Some r ->
  is_str (timeseries r) = false ->
  truthy (timeseries r) = false ->
  truthy (psd r) = false ->
  query_lightkurve E id dd uc (context r) = Raise exc ->
  lc_to_lk_step E dd uc i id df w =
  (Ok (drop df i),
   mk_world (ledger_at (ledger w) (KId id) (exn_str exc))
            (trace w ++ [Query i id; Printed (query_failed_message id exc)])%list).
Proof.
  intros Hr Hs Ht Hp Hq. unfold_m. rewrite Hr.
  destruct (timeseries r) eqn:Hts; try discriminate;
    cbn [negb] in *; rewrite ?Ht; cbn [negb];
    rewrite Hp, Hq; cbn [trace ledger];
    rewrite loc_opt_drop_same; cbn; rewrite <- app_assoc; reflexivity.
Qed.

(** A row that is not a string and is true, without [__module__]. *)
Lemma step_no_module dd uc i id df w r e :
  loc_opt df i = Some r ->
  is_str (timeseries r) = false ->
  truthy (timeseries r) = true ->
  get_module (timeseries r) = Raise e ->
  lc_to_lk_step E dd uc i id df w = (Raise e, w).
Proof.
  intros Hr Hs Ht Hm. unfold_m. rewrite Hr.
  destruct (timeseries r) eqn:Hts; try discriminate;
    rewrite ?Ht; cbn [negb]; rewrite Hm; reflexivity.
Qed.

(** A row that is not a string, is true, and is of another module. *)
Lemma step_unsupported dd uc i id df w r m :
  loc_opt df i = Some r ->
  is_str (timeseries r) = false ->
  truthy (timeseries r) = true ->
  get_module (timeseries r) = Ok m ->
  String.eqb m lk_lightcurve_name = false ->
  lc_to_lk_step E dd uc i id df w = (Raise (TypeError unsupported_message), w).
Proof.
  intros Hr Hs Ht Hm Hn. unfold_m. rewrite Hr.
  destruct (timeseries r) eqn:Hts; try discriminate;
    rewrite ?Ht; cbn [negb]; rewrite Hm, Hn; reflexivity.
Qed.

(** A row that is not a string, is true, and is a light curve. *)
Lemma step_accept dd uc i id df w r :
  loc_opt df i = Some r ->
  is_str (timeseries r) = false ->
  truthy (timeseries r) = true ->
  get_module (timeseries r) = Ok lk_lightcurve_name ->
  lc_to_lk_step E dd uc i id df w =
  (Ok (at_timeseries df i (sort_cell E (timeseries r))), w).
Proof.
  intros Hr Hs Ht Hm. unfold_m. rewrite Hr.
  destruct (timeseries r) eqn:Hts; try discriminate;
    rewrite ?Ht; cbn [negb]; rewrite Hm; cbn [String.eqb];
    rewrite ?String.eqb_refl, Hr, Hts, Ht; reflexivity.
Qed.

(** A row with no series and a spectrum. *)
Lemma step_has_psd dd uc i id df w r :
  loc_opt df i = Some r ->
  is_str (timeseries r) = false ->
  truthy (timeseries r) = false ->
  truthy (psd r) = true ->
  lc_to_lk_step E dd uc i id df w = (Ok df, w).
Proof.
  intros Hr Hs Ht Hp. unfold_m. rewrite Hr.
  destruct (timeseries r) eqn:Hts; try discriminate;
    rewrite ?Ht; cbn [negb]; rewrite Hp, Hr, Hts, ?Ht; reflexivity.
Qed.

(** A row with no series and no spectrum, whose archive query answers. *)
Lemma step_fetch_ok dd uc i id df w r lc :
  loc_opt df i = Some r ->
  is_str (timeseries r) = false ->
  truthy (timeseries r) = false ->
  truthy (psd r) = false ->
  query_lightkurve E id dd uc (context r) = Ok lc ->
  lc_to_lk_step E dd uc i id df w =
  (Ok (at_timeseries df i (PyLightCurve (sort_lc E lc))),
   mk_world (ledger w) (trace w ++ [Query i id])).
Proof.
  intros Hr Hs Ht Hp Hq. unfold_m. rewrite Hr.
  assert (Hsort : forall w0,
    (match loc_opt (at_timeseries df i (PyLightCurve lc)) i with
     | Some r0 => fun w1 => (Ok r0, w1)
     | None => fun w1 => (Raise (KeyError i), w1)
     end w0) = (Ok (set_timeseries r (PyLightCurve lc)), w0)).
  { intros w0. rewrite loc_opt_at_same, Hr. reflexivity. }
  destruct (timeseries r) eqn:Hts; try discriminate;
    rewrite ?Ht; cbn [negb]; rewrite Hp, Hq; cbn [trace ledger];
    rewrite Hsort; cbn [set_timeseries timeseries truthy samples sort_cell];
    (destruct (samples lc) as [|s l] eqn:Hl;
     [ unfold sort_lc; rewrite Hl; destruct lc; cbn in *; subst; reflexivity
     | rewrite at_at; reflexivity ]).
Qed.

(** A position that is not a label of the frame. *)
Lemma step_missing dd uc i id df w :
  loc_opt df i = None ->
  lc_to_lk_step E dd uc i id df w = (Raise (KeyError i), w).
Proof. intros Hr. unfold_m. rewrite Hr. reflexivity. Qed.

Lemma step_cases dd uc i id df w :
  step_case E dd uc i id df w (lc_to_lk_step E dd uc i id df w).
Proof.
  destruct (loc_opt df i) as [r|] eqn:Hr.
  2: { rewrite step_missing by assumption. now constructor. }
  destruct (is_str (timeseries r)) eqn:Hs.
  { destruct (timeseries r) as [|path| |] eqn:Hts; try discriminate.
    destruct (genfromtxt E path) as [[|s0 [|s1 td]]|e] eqn:Hf.
    - erewrite step_file_empty by eassumption.
      eapply case_file_empty; eassumption.
    - erewrite step_file_one_row by eassumption.
      eapply case_file_one_row; eassumption.
    - erewrite step_file_ok by (try eassumption; cbn; lia).
      eapply case_file_ok; try eassumption. cbn. lia.
    - erewrite step_file_fail by eassumption. econstructor; eassumption. }
  destruct (truthy (timeseries r)) eqn:Ht.
  - destruct (get_module (timeseries r)) as [m|e] eqn:Hm.
    + destruct (String.eqb m lk_lightcurve_name) eqn:Hn.
      * apply String.eqb_eq in Hn. subst m.
        erewrite step_accept by eassumption. econstructor; eassumption.
      * erewrite step_unsupported by eassumption. econstructor; eassumption.
    + erewrite step_no_module by eassumption. econstructor; eassumption.
  - destruct (truthy (psd r)) eqn:Hp.
    + erewrite step_has_psd by eassumption. econstructor; eassumption.
    + destruct (query_lightkurve E id dd uc (context r)) as [lc|exc] eqn:Hq.
      * erewrite step_fetch_ok by eassumption. econstructor; eassumption.
      * erewrite step_fetch_fail by eassumption. econstructor; eassumption.
Qed.

(** *** The loop *)

Lemma loop_app dd uc k a b df w :
  lc_to_lk_loop E dd uc k (a ++ b) df w =
  match lc_to_lk_loop E dd uc k a df w with
  | (Ok df1, w1) => lc_to_lk_loop E dd uc (k + List.length a) b df1 w1
  | (Raise e, w1) => (Raise e, w1)
  end.
Proof.
  revert k df w. induction a as [|id a IH]; intros k df w.
  - cbn. rewrite Nat.add_0_r. reflexivity.
  - cbn [app lc_to_lk_loop List.length]. unfold bind.
    destruct (lc_to_lk_step E dd uc k id df w) as [[df1|e] w1]; [|reflexivity].
    rewrite IH. rewrite Nat.add_succ_r. reflexivity.
Qed.

Lemma loop_cons dd uc k id ids df w :
  lc_to_lk_loop E dd uc k (id :: ids) df w =
  match lc_to_lk_step E dd uc k id df w with
  | (Ok df1, w1) => lc_to_lk_loop E dd uc (S k) ids df1 w1
  | (Raise e, w1) => (Raise e, w1)
  end.
Proof. reflexivity. Qed.

(** A turn at position [k] leaves the rows under other labels alone. *)
Lemma step_loc_other dd uc k id df w df' w' l :
  lc_to_lk_step E dd uc k id df w = (Ok df', w') ->
  l <> k -> loc_opt df' l = loc_opt df l.
Proof.
  intros H Hl. apply step_frame in H. destruct H as [->|[->|[v ->]]].
  - reflexivity.
  - now apply loc_opt_drop_other.
  - now apply loc_opt_at_other.
Qed.

Lemma loop_loc_other dd uc k ids df w df' w' l :
  lc_to_lk_loop E dd uc k ids df w = (Ok df', w') ->
  l < k \/ k + List.length ids <= l ->
  loc_opt df' l = loc_opt df l.
Proof.
  revert k df w. induction ids as [|id ids IH]; intros k df w H Hl.
  - cbn in H. inversion H. reflexivity.
  - rewrite loop_cons in H.
    destruct (lc_to_lk_step E dd uc k id df w) as [[df1|e] w1] eqn:Hs; [|discriminate].
    cbn [List.length] in Hl.
    rewrite (IH _ _ _ H) by lia.
    eapply step_loc_other; [eassumption|lia].
Qed.

(** The rows that are left after the loop are rows of the table it
    started from, in their order. *)
Lemma step_keys dd uc k id df w df' w' :
  lc_to_lk_step E dd uc k id df w = (Ok df', w') ->
  keys df' = keys df \/
  keys df' = filter (fun q => negb (Nat.eqb (fst q) k)) (keys df).
Proof.
  intros H. apply step_frame in H. destruct H as [->|[->|[v ->]]].
  - now left.
  - right. apply keys_drop.
  - left. apply keys_at.
Qed.

Lemma loop_keys dd uc k ids df w df' w' :
  lc_to_lk_loop E dd uc k ids df w = (Ok df', w') ->
  exists dropped, keys df' = filter (kept dropped) (keys df).
Proof.
  revert k df w. induction ids as [|id ids IH]; intros k df w H.
  - cbn in H. inversion H; subst. exists [].
    symmetry. apply forallb_filter_id. apply forallb_forall. reflexivity.
  - rewrite loop_cons in H.
    destruct (lc_to_lk_step E dd uc k id df w) as [[df1|e] w1] eqn:Hs; [|discriminate].
    destruct (IH _ _ _ H) as [dropped Hd]. apply step_keys in Hs.
    destruct Hs as [Hs|Hs]; rewrite Hs in Hd.
    + exists dropped. exact Hd.
    + exists (k :: dropped). rewrite Hd.
      clear. induction (keys df) as [|q l IHl]; [reflexivity|].
      unfold kept in *. cbn [filter existsb].
      destruct (Nat.eqb (fst q) k); cbn [negb orb filter]; [exact IHl|].
      destruct (existsb (Nat.eqb (fst q)) dropped); cbn [negb]; rewrite IHl; reflexivity.
Qed.


Lemma lc_to_lk_inv df dd uc w out w' :
  lc_to_lk E df dd uc w = (Ok out, w') ->
  exists df', lc_to_lk_loop E dd uc 0 (map ID (rows df)) df w = (Ok df', w')
              /\ out = reset_index df'.
Proof.
  unfold lc_to_lk, bind, ret. intros H.
  destruct (lc_to_lk_loop E dd uc 0 (map ID (rows df)) df w) as [[df'|e] w1];
    inversion H; subst. eauto.
Qed.

(** C4. Rows that the resolver drops leave the others in the order of the
    input table: the rows of the result, by their old label and their
    identifier, are the rows of the input without the dropped labels.  The
    result is labelled 0, 1, 2, ... without a gap, so that the lookup by
    position [p] that the converter and the driver do finds the [p]-th
    surviving row: none is skipped, none is met twice. *)
Theorem lc_to_lk_keeps_order_and_reindexes df dd uc w out w' :
  lc_to_lk E df dd uc w = (Ok out, w') ->
  (exists dropped,
     map (fun r => (index r, ID r)) (rows out) =
     map (fun q => (Some (fst q), snd q)) (filter (kept dropped) (keys df)))
  /\ labels out = seq 0 (List.length out)
  /\ (forall p, loc_opt out p = nth_error (rows out) p).
Proof.
  intros H. apply lc_to_lk_inv in H. destruct H as [df' [H ->]].
  split; [|split].
  - apply loop_keys in H. destruct H as [dropped Hk].
    exists dropped. rewrite <- Hk, rows_reset_index.
    unfold keys. rewrite !map_map. apply map_ext. intros [l r]. reflexivity.
  - apply labels_reset_index.
  - intros p. apply loc_opt_reset_index.
Qed.


(** *** No query for a row with a spectrum *)

Lemma step_psd_kept dd uc k id df w df' w' i :
  lc_to_lk_step E dd uc k id df w = (Ok df', w') ->
  (forall r, loc_opt df i = Some r -> truthy (psd r) = true) ->
  forall r, loc_opt df' i = Some r -> truthy (psd r) = true.
Proof.
  intros H Hinv r Hr. apply step_frame in H. destruct H as [->|[->|[v ->]]].
  - now apply Hinv.
  - destruct (Nat.eq_dec i k) as [->|Hne].
    + rewrite loc_opt_drop_same in Hr. discriminate.
    + rewrite loc_opt_drop_other in Hr by assumption. now apply Hinv.
  - destruct (Nat.eq_dec i k) as [->|Hne].
    + rewrite loc_opt_at_same in Hr.
      destruct (loc_opt df k) as [r0|] eqn:Hr0; [|discriminate].
      cbn in Hr. inversion Hr; subst. cbn. now apply Hinv.
    + rewrite loc_opt_at_other in Hr by assumption. now apply Hinv.
Qed.

Lemma step_no_query dd uc k id df w res w' i id' :
  lc_to_lk_step E dd uc k id df w = (res, w') ->
  (forall r, loc_opt df i = Some r -> truthy (psd r) = true) ->
  In (Query i id') (trace w') -> In (Query i id') (trace w).
Proof.
  intros H Hinv Hin. pose proof (step_cases dd uc k id df w) as C.
  rewrite H in C. inversion C; subst; try assumption; cbn [trace] in Hin;
    apply in_app_or in Hin; (destruct Hin as [Hin|Hin]; [assumption|]);
    cbn in Hin;
    repeat match goal with
    | H : _ \/ _ |- _ => destruct H
    | H : False |- _ => destruct H
    | H : Query _ _ = Query _ _ |- _ => inversion H; subst; clear H
    | H : Printed _ = Query _ _ |- _ => discriminate H
    end;
    match goal with
    | Hr : loc_opt df i = Some ?r, Hp : truthy (psd ?r) = false |- _ =>
        rewrite (Hinv _ Hr) in Hp; discriminate
    end.
Qed.

Lemma loop_no_query dd uc k ids df w res w' i id' :
  lc_to_lk_loop E dd uc k ids df w = (res, w') ->
  (forall r, loc_opt df i = Some r -> truthy (psd r) = true) ->
  In (Query i id') (trace w') -> In (Query i id') (trace w).
Proof.
  revert k df w. induction ids as [|id ids IH]; intros k df w H Hinv Hin.
  - cbn in H. inversion H; subst. assumption.
  - rewrite loop_cons in H.
    destruct (lc_to_lk_step E dd uc k id df w) as [[df1|e] w1] eqn:Hs.
    + eapply step_no_query; [eassumption..|].
      eapply IH; [eassumption| |assumption].
      eapply step_psd_kept; eassumption.
    + inversion H; subst. eapply step_no_query; eassumption.
Qed.

(** C6. When the row at position [i] of the table holds a power spectrum,
    whatever its time-series cell holds, the resolver does not call the
    archive query for it: every query of row [i] in the trace after
    [lc_to_lk] was there before. *)
Theorem no_fetch_when_psd_present (rs : list row) i r dd uc w res w' :
  nth_error rs i = Some r ->
  truthy (psd r) = true ->
  lc_to_lk E (range_frame rs) dd uc w = (res, w') ->
  forall id, In (Query i id) (trace w') -> In (Query i id) (trace w).
Proof.
  intros Hr Hp H id Hin. unfold lc_to_lk, bind, ret in H.
  destruct (lc_to_lk_loop E dd uc 0 (map ID (rows (range_frame rs)))
              (range_frame rs) w) as [[df'|e] w1] eqn:Hl;
    inversion H; subst; clear H.
  all: eapply loop_no_query; [eassumption| |assumption].
  all: intros r0 Hr0; rewrite loc_opt_range, Hr in Hr0; inversion Hr0; now subst.
Qed.


(** *** What the loop writes in the ledger *)

Lemma step_ledger_other dd uc k id df w res w' key :
  lc_to_lk_step E dd uc k id df w = (res, w') ->
  key <> KId id ->
  ledger_get (ledger w') key = ledger_get (ledger w) key /\
  ledger_count (ledger w') key = ledger_count (ledger w) key.
Proof.
  intros H Hne. pose proof (step_cases dd uc k id df w) as C.
  rewrite H in C. inversion C; subst; cbn [ledger]; auto.
  split; [now apply ledger_get_at_other|now apply ledger_count_at_other].
Qed.

Lemma loop_ledger_other dd uc k ids df w res w' key :
  lc_to_lk_loop E dd uc k ids df w = (res, w') ->
  (forall id, In id ids -> key <> KId id) ->
  ledger_get (ledger w') key = ledger_get (ledger w) key /\
  ledger_count (ledger w') key = ledger_count (ledger w) key.
Proof.
  revert k df w. induction ids as [|id ids IH]; intros k df w H Hn.
  - cbn in H. inversion H; subst. auto.
  - rewrite loop_cons in H.
    destruct (lc_to_lk_step E dd uc k id df w) as [[df1|e] w1] eqn:Hs.
    + apply IH in H; [|intros; apply Hn; now right].
      eapply step_ledger_other in Hs; [|apply Hn; now left].
      destruct H as [-> ->]. exact Hs.
    + inversion H; subst. eapply step_ledger_other; [eassumption|].
      apply Hn. now left.
Qed.

(** The loop over a table with a RangeIndex, cut at the row of position
    [i]: the turns before it leave the row as it was. *)
Lemma loop_range_split (rs : list row) i r dd uc w :
  nth_error rs i = Some r ->
  lc_to_lk_loop E dd uc 0 (map ID (rows (range_frame rs))) (range_frame rs) w =
  match lc_to_lk_loop E dd uc 0 (map ID (firstn i rs)) (range_frame rs) w with
  | (Ok df1, w1) =>
      lc_to_lk_loop E dd uc i (ID r :: map ID (skipn (S i) rs)) df1 w1
  | (Raise e, w1) => (Raise e, w1)
  end.
Proof.
  intros Hr. destruct (nth_error_split _ _ Hr) as [pre [post [Hrs Hlen]]].
  assert (Hpre : firstn i rs = pre).
  { rewrite Hrs, <- Hlen, firstn_app, firstn_all, Nat.sub_diag.
    cbn. apply app_nil_r. }
  assert (Hpost : skipn (S i) rs = post).
  { rewrite Hrs, <- Hlen. replace (r :: post) with ([r] ++ post)%list by reflexivity.
    rewrite app_assoc, skipn_app, skipn_all2 by (rewrite length_app; cbn; lia).
    rewrite length_app. cbn [List.length].
    replace (S (List.length pre) - (List.length pre + 1)) with 0 by lia.
    reflexivity. }
  rewrite Hpre, Hpost.
  unfold range_frame at 1. rewrite rows_combine_seq.
  replace (map ID rs) with (map ID pre ++ ID r :: map ID post)%list
    by (rewrite Hrs, map_app; reflexivity).
  rewrite loop_app. rewrite length_map, Hlen. reflexivity.
Qed.

Lemma split_at (rs : list row) i r :
  nth_error rs i = Some r ->
  rs = (firstn i rs ++ r :: skipn (S i) rs)%list.
Proof.
  revert i. induction rs as [|x rs IH]; intros [|i] H; try discriminate.
  - cbn in *. now inversion H.
  - cbn in *. f_equal. now apply IH.
Qed.

Lemma unique_ID_split (rs : list row) i r :
  nth_error rs i = Some r ->
  NoDup (map ID rs) ->
  ~ In (ID r) (map ID (firstn i rs)) /\ ~ In (ID r) (map ID (skipn (S i) rs)).
Proof.
  intros Hr Hnd. rewrite (split_at _ _ _ Hr), map_app in Hnd. cbn [map] in Hnd.
  apply NoDup_remove_2 in Hnd.
  split; intros Hin; apply Hnd, in_or_app; auto.
Qed.

Lemma KId_neq a b : a <> b -> KId a <> KId b.
Proof. intros H He. inversion He. contradiction. Qed.

Lemma loop_range_prefix (rs : list row) i r dd uc w df1 w1 :
  nth_error rs i = Some r ->
  lc_to_lk_loop E dd uc 0 (map ID (firstn i rs)) (range_frame rs) w = (Ok df1, w1) ->
  loc_opt df1 i = Some r.
Proof.
  intros Hr Hpre.
  rewrite (loop_loc_other _ _ _ _ _ _ _ _ i Hpre).
  - now rewrite loc_opt_range.
  - right. rewrite length_map, length_firstn. lia.
Qed.

(** C9. The file of a row is loaded outside of any handler: when the rows
    before position [i] were resolved and the file named by row [i] does
    not load, [lc_to_lk] raises the exception of the loader.  The world it
    leaves is the one the earlier rows left: nothing is written in the
    ledger for this row, and the rows after it are not visited. *)
Theorem file_load_failure_aborts_batch (rs : list row) i r path e dd uc w df1 w1 :
  nth_error rs i = Some r ->
  timeseries r = PyStr path ->
  genfromtxt E path = Raise e ->
  lc_to_lk_loop E dd uc 0 (map ID (firstn i rs)) (range_frame rs) w = (Ok df1, w1) ->
  lc_to_lk E (range_frame rs) dd uc w = (Raise e, w1)
  /\ (NoDup (map ID rs) ->
      ledger_get (ledger w1) (KId (ID r)) = ledger_get (ledger w) (KId (ID r))).
Proof.
  intros Hr Hts Hf Hpre. split.
  - unfold lc_to_lk, bind.
    rewrite (loop_range_split _ _ _ _ _ _ Hr), Hpre, loop_cons.
    erewrite step_file_fail; [reflexivity| |eassumption..].
    eapply loop_range_prefix; eassumption.
  - intros Hnd. destruct (unique_ID_split _ _ _ Hr Hnd) as [Hpre' _].
    eapply loop_ledger_other; [eassumption|].
    intros id Hin. apply KId_neq. intros <-. contradiction.
Qed.

(** X9. A cell that is not a string, is true and is not a light curve aborts
    the batch in the same way, with the TypeError of line 70 when the
    object has a [__module__], and with the AttributeError of the probe of
    line 67 when it has none. *)
Lemma unrecognized_series_aborts_batch (rs : list row) i r dd uc w df1 w1 :
  nth_error rs i = Some r ->
  is_str (timeseries r) = false ->
  truthy (timeseries r) = true ->
  get_module (timeseries r) <> Ok lk_lightcurve_name ->
  lc_to_lk_loop E dd uc 0 (map ID (firstn i rs)) (range_frame rs) w = (Ok df1, w1) ->
  exists e,
    lc_to_lk E (range_frame rs) dd uc w = (Raise e, w1) /\
    match get_module (timeseries r) with
    | Ok _ => e = TypeError unsupported_message
    | Raise e' => e = e'
    end.
Proof.
  intros Hr Hs Ht Hm Hpre.
  pose proof (loop_range_prefix _ _ _ _ _ _ _ _ Hr Hpre) as Hdf1.
  unfold lc_to_lk, bind.
  rewrite (loop_range_split _ _ _ _ _ _ Hr), Hpre, loop_cons.
  destruct (get_module (timeseries r)) as [m|e] eqn:Hg.
  - exists (TypeError unsupported_message). split; [|reflexivity].
    erewrite step_unsupported; [reflexivity|eassumption..|].
    destruct (String.eqb m lk_lightcurve_name) eqn:Hn; [|reflexivity].
    apply String.eqb_eq in Hn. subst m. contradiction.
  - exists e. split; [|reflexivity].
    erewrite step_no_module; [reflexivity|eassumption..].
Qed.

(** C2. A row at position [i] with an empty time-series cell and no power
    spectrum, whose archive query raises [exc].  Its turn of the loop ends
    normally: it writes the message of [exc] in the ledger under the
    identifier of the row, drops the row, and the loop goes on with the
    next position; the rows under the other labels are the same after the
    drop.  When the identifiers of the table are distinct and [lc_to_lk]
    returns, the ledger maps the identifier to that message in exactly one
    entry, and the table handed to the converter and the driver holds no
    row that was at position [i], nor one with its identifier. *)
Theorem fetch_failure_is_isolated (rs : list row) i r exc dd uc :
  nth_error rs i = Some r ->
  is_str (timeseries r) = false ->
  truthy (timeseries r) = false ->
  truthy (psd r) = false ->
  query_lightkurve E (ID r) dd uc (context r) = Raise exc ->
  NoDup (map ID rs) ->
  (forall ids df w,
     loc_opt df i = Some r ->
     lc_to_lk_loop E dd uc i (ID r :: ids) df w =
     lc_to_lk_loop E dd uc (S i) ids (drop df i)
       (mk_world (ledger_at (ledger w) (KId (ID r)) (exn_str exc))
                 (trace w ++ [Query i (ID r);
                              Printed (query_failed_message (ID r) exc)])))
  /\ (forall df l, l <> i -> loc_opt (drop df i) l = loc_opt df l)
  /\ (forall w out w',
        ledger_count (ledger w) (KId (ID r)) <= 1 ->
        lc_to_lk E (range_frame rs) dd uc w = (Ok out, w') ->
        ledger_get (ledger w') (KId (ID r)) = Some (exn_str exc)
        /\ ledger_count (ledger w') (KId (ID r)) = 1
        /\ (forall r', In r' (rows out) -> index r' <> Some i /\ ID r' <> ID r)).
Proof.
  intros Hr Hs Ht Hp Hq Hnd.
  assert (Hstep : forall ids df w,
     loc_opt df i = Some r ->
     lc_to_lk_loop E dd uc i (ID r :: ids) df w =
     lc_to_lk_loop E dd uc (S i) ids (drop df i)
       (mk_world (ledger_at (ledger w) (KId (ID r)) (exn_str exc))
                 (trace w ++ [Query i (ID r);
                              Printed (query_failed_message (ID r) exc)]))).
  { intros ids df w Hdf. rewrite loop_cons.
    erewrite step_fetch_fail by eassumption. reflexivity. }
  split; [exact Hstep|]. split; [intros; now apply loc_opt_drop_other|].
  intros w out w' Hc H.
  apply lc_to_lk_inv in H. destruct H as [df' [H ->]].
  pose proof H as Hkeys. apply loop_keys in Hkeys. destruct Hkeys as [dropped Hkeys].
  rewrite (loop_range_split _ _ _ _ _ _ Hr) in H.
  destruct (lc_to_lk_loop E dd uc 0 (map ID (firstn i rs)) (range_frame rs) w)
    as [[df1|e] w1] eqn:Hpre; [|discriminate].
  pose proof (loop_range_prefix _ _ _ _ _ _ _ _ Hr Hpre) as Hdf1.
  rewrite (Hstep _ _ _ Hdf1) in H.
  destruct (unique_ID_split _ _ _ Hr Hnd) as [Hn1 Hn2].
  destruct (loop_ledger_other _ _ _ _ _ _ _ _ (KId (ID r)) Hpre) as [Hg1 Hc1].
  { intros id Hin. apply KId_neq. intros <-. contradiction. }
  destruct (loop_ledger_other _ _ _ _ _ _ _ _ (KId (ID r)) H) as [Hg2 Hc2].
  { intros id Hin. apply KId_neq. intros <-. contradiction. }
  cbn [ledger] in Hg2, Hc2.
  rewrite ledger_get_at_same in Hg2. rewrite ledger_count_at_same, Hc1 in Hc2.
  split; [exact Hg2|]. split; [lia|].
  assert (Hgone : loc_opt df' i = None).
  { rewrite (loop_loc_other _ _ _ _ _ _ _ _ i H) by (left; lia).
    apply loc_opt_drop_same. }
  intros r' Hin. rewrite rows_reset_index in Hin. apply in_map_iff in Hin.
  destruct Hin as [[l r0] [<- Hin]]. cbn [fst snd set_index index ID].
  split.
  - intros Hl. inversion Hl; subst l. now apply In_loc_opt in Hin.
  - intros Hid.
    assert (Hk : In (l, ID r0) (keys df')).
    { unfold keys. apply in_map_iff. exists (l, r0). auto. }
    rewrite Hkeys in Hk. apply filter_In in Hk. destruct Hk as [Hk _].
    rewrite keys_range, <- (length_map ID rs) in Hk.
    apply In_combine_seq in Hk. destruct Hk as [p [-> Hnth]]. cbn [Nat.add] in Hin.
    rewrite Hid in Hnth.
    assert (Hi : nth_error (map ID rs) i = Some (ID r)) by now apply map_nth_error.
    assert (p = i).
    { eapply (proj1 (NoDup_nth_error (map ID rs))); [exact Hnd| |congruence].
      apply nth_error_Some. congruence. }
    subst p. now apply In_loc_opt in Hin.
Qed.




Lemma Sorted_add_offset td :
  Sorted (time_le E) td -> Sorted (time_le E) (add_offset E td).
Proof.
  induction 1 as [|h t Ht IH Hh]; cbn; constructor; [assumption|].
  destruct Hh; cbn; constructor. assumption.
Qed.

(** C5. A row at position [i] whose time-series cell names a two-column
    file that loads as the rows [td].  When the comparison of timestamps is
    total and [lc_to_lk] returns, the row is in the result with a light
    curve whose samples are those of the file, each flux with [tinyoffset]
    (1) added, sorted by timestamp: the samples are a permutation of the
    rows of the file with the offset, they are in ascending order of the
    first column, and the second column holds the fluxes of the file plus
    the offset - in the order of the file when the file is in order. *)
Theorem file_series_offset_and_sorted (rs : list row) i r path td dd uc w out w' :
  nth_error rs i = Some r ->
  timeseries r = PyStr path ->
  genfromtxt E path = Ok td ->
  (forall a b, fleb E a b = true \/ fleb E b a = true) ->
  lc_to_lk E (range_frame rs) dd uc w = (Ok out, w') ->
  tinyoffset = 1%Z /\
  exists r' lc,
    In r' (rows out) /\ index r' = Some i /\ ID r' = ID r /\
    timeseries r' = PyLightCurve lc /\
    samples lc = sort_samples E (add_offset E td) /\
    Permutation (samples lc) (add_offset E td) /\
    Permutation (lc_flux lc)
      (map (fun d => fadd E d (of_int E tinyoffset)) (map snd td)) /\
    Sorted (time_le E) (samples lc) /\
    (Sorted (time_le E) td ->
       lc_time lc = map fst td /\
       lc_flux lc = map (fun d => fadd E d (of_int E tinyoffset)) (map snd td)).
Proof.
  intros Hr Hts Hf Htot H. split; [reflexivity|].
  apply lc_to_lk_inv in H. destruct H as [df' [H ->]].
  rewrite (loop_range_split _ _ _ _ _ _ Hr) in H.
  destruct (lc_to_lk_loop E dd uc 0 (map ID (firstn i rs)) (range_frame rs) w)
    as [[df1|e] w1] eqn:Hpre; [|discriminate].
  pose proof (loop_range_prefix _ _ _ _ _ _ _ _ Hr Hpre) as Hdf1.
  rewrite loop_cons in H.
  assert (Hlen : 2 <= List.length td).
  { destruct td as [|s0 [|s1 td]]; [| |cbn; lia].
    - erewrite step_file_empty in H by eassumption. discriminate.
    - erewrite step_file_one_row in H by eassumption. discriminate. }
  erewrite step_file_ok in H by eassumption.
  set (lc := mk_lc (sort_samples E (add_offset E td)) (ID r)) in *.
  assert (Hrow : loc_opt df' i = Some (set_timeseries r (PyLightCurve lc))).
  { rewrite (loop_loc_other _ _ _ _ _ _ _ _ i H) by (left; lia).
    rewrite loc_opt_at_same, Hdf1. reflexivity. }
  apply loc_opt_In in Hrow.
  exists (set_index (set_timeseries r (PyLightCurve lc)) i), lc.
  split.
  { rewrite rows_reset_index. apply in_map_iff.
    exists (i, set_timeseries r (PyLightCurve lc)). auto. }
  repeat split; try reflexivity.
  - apply sort_samples_perm.
  - unfold lc_flux. cbn [samples lc]. rewrite sort_samples_perm.
    unfold add_offset. rewrite !map_map. reflexivity.
  - now apply sort_samples_sorted.
  - unfold lc_time. cbn [samples lc].
    rewrite sort_samples_id by now apply Sorted_add_offset.
    unfold add_offset. rewrite map_map. reflexivity.
  - unfold lc_flux. cbn [samples lc].
    rewrite sort_samples_id by now apply Sorted_add_offset.
    unfold add_offset. rewrite !map_map. reflexivity.
Qed.

End Resolver.

Section Driver.

Context {F R : Type} (E : @env F R).
Implicit Types (st : @star F) (w : world).

(** *** The constructor *)

(** A conversion that raises a TypeError is reported, and the constructor
    goes on to read the name that was not bound. *)
Lemma unconvertible_records_unbound a d e w :
  a_dictlike a = DictRecords d ->
  from_records E d = Raise e ->
  is_instance "TypeError" e = true ->
  exists w',
    jam_init E a w = (Raise (UnboundLocalError "vardf"), w') /\
    In (Printed unrecognized_message) (trace w').
Proof.
  intros Hd Hf He. unfold jam_init, load_table, read_dictlike, bind, lift,
    try_except, emit, ret. rewrite Hd, Hf, He. cbn [trace ledger].
  destruct (existsb truthy [a_ID a; a_numax a; a_dnu a; a_teff a; a_bp_rp a]);
    cbn; eexists; (split; [reflexivity|]); cbn;
    rewrite ?in_app_iff; cbn; auto.
Qed.

(** C10. With a [dictlike] that is none of dict, record array, DataFrame or
    str, and an [ID] that is None or otherwise false, neither branch of the
    constructor binds [vardf]: line 124 reads an unbound local name and the
    construction ends with UnboundLocalError, a NameError.  Nothing was
    printed or written before. *)
Theorem unbound_table_without_dictlike_and_ID (a : @init_args F R) w :
  a_dictlike a = DictOther ->
  truthy (a_ID a) = false ->
  load_table E a w = (Ok None, w)
  /\ jam_init E a w = (Raise (UnboundLocalError "vardf"), w)
  /\ exn_type (UnboundLocalError "vardf") = "UnboundLocalError".
Proof.
  intros Hd Hid. unfold jam_init, load_table, bind, ret. rewrite Hd, Hid.
  auto.
Qed.

Lemma nyquist_check_warns st front nyq w :
  st_f st = (front ++ [nyq])%list ->
  fgtb E (fst (st_numax st)) nyq = true ->
  nyquist_check E st w =
  (Ok tt, mk_world (ledger w) (trace w ++ [Warn (nyquist_message (st_ID st))])).
Proof.
  intros Hf Hg. unfold nyquist_check. rewrite Hf, rev_app_distr. cbn [rev app].
  rewrite Hg. reflexivity.
Qed.

Lemma nyquist_check_trace st w res w' ev :
  nyquist_check E st w = (res, w') -> In ev (trace w) -> In ev (trace w').
Proof.
  unfold nyquist_check, raise, emit, ret. intros H Hin.
  destruct (rev (st_f st)) as [|nyq l]; [inversion H; now subst|].
  destruct (fgtb E (fst (st_numax st)) nyq); inversion H; subst; [|assumption].
  cbn. apply in_or_app. now left.
Qed.

Lemma nyquist_checks_trace sts w res w' ev :
  nyquist_checks E sts w = (res, w') -> In ev (trace w) -> In ev (trace w').
Proof.
  revert w. induction sts as [|st sts IH]; intros w H Hin.
  - inversion H; now subst.
  - cbn in H. unfold bind in H.
    destruct (nyquist_check E st w) as [[[]|e] w1] eqn:Hc.
    + eapply IH; [eassumption|]. eapply nyquist_check_trace; eassumption.
    + inversion H; subst. eapply nyquist_check_trace; eassumption.
Qed.

Lemma nyquist_checks_warn sts w w' st front nyq :
  nyquist_checks E sts w = (Ok tt, w') ->
  In st sts ->
  st_f st = (front ++ [nyq])%list ->
  fgtb E (fst (st_numax st)) nyq = true ->
  In (Warn (nyquist_message (st_ID st))) (trace w').
Proof.
  revert w. induction sts as [|s sts IH]; intros w H Hin Hf Hg; [destruct Hin|].
  cbn in H. unfold bind in H.
  destruct (nyquist_check E s w) as [[[]|e] w1] eqn:Hc; [|discriminate].
  destruct Hin as [->|Hin].
  - eapply nyquist_checks_trace; [eassumption|].
    erewrite nyquist_check_warns in Hc by eassumption.
    inversion Hc; subst. cbn. apply in_or_app. right. now left.
  - eapply IH; eassumption.
Qed.

Lemma jam_init_inv a w sess w' :
  jam_init E a w = (Ok sess, w') ->
  exists sts w0,
    stars sess = map Some sts /\ nyquist_checks E sts w0 = (Ok tt, w').
Proof.
  unfold jam_init, bind, ret, lift. intros H.
  destruct (load_table E a w) as [[vardf|e] w1]; [|discriminate].
  destruct (read_vardf vardf w1) as [[v|e] w2]; [|discriminate].
  destruct (lc_to_lk E v (a_download_dir a) (a_use_cached a) w2)
    as [[v1|e] w3]; [|discriminate].
  destruct (lk_to_pg E v1) as [v2|e]; [|discriminate].
  destruct (build_stars E v2 (a_path a) (seq 0 (List.length v2)) w3)
    as [[sts|e] w4]; [|discriminate].
  destruct (nyquist_checks E sts w4) as [[[]|e] w5] eqn:Hc; [|discriminate].
  inversion H; subst. cbn. eauto.
Qed.

(** *** The batch call *)

(** One turn of the loop on a star that was not released: the fit is
    called; when it raises, the message is printed and the ledger is
    written at the builtin [id]. *)
Lemma call_loop_cons args i st todo slots w :
  call_loop E args i (Some st :: todo) slots w =
  match fit E st args with
  | None =>
      call_loop E args (S i) todo (release_slot slots i)
        (mk_world (ledger w) (trace w ++ [Fit i (st_ID st)]))
  | Some ex =>
      call_loop E args (S i) todo slots
        (mk_world (ledger_at (ledger w) KBuiltin_id (exn_str ex))
           (trace w ++ [Fit i (st_ID st);
                        Printed (fit_failed_message (st_ID st) ex)]))
  end.
Proof.
  cbn [call_loop]. unfold bind, try_except, call_star, get_ID, emit,
    ledger_write, raise, ret, catch_all.
  destruct (fit E st args) as [ex|]; cbn [ledger trace]; [|reflexivity].
  cbn. rewrite <- app_assoc. reflexivity.
Qed.

(** The handler of the loop writes the ledger at the builtin [id] only. *)
Lemma call_loop_ledger args i todo slots w res w' s :
  call_loop E args i todo slots w = (res, w') ->
  ledger_get (ledger w') (KId s) = ledger_get (ledger w) (KId s).
Proof.
  revert i slots w. induction todo as [|[st|] todo IH]; intros i slots w H.
  - inversion H; now subst.
  - rewrite call_loop_cons in H.
    destruct (fit E st args) as [ex|]; apply IH in H; rewrite H; cbn [ledger].
    + apply ledger_get_at_other. discriminate.
    + reflexivity.
  - inversion H; now subst.
Qed.

Lemma call_loop_trace args i todo slots w res w' ev :
  call_loop E args i todo slots w = (res, w') ->
  In ev (trace w) -> In ev (trace w').
Proof.
  revert i slots w. induction todo as [|[st|] todo IH]; intros i slots w H Hin.
  - inversion H; now subst.
  - rewrite call_loop_cons in H.
    destruct (fit E st args) as [ex|]; apply IH in H; try assumption;
      cbn [trace]; apply in_or_app; now left.
  - inversion H; now subst.
Qed.

(** Over stars that were not released, the loop calls the fit of every one
    and ends normally. *)
Lemma call_loop_fits_all args i (sts : list star) slots w :
  exists slots' w',
    call_loop E args i (map Some sts) slots w = (Ok slots', w') /\
    forall j st, nth_error sts j = Some st -> In (Fit (i + j) (st_ID st)) (trace w').
Proof.
  revert i slots w. induction sts as [|s sts IH]; intros i slots w.
  - exists slots, w. split; [reflexivity|]. intros [|j] st H; discriminate.
  - cbn [map]. rewrite call_loop_cons.
    destruct (fit E s args) as [ex|];
      match goal with
      | |- context [call_loop E args (S i) (map Some sts) ?sl ?w1] =>
          destruct (IH (S i) sl w1) as [slots' [w' [Hl Hf]]]
      end;
      exists slots', w'; (split; [exact Hl|]);
      intros [|j] st Hj;
      try (replace (i + S j) with (S i + j) by lia; now apply Hf);
      cbn in Hj; inversion Hj; subst;
      (eapply call_loop_trace; [eassumption|]);
      rewrite Nat.add_0_r; cbn [trace]; apply in_or_app; right; now left.
Qed.

(** The text of a warning tells which star it is about. *)
Lemma nyquist_message_inj id id' :
  nyquist_message id' = nyquist_message id -> id' = id.
Proof.
  unfold nyquist_message. cbn [append]. intros H.
  repeat (injection H as H). exact H.
Qed.

(** C7. A star of a constructed session whose numax is above the last
    frequency of its axis: the constructor has emitted the warning of line
    142, whose text ends with the identifier of the star and is the text of
    the warning of no other identifier; its check ended normally, and a
    call of the session calls the fit of that star and ends normally. *)
Theorem numax_above_nyquist_warns_and_fits a w sess w1 st front nyq :
  jam_init E a w = (Ok sess, w1) ->
  In (Some st) (stars sess) ->
  st_f st = (front ++ [nyq])%list ->
  fgtb E (fst (st_numax st)) nyq = true ->
  In (Warn ("Input numax is greater than Nyquist frequeny for " ++ st_ID st))
     (trace w1)
  /\ (forall id', nyquist_message id' = nyquist_message (st_ID st) ->
                  id' = st_ID st)
  /\ (forall w0, nyquist_check E st w0 =
        (Ok tt, mk_world (ledger w0)
                  (trace w0 ++
                   [Warn ("Input numax is greater than Nyquist frequeny for "
                          ++ st_ID st)])))
  /\ (forall args w2, exists sess' w3 slot,
        jam_call E sess args w2 = (Ok sess', w3) /\
        In (Fit slot (st_ID st)) (trace w3)).
Proof.
  intros H Hin Hf Hg. apply jam_init_inv in H.
  destruct H as [sts [w0 [Hs Hc]]]. rewrite Hs in Hin.
  apply in_map_iff in Hin. destruct Hin as [st' [Heq Hin]].
  inversion Heq; subst st'.
  change ("Input numax is greater than Nyquist frequeny for " ++ st_ID st)
    with (nyquist_message (st_ID st)).
  split; [|split; [|split]].
  - eapply nyquist_checks_warn; eassumption.
  - intros id'. apply nyquist_message_inj.
  - intros w2. eapply nyquist_check_warns; eassumption.
  - intros args w2. unfold jam_call, bind, ret. rewrite Hs.
    destruct (call_loop_fits_all args 0 sts (map Some sts) w2)
      as [slots' [w3 [Hl Hfit]]].
    rewrite Hl. apply In_nth_error in Hin. destruct Hin as [j Hj].
    exists (mk_session slots' (Some (model_type args))), w3, j.
    split; [reflexivity|]. now apply (Hfit j st).
Qed.

End Driver.

(** * Runs in the concrete environment *)

(** C1. Five stars, the fit of the third raises.  The five fits are called
    and the call returns; the message that is printed names KIC3, the type
    and the arguments of the exception.  The one entry of the ledger is
    under the builtin [id], not under the identifier of the star: the
    ledger has nothing for KIC3. *)
Theorem fit_failure_written_at_builtin_id :
  snd (jam_call Sample.E Sample.five Sample.args world0) =
    mk_world
      [(KBuiltin_id, "fit did not converge")]
      [Fit 0 "KIC1"; Fit 1 "KIC2"; Fit 2 "KIC3";
       Printed (fit_failed_message "KIC3" Sample.not_converged);
       Fit 3 "KIC4"; Fit 4 "KIC5"]
  /\ ledger_get (ledger (snd (jam_call Sample.E Sample.five Sample.args world0)))
       (KId "KIC3") = None
  /\ (exists s, fst (jam_call Sample.E Sample.five Sample.args world0) = Ok s).
Proof.
  split; [vm_compute; reflexivity|].
  split; [vm_compute; reflexivity|].
  eexists. vm_compute. reflexivity.
Qed.

(** C3. Records that [from_records] refuses with a TypeError: the message
    is printed, and the constructor then raises UnboundLocalError - the
    error escapes to the caller. *)
Theorem unconvertible_records_escape_as_unbound_local :
  jam_init Sample.E (Sample.init (DictRecords 0)) world0 =
  (Raise (UnboundLocalError "vardf"),
   mk_world [] [Printed unrecognized_message]).
Proof. vm_compute. reflexivity. Qed.

(** C8. A time-series cell that holds a float: it is not a string, it is
    true and it is not a light curve.  The probe of [__module__] raises
    AttributeError before line 70 is reached; the error is not the
    TypeError of the unsupported series.  The batch is aborted and the
    ledger is empty. *)
Theorem float_series_raises_attribute_error :
  lc_to_lk Sample.E (range_frame [Sample.a_row "KIC9" 30 Sample.a_float PyNone])
    Sample.cache false world0 =
  (Raise (AttributeError "float" "__module__"), world0)
  /\ is_instance "TypeError" (AttributeError "float" "__module__") = false
  /\ AttributeError "float" "__module__" <> TypeError unsupported_message.
Proof.
  split; [vm_compute; reflexivity|].
  split; [vm_compute; reflexivity|].
  discriminate.
Qed.

Lemma Zleb_total (a b : Z) : Z.leb a b = true \/ Z.leb b a = true.
Proof.
  destruct (Z.leb a b) eqn:H; [now left|right].
  apply Z.leb_gt in H. apply Z.leb_le. lia.
Qed.

Lemma three_distinct : NoDup (map ID Sample.three).
Proof.
  cbn. repeat constructor; cbn; intuition discriminate.
Qed.

(** The second row of [Sample.three] has nothing to resolve and its query
    fails. *)
Lemma fetch_failure_is_isolated_witness :
  (forall ids df w,
     loc_opt df 1 = Some (Sample.a_row "KIC2" 30 PyNone PyNone) ->
     lc_to_lk_loop Sample.E Sample.cache false 1 ("KIC2" :: ids) df w =
     lc_to_lk_loop Sample.E Sample.cache false 2 ids (drop df 1)
       (mk_world (ledger_at (ledger w) (KId "KIC2") "no data found")
          (trace w ++ [Query 1 "KIC2";
                       Printed (query_failed_message "KIC2" Sample.no_data)])))
  /\ (forall (df : @frame Z) l, l <> 1 -> loc_opt (drop df 1) l = loc_opt df l)
  /\ (forall w out w',
        ledger_count (ledger w) (KId "KIC2") <= 1 ->
        lc_to_lk Sample.E (range_frame Sample.three) Sample.cache false w = (Ok out, w') ->
        ledger_get (ledger w') (KId "KIC2") = Some "no data found"
        /\ ledger_count (ledger w') (KId "KIC2") = 1
        /\ (forall r', In r' (rows out) -> index r' <> Some 1 /\ ID r' <> "KIC2")).
Proof.
  apply (fetch_failure_is_isolated Sample.E Sample.three 1
           (Sample.a_row "KIC2" 30 PyNone PyNone) Sample.no_data Sample.cache false).
  - reflexivity.
  - reflexivity.
  - reflexivity.
  - reflexivity.
  - reflexivity.
  - exact three_distinct.
Defined.

Lemma lc_to_lk_keeps_order_and_reindexes_witness :
  lc_to_lk Sample.E (range_frame Sample.three) Sample.cache false world0 =
    (Ok (fst Sample.resolved), snd Sample.resolved)
  /\ (exists dropped,
        map (fun r => (index r, ID r)) (rows (fst Sample.resolved)) =
        map (fun q => (Some (fst q), snd q))
            (filter (kept dropped) (keys (range_frame Sample.three))))
  /\ labels (fst Sample.resolved) = seq 0 (List.length (fst Sample.resolved))
  /\ (forall p, loc_opt (fst Sample.resolved) p =
                nth_error (rows (fst Sample.resolved)) p).
Proof.
  split; [vm_compute; reflexivity|].
  apply (lc_to_lk_keeps_order_and_reindexes Sample.E (range_frame Sample.three)
           Sample.cache false world0 (fst Sample.resolved) (snd Sample.resolved)).
  vm_compute. reflexivity.
Defined.

(** The first row of [Sample.three] names the file [lc.txt], whose rows are
    out of order. *)
Lemma file_series_offset_and_sorted_witness :
  (forall a b, Z.leb a b = true \/ Z.leb b a = true)
  /\ lc_to_lk Sample.E (range_frame Sample.three) Sample.cache false world0 =
       (Ok (fst Sample.resolved), snd Sample.resolved)
  /\ tinyoffset = 1%Z
  /\ exists r' lc,
       In r' (rows (fst Sample.resolved)) /\ index r' = Some 0 /\
       ID r' = "KIC1" /\
       timeseries r' = PyLightCurve lc /\
       samples lc = sort_samples Sample.E (add_offset Sample.E Sample.lc_txt) /\
       Permutation (samples lc) (add_offset Sample.E Sample.lc_txt) /\
       Permutation (lc_flux lc)
         (map (fun d => (d + 1)%Z) (map snd Sample.lc_txt)) /\
       Sorted (time_le Sample.E) (samples lc) /\
       (Sorted (time_le Sample.E) Sample.lc_txt ->
          lc_time lc = map fst Sample.lc_txt /\
          lc_flux lc = map (fun d => (d + 1)%Z) (map snd Sample.lc_txt)).
Proof.
  split; [exact Zleb_total|].
  split; [vm_compute; reflexivity|].
  apply (file_series_offset_and_sorted Sample.E Sample.three 0
           (Sample.a_row "KIC1" 30 (PyStr "lc.txt") PyNone) "lc.txt"
           Sample.lc_txt Sample.cache false world0
           (fst Sample.resolved) (snd Sample.resolved)).
  - reflexivity.
  - reflexivity.
  - reflexivity.
  - exact Zleb_total.
  - vm_compute. reflexivity.
Defined.

(** The third row of [Sample.three] holds a spectrum. *)
Lemma no_fetch_when_psd_present_witness :
  truthy (psd (Sample.a_row "KIC3" 70 PyNone Sample.spectrum)) = true
  /\ lc_to_lk Sample.E (range_frame Sample.three) Sample.cache false world0 =
       (Ok (fst Sample.resolved), snd Sample.resolved)
  /\ forall id, In (Query 2 id) (trace (snd Sample.resolved)) ->
                In (Query 2 id) (trace world0).
Proof.
  split; [reflexivity|].
  split; [vm_compute; reflexivity|].
  apply (no_fetch_when_psd_present Sample.E Sample.three 2
           (Sample.a_row "KIC3" 70 PyNone Sample.spectrum) Sample.cache false
           world0 (Ok (fst Sample.resolved)) (snd Sample.resolved)).
  - reflexivity.
  - reflexivity.
  - vm_compute. reflexivity.
Defined.

(** The star KIC3 of the session built from the input file: numax 70 is
    above the last frequency, 50. *)
Lemma numax_above_nyquist_warns_and_fits_witness :
  jam_init Sample.E (Sample.init (DictPath "in.csv")) world0 =
    (Ok (fst Sample.built), snd Sample.built)
  /\ In (Some Sample.star3) (stars (fst Sample.built))
  /\ In (Warn "Input numax is greater than Nyquist frequeny for KIC3")
        (trace (snd Sample.built))
  /\ (forall id', nyquist_message id' = nyquist_message "KIC3" -> id' = "KIC3")
  /\ (forall w0, nyquist_check Sample.E Sample.star3 w0 =
        (Ok tt, mk_world (ledger w0)
                  (trace w0 ++
                   [Warn "Input numax is greater than Nyquist frequeny for KIC3"])))
  /\ (forall args w2, exists sess' w3 slot,
        jam_call Sample.E (fst Sample.built) args w2 = (Ok sess', w3) /\
        In (Fit slot "KIC3") (trace w3)).
Proof.
  split; [vm_compute; reflexivity|].
  split; [vm_compute; auto|].
  apply (numax_above_nyquist_warns_and_fits Sample.E
           (Sample.init (DictPath "in.csv")) world0
           (fst Sample.built) (snd Sample.built) Sample.star3 [10; 20]%Z 50%Z).
  - vm_compute. reflexivity.
  - vm_compute. auto.
  - reflexivity.
  - reflexivity.
Defined.

(** The second row of [Sample.broken] names a file that does not exist;
    the query of the first row has failed before. *)
Lemma file_load_failure_aborts_batch_witness :
  lc_to_lk_loop Sample.E Sample.cache false 0 (map ID (firstn 1 Sample.broken))
    (range_frame Sample.broken) world0 =
    (Ok (fst Sample.broken_before), snd Sample.broken_before)
  /\ lc_to_lk Sample.E (range_frame Sample.broken) Sample.cache false world0 =
       (Raise Sample.no_file, snd Sample.broken_before)
  /\ (NoDup (map ID Sample.broken) ->
      ledger_get (ledger (snd Sample.broken_before)) (KId "KIC7") =
      ledger_get (ledger world0) (KId "KIC7")).
Proof.
  split; [vm_compute; reflexivity|].
  apply (file_load_failure_aborts_batch Sample.E Sample.broken 1
           (Sample.a_row "KIC7" 30 (PyStr "missing.txt") PyNone) "missing.txt"
           Sample.no_file Sample.cache false world0
           (fst Sample.broken_before) (snd Sample.broken_before)).
  - reflexivity.
  - reflexivity.
  - reflexivity.
  - vm_compute. reflexivity.
Defined.

(** No table and no identifier. *)
Lemma unbound_table_without_dictlike_and_ID_witness :
  load_table Sample.E (Sample.init DictOther) world0 = (Ok None, world0)
  /\ jam_init Sample.E (Sample.init DictOther) world0 =
       (Raise (UnboundLocalError "vardf"), world0)
  /\ exn_type (UnboundLocalError "vardf") = "UnboundLocalError".
Proof.
  apply (unbound_table_without_dictlike_and_ID Sample.E (Sample.init DictOther) world0).
  - reflexivity.
  - reflexivity.
Defined.

(** * Further properties of the resolver *)

Section ResolverMore.

Context {F R : Type} (E : @env F R).
Implicit Types (df : @frame F) (r : @row F) (v : @pyvalue F) (w : world).

(** Every case of a turn, read as a fact about its result. *)
Ltac step_inv H :=
  match type of H with
  | lc_to_lk_step ?E ?dd ?uc ?k ?id ?df ?w = _ =>
      let C := fresh "C" in
      pose proof (step_cases E dd uc k id df w) as C;
      rewrite H in C; inversion C; subst; clear C
  end.

(** *** The first position must be a label *)

(** X6. The loop looks rows up by position: on a table that is not empty and
    has no row labelled 0 (an index that is not a RangeIndex), [lc_to_lk]
    raises KeyError at its first turn and has done nothing before. *)
Theorem lc_to_lk_needs_label_zero df dd uc w :
  df <> [] ->
  loc_opt df 0 = None ->
  lc_to_lk E df dd uc w = (Raise (KeyError 0), w).
Proof.
  intros Hne H0. unfold lc_to_lk, bind.
  destruct df as [|[l r] df]; [contradiction|].
  cbn [rows map]. rewrite loop_cons, step_missing by assumption. reflexivity.
Qed.

(** *** What the loop adds to the trace *)

Lemma step_trace_mono dd uc k id df w res w' ev :
  lc_to_lk_step E dd uc k id df w = (res, w') ->
  In ev (trace w) -> In ev (trace w').
Proof.
  intros H Hin. step_inv H; try assumption; cbn [trace];
    apply in_or_app; now left.
Qed.

Lemma loop_trace_mono dd uc k ids df w res w' ev :
  lc_to_lk_loop E dd uc k ids df w = (res, w') ->
  In ev (trace w) -> In ev (trace w').
Proof.
  revert k df w. induction ids as [|id ids IH]; intros k df w H Hin.
  - cbn in H. inversion H; now subst.
  - rewrite loop_cons in H.
    destruct (lc_to_lk_step E dd uc k id df w) as [[df1|e] w1] eqn:Hs.
    + eapply IH; [eassumption|]. eapply step_trace_mono; eassumption.
    + inversion H; subst. eapply step_trace_mono; eassumption.
Qed.

Lemma step_query_origin dd uc k id df w res w' i id' :
  lc_to_lk_step E dd uc k id df w = (res, w') ->
  In (Query i id') (trace w') ->
  In (Query i id') (trace w) \/
  (i = k /\ id' = id /\ exists r, loc_opt df k = Some r /\ nothing_to_resolve r).
Proof.
  intros H Hin. step_inv H; try (now left); cbn [trace] in Hin;
    apply in_app_or in Hin; (destruct Hin as [Hin|Hin]; [now left|]);
    cbn in Hin;
    repeat match goal with
    | H : _ \/ _ |- _ => destruct H
    | H : False |- _ => destruct H
    | H : Query _ _ = Query _ _ |- _ => inversion H; subst; clear H
    | H : Printed _ = Query _ _ |- _ => discriminate H
    end;
    right; (split; [reflexivity|]); (split; [reflexivity|]);
    eexists; (split; [eassumption|]);
    unfold nothing_to_resolve; auto.
Qed.

Lemma loop_query_origin dd uc k ids df w res w' i id :
  lc_to_lk_loop E dd uc k ids df w = (res, w') ->
  In (Query i id) (trace w') ->
  In (Query i id) (trace w) \/
  (k <= i /\ nth_error ids (i - k) = Some id /\
   exists r, loc_opt df i = Some r /\ nothing_to_resolve r).
Proof.
  revert k df w. induction ids as [|id0 ids IH]; intros k df w H Hin.
  - cbn in H. inversion H; subst. now left.
  - rewrite loop_cons in H.
    destruct (lc_to_lk_step E dd uc k id0 df w) as [[df1|e] w1] eqn:Hs.
    + destruct (IH _ _ _ H Hin) as [Hin1|[Hk [Hn [r [Hr Hc]]]]].
      * destruct (step_query_origin _ _ _ _ _ _ _ _ _ _ Hs Hin1)
          as [Hw|[-> [-> Hr]]]; [now left|right].
        split; [lia|]. rewrite Nat.sub_diag. split; [reflexivity|exact Hr].
      * right. split; [lia|].
        replace (i - k) with (S (i - S k)) by lia. split; [exact Hn|].
        exists r. split; [|exact Hc].
        rewrite <- Hr. symmetry. eapply step_loc_other; [eassumption|lia].
    + inversion H; subst.
      destruct (step_query_origin _ _ _ _ _ _ _ _ _ _ Hs Hin)
        as [Hw|[-> [-> Hr]]]; [now left|right].
      split; [lia|]. rewrite Nat.sub_diag. split; [reflexivity|exact Hr].
Qed.

(** X4. Every call of the archive query that [lc_to_lk] makes is for a row of
    the table, under the identifier of that row, and the row holds neither
    a string, nor a true time-series value, nor a true power spectrum. *)
Theorem queries_only_for_rows_with_nothing (rs : list row) dd uc w res w' i id :
  lc_to_lk E (range_frame rs) dd uc w = (res, w') ->
  In (Query i id) (trace w') ->
  In (Query i id) (trace w) \/
  exists r, nth_error rs i = Some r /\ ID r = id /\
            is_str (timeseries r) = false /\ truthy (timeseries r) = false /\
            truthy (psd r) = false.
Proof.
  intros H Hin. unfold lc_to_lk, bind, ret in H.
  destruct (lc_to_lk_loop E dd uc 0 (map ID (rows (range_frame rs)))
              (range_frame rs) w) as [[df'|e] w1] eqn:Hl;
    inversion H; subst; clear H;
    (destruct (loop_query_origin _ _ _ _ _ _ _ _ _ _ Hl Hin)
       as [Hw|[_ [Hn [r [Hr Hc]]]]]; [now left|right]);
    unfold range_frame in Hn at 1; rewrite rows_combine_seq, Nat.sub_0_r in Hn;
    rewrite loc_opt_range in Hr; exists r; (split; [exact Hr|]);
    (split; [|exact Hc]);
    rewrite (map_nth_error ID _ _ Hr) in Hn; now inversion Hn.
Qed.

(** *** Rows that resolve *)

Lemma loop_range_row (rs : list row) i r dd uc w df' w' :
  nth_error rs i = Some r ->
  lc_to_lk_loop E dd uc 0 (map ID (rows (range_frame rs))) (range_frame rs) w
    = (Ok df', w') ->
  exists df1 w1 df2 w2,
    loc_opt df1 i = Some r /\
    lc_to_lk_step E dd uc i (ID r) df1 w1 = (Ok df2, w2) /\
    loc_opt df' i = loc_opt df2 i /\
    (forall ev, In ev (trace w2) -> In ev (trace w')).
Proof.
  intros Hr H. rewrite (loop_range_split _ _ _ _ _ _ _ Hr) in H.
  destruct (lc_to_lk_loop E dd uc 0 (map ID (firstn i rs)) (range_frame rs) w)
    as [[df1|e] w1] eqn:Hpre; [|discriminate].
  rewrite loop_cons in H.
  destruct (lc_to_lk_step E dd uc i (ID r) df1 w1) as [[df2|e] w2] eqn:Hs;
    [|discriminate].
  exists df1, w1, df2, w2. split; [eapply loop_range_prefix; eassumption|].
  split; [exact Hs|]. split.
  - eapply loop_loc_other; [eassumption|left; lia].
  - intros ev. eapply loop_trace_mono; eassumption.
Qed.

Lemma reset_index_row df l r :
  loc_opt df l = Some r -> In (set_index r l) (rows (reset_index df)).
Proof.
  intros H. apply loc_opt_In in H. rewrite rows_reset_index.
  apply in_map_iff. exists (l, r). auto.
Qed.

Lemma same_columns_set r v l :
  same_columns r (set_index (set_timeseries r v) l).
Proof. unfold same_columns. cbn. repeat split. Qed.

(** X1. A row with an empty time-series cell and no power spectrum, whose
    archive query answers with a light curve: when [lc_to_lk] returns, the
    query is in the trace and the row is in the result, its other columns
    as they were, with that light curve sorted by timestamp. *)
Theorem fetched_series_is_stored_sorted (rs : list row) i r lc dd uc w out w' :
  nth_error rs i = Some r ->
  is_str (timeseries r) = false ->
  truthy (timeseries r) = false ->
  truthy (psd r) = false ->
  query_lightkurve E (ID r) dd uc (context r) = Ok lc ->
  lc_to_lk E (range_frame rs) dd uc w = (Ok out, w') ->
  In (Query i (ID r)) (trace w') /\
  exists r', In r' (rows out) /\ index r' = Some i /\ same_columns r r' /\
             timeseries r' = PyLightCurve (sort_lc E lc).
Proof.
  intros Hr Hs Ht Hp Hq H. apply lc_to_lk_inv in H. destruct H as [df' [H ->]].
  destruct (loop_range_row _ _ _ _ _ _ _ _ Hr H)
    as [df1 [w1 [df2 [w2 [Hdf1 [Hstep [Hloc Htr]]]]]]].
  erewrite step_fetch_ok in Hstep by eassumption.
  inversion Hstep; subst; clear Hstep. split.
  - apply Htr. cbn. apply in_or_app. right. now left.
  - rewrite loc_opt_at_same, Hdf1 in Hloc. cbn [option_map] in Hloc.
    exists (set_index (set_timeseries r (PyLightCurve (sort_lc E lc))) i).
    split; [now apply reset_index_row|].
    split; [reflexivity|]. split; [apply same_columns_set|reflexivity].
Qed.

(** X2. A row whose time-series cell holds a light curve with samples: no
    archive query is made for it, and when [lc_to_lk] returns the row is in
    the result with the same light curve, sorted by timestamp. *)
Theorem light_curve_cell_is_kept_and_sorted (rs : list row) i r lc dd uc w out w' :
  nth_error rs i = Some r ->
  timeseries r = PyLightCurve lc ->
  samples lc <> [] ->
  lc_to_lk E (range_frame rs) dd uc w = (Ok out, w') ->
  (forall id, In (Query i id) (trace w') -> In (Query i id) (trace w)) /\
  exists r', In r' (rows out) /\ index r' = Some i /\ same_columns r r' /\
             timeseries r' = PyLightCurve (sort_lc E lc).
Proof.
  intros Hr Hts Hne H.
  assert (Ht : truthy (timeseries r) = true).
  { rewrite Hts. cbn. destruct (samples lc); [contradiction|reflexivity]. }
  split.
  - intros id Hin. unfold lc_to_lk, bind, ret in H.
    destruct (lc_to_lk_loop E dd uc 0 (map ID (rows (range_frame rs)))
                (range_frame rs) w) as [[df'|e] w1] eqn:Hl; [|discriminate].
    inversion H; subst; clear H.
    destruct (loop_query_origin _ _ _ _ _ _ _ _ _ _ Hl Hin)
      as [Hw|[_ [_ [r0 [Hr0 [_ [Hf _]]]]]]]; [assumption|].
    rewrite loc_opt_range, Hr in Hr0. inversion Hr0; subst. congruence.
  - apply lc_to_lk_inv in H. destruct H as [df' [H ->]].
    destruct (loop_range_row _ _ _ _ _ _ _ _ Hr H)
      as [df1 [w1 [df2 [w2 [Hdf1 [Hstep [Hloc Htr]]]]]]].
    erewrite step_accept in Hstep;
      [|eassumption|rewrite Hts; reflexivity|assumption|rewrite Hts; reflexivity].
    inversion Hstep; subst; clear Hstep.
    rewrite loc_opt_at_same, Hdf1, Hts in Hloc. cbn [option_map sort_cell] in Hloc.
    exists (set_index (set_timeseries r (PyLightCurve (sort_lc E lc))) i).
    split; [now apply reset_index_row|].
    split; [reflexivity|]. split; [apply same_columns_set|reflexivity].
Qed.

(** *** The resolver writes one column *)

Lemma same_columns_refl r : same_columns r r.
Proof. unfold same_columns. repeat split. Qed.

Lemma same_columns_trans r1 r2 r3 :
  same_columns r1 r2 -> same_columns r2 r3 -> same_columns r1 r3.
Proof. unfold same_columns. intuition congruence. Qed.

Lemma step_columns dd uc k id df w df' w' l r' :
  lc_to_lk_step E dd uc k id df w = (Ok df', w') ->
  In (l, r') df' ->
  exists r, In (l, r) df /\ same_columns r r' /\ index r' = index r.
Proof.
  intros H Hin. apply step_frame in H. destruct H as [->|[->|[v ->]]].
  - exists r'. auto using same_columns_refl.
  - apply filter_In in Hin. destruct Hin as [Hin _].
    exists r'. auto using same_columns_refl.
  - unfold at_timeseries in Hin. apply in_map_iff in Hin.
    destruct Hin as [[l0 r0] [Heq Hin]].
    destruct (has_label k (l0, r0)); cbn [fst snd] in Heq;
      injection Heq as Hl Hr'; subst l r'; exists r0.
    + split; [assumption|]. split; [|reflexivity].
      unfold same_columns. cbn. repeat split.
    + auto using same_columns_refl.
Qed.

Lemma loop_columns dd uc k ids df w df' w' l r' :
  lc_to_lk_loop E dd uc k ids df w = (Ok df', w') ->
  In (l, r') df' ->
  exists r, In (l, r) df /\ same_columns r r' /\ index r' = index r.
Proof.
  revert k df w. induction ids as [|id ids IH]; intros k df w H Hin.
  - cbn in H. inversion H; subst. exists r'. auto using same_columns_refl.
  - rewrite loop_cons in H.
    destruct (lc_to_lk_step E dd uc k id df w) as [[df1|e] w1] eqn:Hs; [|discriminate].
    destruct (IH _ _ _ H Hin) as [r1 [Hin1 [Hc1 Hi1]]].
    destruct (step_columns _ _ _ _ _ _ _ _ _ _ Hs Hin1) as [r [Hin0 [Hc0 Hi0]]].
    exists r. split; [assumption|]. split; [|congruence].
    eapply same_columns_trans; eassumption.
Qed.

(** X3. [lc_to_lk] writes the column [timeseries] only: every row of its
    result is a row of the input table, found under the label kept in its
    column [index], with the same identifier, stellar parameters, power
    spectrum and observation context. *)
Theorem lc_to_lk_writes_timeseries_only (rs : list row) dd uc w out w' r' :
  lc_to_lk E (range_frame rs) dd uc w = (Ok out, w') ->
  In r' (rows out) ->
  exists l r, index r' = Some l /\ nth_error rs l = Some r /\ same_columns r r'.
Proof.
  intros H Hin. apply lc_to_lk_inv in H. destruct H as [df' [H ->]].
  rewrite rows_reset_index in Hin. apply in_map_iff in Hin.
  destruct Hin as [[l r1] [<- Hin]]. cbn [fst snd].
  destruct (loop_columns _ _ _ _ _ _ _ _ _ _ H Hin) as [r [Hin0 [Hc _]]].
  exists l, r. split; [reflexivity|]. split.
  - unfold range_frame in Hin0. apply In_combine_seq in Hin0.
    destruct Hin0 as [p [-> Hp]]. exact Hp.
  - unfold same_columns in *. cbn. exact Hc.
Qed.

(** *** When no query fails *)

Lemma step_no_failure dd uc k id df w df' w' :
  (forall id D, exists lc, query_lightkurve E id dd uc D = Ok lc) ->
  lc_to_lk_step E dd uc k id df w = (Ok df', w') ->
  keys df' = keys df /\ ledger w' = ledger w.
Proof.
  intros Hq H. step_inv H; rewrite ?keys_at; auto.
  match goal with
  | Hf : query_lightkurve E ?id ?dd ?uc ?D = Raise _ |- _ =>
      destruct (Hq id D) as [lc Hlc]; congruence
  end.
Qed.

Lemma step_ledger_on_raise dd uc k id df w e w' :
  lc_to_lk_step E dd uc k id df w = (Raise e, w') -> w' = w.
Proof. intros H. step_inv H; reflexivity. Qed.

Lemma loop_no_failure dd uc k ids df w df' w' :
  (forall id D, exists lc, query_lightkurve E id dd uc D = Ok lc) ->
  lc_to_lk_loop E dd uc k ids df w = (Ok df', w') ->
  keys df' = keys df /\ ledger w' = ledger w.
Proof.
  intros Hq. revert k df w. induction ids as [|id ids IH]; intros k df w H.
  - cbn in H. inversion H; subst. auto.
  - rewrite loop_cons in H.
    destruct (lc_to_lk_step E dd uc k id df w) as [[df1|e] w1] eqn:Hs; [|discriminate].
    destruct (IH _ _ _ H) as [-> ->]. eapply step_no_failure; eassumption.
Qed.

Lemma rows_ID_keys df : map ID (rows df) = map snd (keys df).
Proof. unfold rows, keys. rewrite !map_map. reflexivity. Qed.

Lemma labels_keys df : labels df = map fst (keys df).
Proof. unfold labels, keys. rewrite map_map. reflexivity. Qed.

Lemma reset_index_ID df : map ID (rows (reset_index df)) = map ID (rows df).
Proof. rewrite rows_reset_index. unfold rows. rewrite !map_map. reflexivity. Qed.

Lemma reset_index_index df :
  map index (rows (reset_index df)) = map Some (labels df).
Proof. rewrite rows_reset_index. unfold labels. rewrite !map_map. reflexivity. Qed.

(** X5. When the archive query does not raise, [lc_to_lk] drops no row and
    writes nothing in the ledger: the result has the rows of the input, by
    identifier and by old label, in the same order. *)
Theorem no_failed_query_no_dropped_row df dd uc w out w' :
  (forall id D, exists lc, query_lightkurve E id dd uc D = Ok lc) ->
  lc_to_lk E df dd uc w = (Ok out, w') ->
  List.length out = List.length df /\
  map ID (rows out) = map ID (rows df) /\
  map index (rows out) = map Some (labels df) /\
  ledger w' = ledger w.
Proof.
  intros Hq H. apply lc_to_lk_inv in H. destruct H as [df' [H ->]].
  destruct (loop_no_failure _ _ _ _ _ _ _ _ Hq H) as [Hk Hl].
  split; [|split; [|split; [|exact Hl]]].
  - rewrite length_reset_index.
    rewrite <- (length_map fst df'), <- (length_map fst df).
    fold (labels df') (labels df). now rewrite !labels_keys, Hk.
  - now rewrite reset_index_ID, !rows_ID_keys, Hk.
  - now rewrite reset_index_index, !labels_keys, Hk.
Qed.

(** *** The ledger under the resolver *)

Lemma ledger_count_at_le L k k' m :
  ledger_count L k <= 1 -> ledger_count (ledger_at L k' m) k <= 1.
Proof.
  intros H. destruct (ledger_key_eqb k k') eqn:He.
  - apply ledger_key_eqb_eq in He. subst k'. rewrite ledger_count_at_same. lia.
  - rewrite ledger_count_at_other; [assumption|].
    intros ->. now rewrite ledger_key_eqb_refl in He.
Qed.

Lemma ledger_get_at_kept L k k' m m0 :
  ledger_get L k = Some m0 -> exists m1, ledger_get (ledger_at L k' m) k = Some m1.
Proof.
  intros H. destruct (ledger_key_eqb k k') eqn:He.
  - apply ledger_key_eqb_eq in He. subst k'. rewrite ledger_get_at_same. eauto.
  - rewrite ledger_get_at_other; [eauto|].
    intros ->. now rewrite ledger_key_eqb_refl in He.
Qed.

Lemma step_ledger_inv dd uc k id df w res w' key :
  lc_to_lk_step E dd uc k id df w = (res, w') ->
  (ledger_count (ledger w) key <= 1 -> ledger_count (ledger w') key <= 1) /\
  (forall m, ledger_get (ledger w) key = Some m ->
             exists m', ledger_get (ledger w') key = Some m').
Proof.
  intros H. step_inv H; cbn [ledger]; try (split; eauto; fail).
  split; [apply ledger_count_at_le|intros m; apply ledger_get_at_kept].
Qed.

Lemma loop_ledger_inv dd uc k ids df w res w' key :
  lc_to_lk_loop E dd uc k ids df w = (res, w') ->
  (ledger_count (ledger w) key <= 1 -> ledger_count (ledger w') key <= 1) /\
  (forall m, ledger_get (ledger w) key = Some m ->
             exists m', ledger_get (ledger w') key = Some m').
Proof.
  revert k df w. induction ids as [|id ids IH]; intros k df w H.
  - cbn in H. inversion H; subst. eauto.
  - rewrite loop_cons in H.
    destruct (lc_to_lk_step E dd uc k id df w) as [[df1|e] w1] eqn:Hs.
    + destruct (IH _ _ _ H) as [Hc Hg].
      destruct (step_ledger_inv _ _ _ _ _ _ _ _ key Hs) as [Hc0 Hg0].
      split; [auto|]. intros m Hm. destruct (Hg0 _ Hm) as [m1 Hm1]. eauto.
    + inversion H; subst. eapply step_ledger_inv; eassumption.
Qed.

Lemma lc_to_lk_world df dd uc w res w' :
  lc_to_lk E df dd uc w = (res, w') ->
  exists res0, lc_to_lk_loop E dd uc 0 (map ID (rows df)) df w = (res0, w').
Proof.
  unfold lc_to_lk, bind, ret. intros H.
  destruct (lc_to_lk_loop E dd uc 0 (map ID (rows df)) df w) as [[df'|e] w1];
    inversion H; subst; eauto.
Qed.

(** X7. What [lc_to_lk] does to the ledger, whether it returns or raises: a
    key that had at most one entry has at most one after, a key that had an
    entry has one after, and a key that is not the identifier of a row of
    the table keeps its message. *)
Theorem lc_to_lk_keeps_ledger_entries df dd uc w res w' key :
  lc_to_lk E df dd uc w = (res, w') ->
  (ledger_count (ledger w) key <= 1 -> ledger_count (ledger w') key <= 1) /\
  (forall m, ledger_get (ledger w) key = Some m ->
             exists m', ledger_get (ledger w') key = Some m') /\
  ((forall r, In r (rows df) -> key <> KId (ID r)) ->
   ledger_get (ledger w') key = ledger_get (ledger w) key).
Proof.
  intros H. apply lc_to_lk_world in H. destruct H as [res0 H].
  destruct (loop_ledger_inv _ _ _ _ _ _ _ _ key H) as [Hc Hg].
  split; [exact Hc|]. split; [exact Hg|].
  intros Hn. eapply loop_ledger_other; [eassumption|].
  intros id Hin. apply in_map_iff in Hin. destruct Hin as [r [<- Hin]]. auto.
Qed.

(** *** One message per dropped row *)

Lemma labels_at df k v : labels (at_timeseries df k v) = labels df.
Proof. rewrite !labels_keys. now rewrite keys_at. Qed.

Lemma labels_drop df k :
  labels (drop df k) = filter (fun l => negb (Nat.eqb l k)) (labels df).
Proof.
  unfold labels, drop. induction df as [|p df IH]; [reflexivity|].
  cbn [filter map]. unfold has_label at 1.
  destruct (Nat.eqb (fst p) k); cbn [negb map]; now rewrite IH.
Qed.

Lemma drop_absent df k : ~ In k (labels df) -> drop df k = df.
Proof.
  unfold labels, drop. induction df as [|p df IH]; intros Hn; [reflexivity|].
  cbn [filter]. destruct (has_label k p) eqn:Hk.
  - apply has_label_true in Hk. exfalso. apply Hn. now left.
  - cbn [negb]. rewrite IH; [reflexivity|]. intros Hin. apply Hn. now right.
Qed.

Lemma length_drop df k r :
  NoDup (labels df) -> loc_opt df k = Some r ->
  S (List.length (drop df k)) = List.length df.
Proof.
  unfold loc_opt. induction df as [|p df IH]; intros Hnd Hr; [discriminate|].
  cbn [labels map] in Hnd. inversion Hnd as [|x l Hx Hnd']; subst.
  cbn [find] in Hr. unfold drop. cbn [filter].
  destruct (has_label k p) eqn:Hk; cbn [negb].
  - apply has_label_true in Hk. subst k.
    fold (drop df (fst p)). rewrite drop_absent by assumption. reflexivity.
  - fold (drop df k). cbn [List.length]. f_equal. now apply IH.
Qed.

Lemma step_labels_nodup dd uc k id df w df' w' :
  lc_to_lk_step E dd uc k id df w = (Ok df', w') ->
  NoDup (labels df) -> NoDup (labels df').
Proof.
  intros H Hnd. apply step_frame in H. destruct H as [->|[->|[v ->]]].
  - assumption.
  - rewrite labels_drop. now apply NoDup_filter.
  - now rewrite labels_at.
Qed.

Lemma step_account dd uc k id df w df' w' :
  NoDup (labels df) ->
  lc_to_lk_step E dd uc k id df w = (Ok df', w') ->
  List.length df' + printed w' = List.length df + printed w.
Proof.
  intros Hnd H. unfold printed.
  step_inv H; cbn [trace];
    rewrite ?filter_app, ?length_app; cbn [filter is_Printed List.length];
    unfold at_timeseries; rewrite ?length_map; try lia.
  match goal with
  | Hr : loc_opt df k = Some _ |- _ => pose proof (length_drop _ _ _ Hnd Hr)
  end. lia.
Qed.

Lemma loop_account dd uc k ids df w df' w' :
  NoDup (labels df) ->
  lc_to_lk_loop E dd uc k ids df w = (Ok df', w') ->
  List.length df' + printed w' = List.length df + printed w.
Proof.
  revert k df w. induction ids as [|id ids IH]; intros k df w Hnd H.
  - cbn in H. inversion H; now subst.
  - rewrite loop_cons in H.
    destruct (lc_to_lk_step E dd uc k id df w) as [[df1|e] w1] eqn:Hs; [|discriminate].
    rewrite (IH _ _ _ (step_labels_nodup _ _ _ _ _ _ _ _ Hs Hnd) H).
    now apply step_account with (dd:=dd) (uc:=uc) (k:=k) (id:=id).
Qed.

(** X8. On a table with distinct labels, [lc_to_lk] prints exactly one
    message per row it drops: the rows of the result and the messages
    printed add up to the rows of the input. *)
Theorem one_message_per_dropped_row df dd uc w out w' :
  NoDup (labels df) ->
  lc_to_lk E df dd uc w = (Ok out, w') ->
  List.length out + List.length (filter is_Printed (trace w')) =
  List.length df + List.length (filter is_Printed (trace w)).
Proof.
  intros Hnd H. apply lc_to_lk_inv in H. destruct H as [df' [H ->]].
  rewrite length_reset_index. now apply (loop_account _ _ _ _ _ _ _ _ Hnd H).
Qed.

End ResolverMore.

(** * Further properties of the batch call *)

Section DriverMore.

Context {F R : Type} (E : @env F R).
Implicit Types (st : @star F) (w : world).

Lemma release_slot_app (pre : list (option (@star F))) x rest :
  release_slot (pre ++ x :: rest) (List.length pre) = (pre ++ None :: rest)%list.
Proof. induction pre as [|p pre IH]; cbn; [reflexivity|now rewrite IH]. Qed.

(** The loop over stars that were not released, in full. *)
Lemma call_loop_spec args (sts : list star) :
  forall (pre : list (option star)) w,
  exists w' evs,
    call_loop E args (List.length pre) (map Some sts) (pre ++ map Some sts) w =
      (Ok (pre ++ map (slot_after E args) sts)%list, w') /\
    trace w' = (trace w ++ evs)%list /\
    filter is_Fit evs = fits_from (List.length pre) sts /\
    Forall fit_or_message evs /\
    List.length (filter is_Printed evs) = List.length (filter (fails E args) sts) /\
    (forall st ex, In st sts -> fit E st args = Some ex ->
                   In (Printed (fit_failed_message (st_ID st) ex)) evs) /\
    (filter (fails E args) sts = [] -> ledger w' = ledger w).
Proof.
  induction sts as [|s sts IH]; intros pre w.
  - exists w, []. cbn. rewrite !app_nil_r. repeat split; try reflexivity.
    + constructor.
    + intros st ex [].
  - cbn [map filter]. rewrite call_loop_cons.
    destruct (fit E s args) as [ex|] eqn:Hfit.
    + assert (Hslot : slot_after E args s = Some s)
        by (unfold slot_after; now rewrite Hfit).
      assert (Hfails : fails E args s = true) by (unfold fails; now rewrite Hfit).
      rewrite Hslot, Hfails.
      specialize (IH (pre ++ [Some s])%list
        (mk_world (ledger_at (ledger w) KBuiltin_id (exn_str ex))
           (trace w ++ [Fit (List.length pre) (st_ID s);
                        Printed (fit_failed_message (st_ID s) ex)]))).
      rewrite length_app, Nat.add_1_r, <- !app_assoc in IH. cbn [app] in IH.
      destruct IH as [w' [evs [Hl [Htr [Hf [Hq [Hp [Hm Hled]]]]]]]].
      exists w', ([Fit (List.length pre) (st_ID s);
                   Printed (fit_failed_message (st_ID s) ex)] ++ evs)%list.
      split; [exact Hl|]. cbn [trace] in Htr.
      split; [rewrite Htr, <- app_assoc; reflexivity|].
      cbn [app filter is_Fit is_Query is_Printed fits_from List.length].
      split; [now rewrite Hf|].
      split; [constructor; [now left|]; constructor; [now right|exact Hq]|].
      split; [now rewrite Hp|].
      split; [|discriminate].
      intros st ex' [<-|Hin] Hex.
      * rewrite Hfit in Hex. inversion Hex; subst. right. now left.
      * right. right. eapply Hm; eassumption.
    + assert (Hslot : slot_after E args s = None)
        by (unfold slot_after; now rewrite Hfit).
      assert (Hfails : fails E args s = false) by (unfold fails; now rewrite Hfit).
      rewrite Hslot, Hfails.
      specialize (IH (pre ++ [None])%list
        (mk_world (ledger w) (trace w ++ [Fit (List.length pre) (st_ID s)]))).
      rewrite length_app, Nat.add_1_r, <- !app_assoc in IH. cbn [app] in IH.
      rewrite release_slot_app.
      destruct IH as [w' [evs [Hl [Htr [Hf [Hq [Hp [Hm Hled]]]]]]]].
      exists w', ([Fit (List.length pre) (st_ID s)] ++ evs)%list.
      split; [exact Hl|]. cbn [trace] in Htr.
      split; [rewrite Htr, <- app_assoc; reflexivity|].
      cbn [app filter is_Fit is_Query is_Printed fits_from List.length].
      split; [now rewrite Hf|].
      split; [constructor; [now left|exact Hq]|].
      split; [exact Hp|].
      split; [|exact Hled].
      intros st ex' [<-|Hin] Hex.
      * rewrite Hfit in Hex. discriminate.
      * right. eapply Hm; eassumption.
Qed.

Lemma jam_call_spec (self : session) args (sts : list star) w :
  stars self = map Some sts ->
  exists w' evs,
    jam_call E self args w =
      (Ok (mk_session (map (slot_after E args) sts) (Some (model_type args))), w') /\
    trace w' = (trace w ++ evs)%list /\
    filter is_Fit evs = fits_from 0 sts /\
    Forall fit_or_message evs /\
    List.length (filter is_Printed evs) = List.length (filter (fails E args) sts) /\
    (forall st ex, In st sts -> fit E st args = Some ex ->
                   In (Printed (fit_failed_message (st_ID st) ex)) evs) /\
    (filter (fails E args) sts = [] -> ledger w' = ledger w).
Proof.
  intros Hs. unfold jam_call, bind, ret. rewrite Hs.
  destruct (call_loop_spec args sts [] w) as [w' [evs [Hl H]]].
  cbn [app List.length] in Hl. rewrite Hl. exists w', evs. split; [reflexivity|exact H].
Qed.

(** X11. On a session whose stars were not released, [jam.__call__] returns
    normally whatever the fits do; what it adds to the trace are calls of
    the fit and messages, and the calls are one per star, in the order of
    the session. *)
Theorem jam_call_fits_every_star_once_in_order (self : session) args (sts : list star) w :
  stars self = map Some sts ->
  exists sess' w' evs,
    jam_call E self args w = (Ok sess', w') /\
    trace w' = (trace w ++ evs)%list /\
    filter is_Fit evs = fits_from 0 sts /\
    Forall fit_or_message evs.
Proof.
  intros Hs. destruct (jam_call_spec self args sts w Hs)
    as [w' [evs [Hc [Ht [Hf [Hq _]]]]]]. eauto 8.
Qed.

(** X12. After [jam.__call__], the slot of a star is None when its fit ended
    normally, and still holds the star when its fit raised; the model type
    of the session is the one of the call. *)
Theorem jam_call_releases_fitted_stars (self : session) args (sts : list star) w sess' w' :
  stars self = map Some sts ->
  jam_call E self args w = (Ok sess', w') ->
  pb_model_type sess' = Some (model_type args) /\
  List.length (stars sess') = List.length sts /\
  forall j st, nth_error sts j = Some st ->
    nth_error (stars sess') j =
    Some (match fit E st args with None => None | Some _ => Some st end).
Proof.
  intros Hs H. destruct (jam_call_spec self args sts w Hs) as [w1 [evs [Hc _]]].
  rewrite Hc in H. inversion H; subst; clear H. cbn [pb_model_type stars].
  split; [reflexivity|]. split; [apply length_map|].
  intros j st Hj. now apply (map_nth_error (slot_after E args)).
Qed.

Lemma filter_all_or {A} (f g : A -> bool) (l : list A) :
  Forall (fun x => f x = true \/ g x = true) l ->
  filter g l = [] -> filter f l = l.
Proof.
  induction 1 as [|x l Hx Hl IH]; intros Hg; [reflexivity|].
  cbn [filter] in *. destruct (g x); [discriminate|].
  destruct Hx as [->|Hx]; [|discriminate]. now rewrite IH.
Qed.

(** X13. [jam.__call__] prints one message per fit that raised, and for
    every star whose fit raised the text of lines 171-173: the identifier
    of the star, the name of the type of the exception and, on a new line,
    the [repr] of its arguments.  When no fit raises, the ledger is
    unchanged and the trace grows by the calls of the fits only. *)
Theorem one_message_per_failed_fit (self : session) args (sts : list star) w sess' w' :
  stars self = map Some sts ->
  jam_call E self args w = (Ok sess', w') ->
  exists evs,
    trace w' = (trace w ++ evs)%list /\
    List.length (filter is_Printed evs) = List.length (filter (fails E args) sts) /\
    (forall st ex, In st sts -> fit E st args = Some ex ->
                   In (Printed ("Star " ++ st_ID st ++
                                " produced an exception of type " ++
                                exn_type ex ++ " occurred. Arguments:" ++
                                nl ++ exn_args ex)) evs) /\
    ((forall st, In st sts -> fit E st args = None) ->
     ledger w' = ledger w /\ evs = fits_from 0 sts).
Proof.
  intros Hs H. destruct (jam_call_spec self args sts w Hs)
    as [w1 [evs [Hc [Ht [Hf [Hq [Hp [Hm Hl]]]]]]]].
  rewrite Hc in H. inversion H; subst; clear H.
  exists evs. split; [exact Ht|]. split; [exact Hp|]. split; [exact Hm|].
  intros Hnone.
  assert (Hnof : filter (fails E args) sts = []).
  { clear -Hnone. induction sts as [|s sts IH]; [reflexivity|].
    cbn [filter]. unfold fails at 1. rewrite (Hnone s) by now left.
    apply IH. intros st Hin. apply Hnone. now right. }
  split; [now apply Hl|].
  rewrite Hnof in Hp. cbn in Hp. rewrite <- Hf.
  symmetry. apply (filter_all_or is_Fit is_Printed); [exact Hq|].
  destruct (filter is_Printed evs); [reflexivity|discriminate].
Qed.

(** *** A session is called once *)

Lemma call_loop_released args i (todo slots : list (option star)) w :
  In None todo ->
  exists w',
    call_loop E args i todo slots w = (Raise (AttributeError "NoneType" "ID"), w').
Proof.
  revert i slots w. induction todo as [|[st|] todo IH]; intros i slots w Hin.
  - destruct Hin.
  - destruct Hin as [Hin|Hin]; [discriminate|].
    rewrite call_loop_cons. destruct (fit E st args); now apply IH.
  - eexists. reflexivity.
Qed.

(** X14. A session of which one fit ended normally cannot be called again:
    the released slot holds None, the call of None raises inside the
    [try], the handler reads [st.ID] of None, and the second call ends with
    AttributeError. *)
Theorem session_cannot_be_called_again (self : session) args (sts : list star) st w sess' w' :
  stars self = map Some sts ->
  In st sts ->
  fit E st args = None ->
  jam_call E self args w = (Ok sess', w') ->
  forall args' w0, exists w1,
    jam_call E sess' args' w0 = (Raise (AttributeError "NoneType" "ID"), w1).
Proof.
  intros Hs Hin Hfit H args' w0.
  destruct (jam_call_spec self args sts w Hs) as [w1 [evs [Hc _]]].
  rewrite Hc in H. inversion H; subst; clear H.
  unfold jam_call, bind. cbn [stars].
  destruct (call_loop_released args' 0 (map (slot_after E args) sts)
              (map (slot_after E args) sts) w0) as [w2 Hr].
  - apply in_map_iff. exists st. split; [|assumption].
    unfold slot_after. now rewrite Hfit.
  - rewrite Hr. eauto.
Qed.

End DriverMore.

(** * Further properties of the constructor *)

Section InitMore.

Context {F R : Type} (E : @env F R).
Implicit Types (df : @frame F) (r : @row F) (st : @star F) (w : world)
  (a : @init_args F R).

(** *** The stages of the constructor *)

Lemma build_stars_world df path ps w res w' :
  build_stars E df path ps w = (res, w') -> w' = w.
Proof.
  revert res w'. induction ps as [|p ps IH]; intros res w' H.
  - inversion H. reflexivity.
  - cbn in H. unfold bind, loc, ret, raise in H.
    destruct (loc_opt df p) as [r|]; [|inversion H; reflexivity].
    destruct (build_stars E df path ps w) as [[sts|e] w1] eqn:Hb;
      inversion H; subst; eapply IH; reflexivity.
Qed.

Lemma jam_init_stages a w sess w' :
  jam_init E a w = (Ok sess, w') ->
  exists v w1 out w2 pgs sts,
    load_table E a w = (Ok (Some v), w1) /\
    lc_to_lk E v (a_download_dir a) (a_use_cached a) w1 = (Ok out, w2) /\
    lk_to_pg E out = Ok pgs /\
    build_stars E pgs (a_path a) (seq 0 (List.length pgs)) w2 = (Ok sts, w2) /\
    nyquist_checks E sts w2 = (Ok tt, w') /\
    sess = mk_session (map Some sts) None.
Proof.
  unfold jam_init, bind, ret, lift. intros H.
  destruct (load_table E a w) as [[vardf|e] w1] eqn:Hload; [|discriminate].
  destruct vardf as [v|]; [|discriminate]. cbn [read_vardf] in H.
  unfold ret in H.
  destruct (lc_to_lk E v (a_download_dir a) (a_use_cached a) w1)
    as [[v1|e] w2] eqn:Hres; [|discriminate].
  destruct (lk_to_pg E v1) as [v2|e] eqn:Hpg; [|discriminate].
  destruct (build_stars E v2 (a_path a) (seq 0 (List.length v2)) w2)
    as [[sts|e] w4] eqn:Hb; [|discriminate].
  pose proof (build_stars_world _ _ _ _ _ _ Hb). subst w4.
  destruct (nyquist_checks E sts w2) as [[[]|e] w5] eqn:Hc; [|discriminate].
  inversion H; subst. exists v, w1, v1, w2, v2, sts.
  repeat match goal with |- _ /\ _ => split end;
    try reflexivity; try assumption.
Qed.

(** *** One star per resolved row *)

Lemma lk_to_pg_spec df pgs :
  lk_to_pg E df = Ok pgs ->
  labels pgs = labels df /\
  Forall2 (fun r r' => lk_to_pg_row E r = Ok r') (rows df) (rows pgs).
Proof.
  revert pgs. induction df as [|[l r] df IH]; intros pgs H.
  - inversion H. split; [reflexivity|constructor].
  - cbn [lk_to_pg] in H.
    destruct (lk_to_pg_row E r) as [r'|e] eqn:Hr; [|discriminate].
    destruct (lk_to_pg E df) as [rest|e]; [|discriminate].
    inversion H; subst. destruct (IH _ eq_refl) as [Hl Hf].
    split; [unfold labels in *; cbn [map fst]; now rewrite Hl|].
    unfold rows in *. cbn [map snd]. now constructor.
Qed.

Lemma lk_to_pg_row_columns r r' :
  lk_to_pg_row E r = Ok r' ->
  ID r' = ID r /\ numax r' = numax r /\ numax_err r' = numax_err r /\
  dnu r' = dnu r /\ dnu_err r' = dnu_err r /\
  teff r' = teff r /\ teff_err r' = teff_err r /\
  bp_rp r' = bp_rp r /\ bp_rp_err r' = bp_rp_err r /\
  timeseries r' = timeseries r /\ index r' = index r.
Proof.
  unfold lk_to_pg_row. intros H.
  destruct (truthy (psd r)); [inversion H; subst; repeat split|].
  destruct (timeseries r) as [| |lc|] eqn:Hts;
    try (inversion H; subst; rewrite Hts; repeat split; fail).
  destruct (to_periodogram E lc); inversion H; subst. cbn.
  rewrite Hts. repeat split.
Qed.

Lemma frame_split df : combine (labels df) (rows df) = df.
Proof.
  unfold labels, rows. induction df as [|[l r] df IH]; [reflexivity|].
  cbn. now rewrite IH.
Qed.

Lemma loc_opt_by_position df p :
  labels df = seq 0 (List.length df) -> loc_opt df p = nth_error (rows df) p.
Proof.
  intros Hl. rewrite <- (frame_split df) at 1. rewrite Hl.
  replace (List.length df) with (List.length (rows df))
    by (unfold rows; apply length_map).
  apply (loc_opt_combine_seq 0).
Qed.

Lemma build_stars_positions df path w (rs1 rs2 : list row) :
  labels df = seq 0 (List.length df) ->
  rows df = (rs1 ++ rs2)%list ->
  build_stars E df path (seq (List.length rs1) (List.length rs2)) w =
  (Ok (map (fun r => star_of_row E r path) rs2), w).
Proof.
  intros Hl. revert rs1. induction rs2 as [|r rs2 IH]; intros rs1 Hrows.
  - reflexivity.
  - cbn [List.length seq build_stars map]. unfold bind, loc, ret.
    rewrite loc_opt_by_position by assumption.
    rewrite Hrows, nth_error_app2, Nat.sub_diag by lia. cbn [nth_error].
    specialize (IH (rs1 ++ [r])%list).
    rewrite length_app, Nat.add_1_r, <- app_assoc in IH.
    rewrite (IH Hrows). reflexivity.
Qed.

Lemma Forall2_nth {A B} (P : A -> B -> Prop) l l' j x :
  Forall2 P l l' -> nth_error l j = Some x ->
  exists y, nth_error l' j = Some y /\ P x y.
Proof.
  intros H. revert j. induction H as [|a b l l' Hab H IH]; intros [|j] Hj;
    try discriminate.
  - inversion Hj; subst. exists b. auto.
  - now apply IH.
Qed.

(** X15. A constructed session holds one star per row of the resolved table,
    in the order of the table: the star at position [j] has the identifier
    and the pairs (value, uncertainty) of numax, dnu, teff and bp_rp of the
    row at position [j], and the path given to the constructor. *)
Theorem one_star_per_resolved_row a w sess w' :
  jam_init E a w = (Ok sess, w') ->
  exists v w1 out w2,
    load_table E a w = (Ok (Some v), w1) /\
    lc_to_lk E v (a_download_dir a) (a_use_cached a) w1 = (Ok out, w2) /\
    List.length (stars sess) = List.length out /\
    forall j r, nth_error (rows out) j = Some r ->
      exists st, nth_error (stars sess) j = Some (Some st) /\
        st_ID st = ID r /\
        st_numax st = (numax r, numax_err r) /\
        st_dnu st = (dnu r, dnu_err r) /\
        st_teff st = (teff r, teff_err r) /\
        st_bp_rp st = (bp_rp r, bp_rp_err r) /\
        st_path st = a_path a.
Proof.
  intros H. apply jam_init_stages in H.
  destruct H as [v [w1 [out [w2 [pgs [sts [Hload [Hres [Hpg [Hb [Hn ->]]]]]]]]]]].
  exists v, w1, out, w2. split; [exact Hload|]. split; [exact Hres|].
  destruct (lk_to_pg_spec _ _ Hpg) as [Hl Hf].
  assert (Hlen : List.length pgs = List.length out).
  { rewrite <- (length_map fst pgs), <- (length_map fst out).
    fold (labels pgs) (labels out). now rewrite Hl. }
  assert (Hlab : labels pgs = seq 0 (List.length pgs)).
  { rewrite Hl, Hlen.
    destruct (lc_to_lk_inv E _ _ _ _ _ _ Hres) as [df' [_ ->]].
    apply labels_reset_index. }
  pose proof (build_stars_positions pgs (a_path a) w2 [] (rows pgs) Hlab eq_refl) as Hb'.
  cbn [List.length] in Hb'. unfold rows in Hb' at 1. rewrite length_map in Hb'.
  rewrite Hb in Hb'. inversion Hb'; subst sts; clear Hb'.
  cbn [stars]. split.
  { rewrite !length_map. unfold rows. rewrite length_map. exact Hlen. }
  intros j r Hj.
  destruct (Forall2_nth _ _ _ _ _ Hf Hj) as [r' [Hj' Hr']].
  exists (star_of_row E r' (a_path a)). split.
  { rewrite map_map. now apply (map_nth_error (fun x => Some (star_of_row E x (a_path a)))). }
  apply lk_to_pg_row_columns in Hr'.
  destruct Hr' as [H1 [H2 [H3 [H4 [H5 [H6 [H7 [H8 [H9 _]]]]]]]]].
  cbn. rewrite H1, H2, H3, H4, H5, H6, H7, H8, H9. repeat split.
Qed.

(** *** Errors of the readers *)

(** X18. An exception of [pd.read_csv], and an exception of [from_records]
    that is not a TypeError, leave the constructor as they are, with
    nothing printed. *)
Theorem reader_errors_escape_unreported a w e :
  (exists path, a_dictlike a = DictPath path /\ read_csv E path = Raise e) \/
  (exists d, a_dictlike a = DictRecords d /\ from_records E d = Raise e /\
             is_instance "TypeError" e = false) ->
  jam_init E a w = (Raise e, w).
Proof.
  intros [[path [Hd Hr]]|[d [Hd [Hr Hi]]]];
    unfold jam_init, load_table, read_dictlike, bind, lift, try_except;
    rewrite Hd, Hr; [reflexivity|]. now rewrite Hi.
Qed.

(** *** Arguments that are not read *)

(** X16. When [dictlike] is a path or a table, the arguments [timeseries],
    [psd] and the observation context ([cadence], [campaign], [sector],
    [month], [quarter], [mission]) are not read: the constructor does the
    same with any other values of them. *)
Theorem table_given_ignores_series_arguments a ts pg ctx w :
  a_dictlike a <> DictOther ->
  jam_init E
    (mk_init_args (a_ID a) (a_numax a) (a_dnu a) (a_teff a) (a_bp_rp a)
       ts pg (a_dictlike a) (a_use_cached a) ctx (a_path a) (a_download_dir a)) w
  = jam_init E a w.
Proof.
  intros Hd. unfold jam_init, load_table. cbn.
  destruct (a_dictlike a); [reflexivity|reflexivity|contradiction].
Qed.

(** *** Frequency axes *)

Lemma nyquist_checks_axes (sts : list star) w w' st :
  nyquist_checks E sts w = (Ok tt, w') -> In st sts -> st_f st <> [].
Proof.
  revert w. induction sts as [|s sts IH]; intros w H Hin; [destruct Hin|].
  cbn in H. unfold bind in H.
  destruct (nyquist_check E s w) as [[[]|e] w1] eqn:Hc; [|discriminate].
  destruct Hin as [->|Hin]; [|eapply IH; eassumption].
  intros Hf. unfold nyquist_check in Hc. rewrite Hf in Hc. discriminate.
Qed.

(** X19. The check of line 142 reads the last frequency of every star: in a
    session that the constructor returns, no star has an empty frequency
    axis (the constructor would have raised IndexError). *)
Theorem constructed_stars_have_frequencies a w sess w' st :
  jam_init E a w = (Ok sess, w') ->
  In (Some st) (stars sess) ->
  st_f st <> [].
Proof.
  intros H Hin. apply jam_init_inv in H. destruct H as [sts [w0 [Hs Hc]]].
  rewrite Hs in Hin. apply in_map_iff in Hin. destruct Hin as [st' [Heq Hin]].
  inversion Heq; subst. eapply nyquist_checks_axes; eassumption.
Qed.

(** *** The warnings of the constructor *)

Lemma read_dictlike_world (d : dictlike_arg) w res w0 :
  read_dictlike E d w = (res, w0) ->
  w0 = w \/
  (res = Ok None /\
   w0 = mk_world (ledger w) (trace w ++ [Printed unrecognized_message])).
Proof.
  unfold read_dictlike, bind, lift, try_except, emit, ret. intros H.
  destruct d as [path|d|].
  - destruct (read_csv E path); inversion H; auto.
  - destruct (from_records E d) as [rs|e]; [inversion H; auto|].
    destruct (is_instance "TypeError" e); inversion H; auto.
  - inversion H; auto.
Qed.

Lemma table_tail_world a (vardf : option frame) w0 res w1 :
  ((if any_parameter a then emit (Warn ignoring_message) else ret tt) ;;;
   v <- read_vardf vardf ;;
   v0 <- lift (organize_sess_dataframe E v) ;; ret (Some v0)) w0 = (res, w1) ->
  ledger w1 = ledger w0 /\
  ((any_parameter a = true /\
    trace w1 = (trace w0 ++ [Warn ignoring_message])%list) \/
   (any_parameter a = false /\ trace w1 = trace w0)).
Proof.
  unfold bind, emit, ret, lift, read_vardf, raise. intros H.
  destruct (any_parameter a); cbn in H;
    (destruct vardf as [v|]; cbn in H;
     [destruct (organize_sess_dataframe E v); cbn in H|]);
    inversion H; subst; cbn [ledger trace];
    (split; [reflexivity|]);
    first [left; split; reflexivity | right; split; reflexivity].
Qed.

Lemma load_table_world a w res w1 :
  load_table E a w = (res, w1) ->
  ledger w1 = ledger w /\
  exists evs,
    trace w1 = (trace w ++ evs)%list /\
    Forall (table_event a) evs /\
    (forall v, res = Ok (Some v) -> a_dictlike a <> DictOther ->
       any_parameter a = true -> In (Warn ignoring_message) evs).
Proof.
  intros H.
  destruct (a_dictlike a) as [path|d|] eqn:Hd.
  3: { assert (w1 = w).
       { unfold load_table, bind, lift, ret in H. rewrite Hd in H.
         destruct (truthy (a_ID a)); [|now inversion H].
         destruct (organize_sess_input E a) as [v|e]; [|now inversion H].
         destruct (format_col E v (a_timeseries a) "timeseries") as [v1|e];
           [|now inversion H].
         destruct (format_col E v1 (a_psd a) "psd"); now inversion H. }
       subst w1. split; [reflexivity|]. exists [].
       rewrite app_nil_r. split; [reflexivity|]. split; [constructor|].
       intros v _ Hn. contradiction. }
  all: unfold load_table in H; rewrite Hd in H; rewrite <- Hd in H;
    fold (any_parameter a) in H; unfold bind at 1 in H;
    destruct (read_dictlike E (a_dictlike a) w) as [[vardf|e] w0] eqn:Hrd;
    apply read_dictlike_world in Hrd.
  all: assert (Hne : a_dictlike a <> DictOther) by (rewrite Hd; discriminate).
  all: try (inversion H; subst; clear H;
            destruct Hrd as [->|[Hc _]]; [|discriminate];
            split; [reflexivity|]; exists []; rewrite app_nil_r;
            split; [reflexivity|]; split; [constructor|];
            intros; discriminate).
  all: apply table_tail_world in H; destruct H as [Hl Ht];
    destruct Hrd as [->|[_ ->]]; cbn [ledger trace] in *;
    (split; [exact Hl|]);
    destruct Ht as [[Ha ->]|[Ha ->]].
  all: try (exists [Warn ignoring_message]; split; [reflexivity|];
            split; [constructor; [right; auto|constructor]|];
            intros; now left).
  all: try (exists []; rewrite app_nil_r; split; [reflexivity|];
            split; [constructor|]; intros; congruence).
  all: try (exists [Printed unrecognized_message; Warn ignoring_message];
            rewrite <- app_assoc; split; [reflexivity|];
            split; [constructor; [now left|constructor; [right; auto|constructor]]|];
            intros; right; now left).
  all: exists [Printed unrecognized_message]; split; [reflexivity|];
       split; [constructor; [now left|constructor]|]; intros; congruence.
Qed.

Lemma step_new_events dd uc k id df w res w' :
  lc_to_lk_step E dd uc k id df w = (res, w') ->
  exists evs, trace w' = (trace w ++ evs)%list /\ Forall query_or_message evs.
Proof.
  intros H. pose proof (step_cases E dd uc k id df w) as C.
  rewrite H in C. inversion C; subst; cbn [trace];
    try (exists []; rewrite app_nil_r; split; [reflexivity|constructor]);
    eexists; (split; [reflexivity|]);
    repeat (apply Forall_cons; [unfold query_or_message; cbn; auto|]);
    apply Forall_nil.
Qed.

Lemma loop_new_events dd uc k ids df w res w' :
  lc_to_lk_loop E dd uc k ids df w = (res, w') ->
  exists evs, trace w' = (trace w ++ evs)%list /\ Forall query_or_message evs.
Proof.
  revert k df w. induction ids as [|id ids IH]; intros k df w H.
  - cbn in H. inversion H; subst. exists []. rewrite app_nil_r.
    split; [reflexivity|constructor].
  - rewrite loop_cons in H.
    destruct (lc_to_lk_step E dd uc k id df w) as [[df1|e] w1] eqn:Hs;
      apply step_new_events in Hs; destruct Hs as [evs [Ht Hf]].
    + destruct (IH _ _ _ H) as [evs' [Ht' Hf']].
      exists (evs ++ evs')%list. rewrite Ht', Ht, app_assoc.
      split; [reflexivity|]. apply Forall_app. auto.
    + inversion H; subst. eauto.
Qed.

Lemma lc_to_lk_new_events df dd uc w res w' :
  lc_to_lk E df dd uc w = (res, w') ->
  exists evs, trace w' = (trace w ++ evs)%list /\ Forall query_or_message evs.
Proof.
  intros H. apply lc_to_lk_world in H. destruct H as [res0 H].
  eapply loop_new_events; eassumption.
Qed.

Lemma nyquist_check_origin st w res w' m :
  nyquist_check E st w = (res, w') ->
  In (Warn m) (trace w') ->
  In (Warn m) (trace w) \/
  exists front nyq,
    m = nyquist_message (st_ID st) /\ st_f st = (front ++ [nyq])%list /\
    fgtb E (fst (st_numax st)) nyq = true.
Proof.
  unfold nyquist_check, raise, emit, ret. intros H Hin.
  destruct (rev (st_f st)) as [|nyq l] eqn:Hrev; [inversion H; subst; now left|].
  destruct (fgtb E (fst (st_numax st)) nyq) eqn:Hg; inversion H; subst;
    [|now left].
  cbn [trace] in Hin. apply in_app_or in Hin.
  destruct Hin as [Hin|[Hin|[]]]; [now left|right].
  inversion Hin; subst. exists (rev l), nyq. split; [reflexivity|].
  split; [|assumption].
  rewrite <- (rev_involutive (st_f st)), Hrev. reflexivity.
Qed.

Lemma nyquist_checks_origin (sts : list star) w res w' m :
  nyquist_checks E sts w = (res, w') ->
  In (Warn m) (trace w') ->
  In (Warn m) (trace w) \/
  exists st front nyq,
    In st sts /\ m = nyquist_message (st_ID st) /\
    st_f st = (front ++ [nyq])%list /\ fgtb E (fst (st_numax st)) nyq = true.
Proof.
  revert w. induction sts as [|s sts IH]; intros w H Hin.
  - inversion H; subst. now left.
  - cbn in H. unfold bind in H.
    destruct (nyquist_check E s w) as [[[]|e] w1] eqn:Hc.
    + destruct (IH _ H Hin) as [Hin1|[st [front [nyq [Hst Hrest]]]]].
      * destruct (nyquist_check_origin _ _ _ _ _ Hc Hin1)
          as [Hw|[front [nyq Hrest]]]; [now left|right].
        exists s, front, nyq. split; [now left|exact Hrest].
      * right. exists st, front, nyq. split; [now right|exact Hrest].
    + inversion H; subst.
      destruct (nyquist_check_origin _ _ _ _ _ Hc Hin)
        as [Hw|[front [nyq Hrest]]]; [now left|right].
      exists s, front, nyq. split; [now left|exact Hrest].
Qed.

(** X20. The warnings of a constructor that returns are of two kinds only:
    the one of line 107, when a table was given together with one of [ID],
    [numax], [dnu], [teff], [bp_rp]; and the one of line 143, for a star of
    the session whose numax is above the last frequency of its axis. *)
Theorem constructor_warns_for_two_reasons a w sess w' m :
  jam_init E a w = (Ok sess, w') ->
  In (Warn m) (trace w') ->
  In (Warn m) (trace w) \/
  (m = ignoring_message /\ a_dictlike a <> DictOther /\ any_parameter a = true) \/
  exists st front nyq,
    In (Some st) (stars sess) /\ m = nyquist_message (st_ID st) /\
    st_f st = (front ++ [nyq])%list /\ fgtb E (fst (st_numax st)) nyq = true.
Proof.
  intros H Hin. apply jam_init_stages in H.
  destruct H as [v [w1 [out [w2 [pgs [sts [Hload [Hres [Hpg [Hb [Hn ->]]]]]]]]]]].
  destruct (nyquist_checks_origin _ _ _ _ _ Hn Hin)
    as [Hin2|[st [front [nyq [Hst Hrest]]]]].
  2: { right. right. exists st, front, nyq. split; [|exact Hrest].
       cbn [stars]. now apply in_map. }
  apply lc_to_lk_new_events in Hres. destruct Hres as [evs [Ht Hf]].
  rewrite Ht in Hin2. apply in_app_or in Hin2. destruct Hin2 as [Hin1|Hin2].
  2: { rewrite Forall_forall in Hf. destruct (Hf _ Hin2); discriminate. }
  apply load_table_world in Hload. destruct Hload as [_ [evs0 [Ht0 [Hf0 _]]]].
  rewrite Ht0 in Hin1. apply in_app_or in Hin1. destruct Hin1 as [Hin0|Hin1];
    [now left|].
  rewrite Forall_forall in Hf0. destruct (Hf0 _ Hin1) as [Hp|[Hw Hc]];
    [discriminate|]. inversion Hw; subst. right. left. auto.
Qed.

(** X17. When a table is given together with a true [ID], [numax], [dnu],
    [teff] or [bp_rp], the constructor that returns has warned that these
    parameters are ignored. *)
Theorem table_with_parameters_warns a w sess w' :
  jam_init E a w = (Ok sess, w') ->
  a_dictlike a <> DictOther ->
  any_parameter a = true ->
  In (Warn ignoring_message) (trace w').
Proof.
  intros H Hd Ha. apply jam_init_stages in H.
  destruct H as [v [w1 [out [w2 [pgs [sts [Hload [Hres [Hpg [Hb [Hn ->]]]]]]]]]]].
  eapply nyquist_checks_trace; [eassumption|].
  apply lc_to_lk_new_events in Hres. destruct Hres as [evs [Ht _]].
  rewrite Ht. apply in_or_app. left.
  apply load_table_world in Hload. destruct Hload as [_ [evs0 [Ht0 [_ Hw]]]].
  rewrite Ht0. apply in_or_app. right. eapply Hw; eauto.
Qed.

End InitMore.

(** * The whole run *)

Section Run.

Context {F R : Type} (E : @env F R).
Implicit Types (df : @frame F) (r : @row F) (st : @star F) (w : world)
  (a : @init_args F R).

Lemma step_resolves_empty dd uc k r df w :
  loc_opt df k = Some r ->
  is_str (timeseries r) = false ->
  truthy (timeseries r) = false ->
  truthy (psd r) ||
    match query_lightkurve E (ID r) dd uc (context r) with
    | Ok _ => true
    | Raise _ => false
    end = true ->
  exists df' w',
    lc_to_lk_step E dd uc k (ID r) df w = (Ok df', w') /\
    keys df' = keys df /\ ledger w' = ledger w.
Proof.
  intros Hr Hs Ht Hres. destruct (truthy (psd r)) eqn:Hp.
  - erewrite step_has_psd by eassumption. eauto.
  - destruct (query_lightkurve E (ID r) dd uc (context r)) as [lc|e] eqn:Hq;
      [|discriminate].
    erewrite step_fetch_ok by eassumption.
    eexists; eexists; split; [reflexivity|]. rewrite keys_at. auto.
Qed.

Lemma step_resolves_object dd uc k r df w :
  loc_opt df k = Some r ->
  is_str (timeseries r) = false ->
  truthy (timeseries r) = true ->
  match get_module (timeseries r) with
  | Ok m => String.eqb m lk_lightcurve_name
  | Raise _ => false
  end = true ->
  exists df' w',
    lc_to_lk_step E dd uc k (ID r) df w = (Ok df', w') /\
    keys df' = keys df /\ ledger w' = ledger w.
Proof.
  intros Hr Hs Ht Hres.
  destruct (get_module (timeseries r)) as [m|e] eqn:Hm; [|discriminate].
  apply String.eqb_eq in Hres. subst m.
  erewrite step_accept by eassumption.
  eexists; eexists; split; [reflexivity|]. rewrite keys_at. auto.
Qed.

Lemma step_resolves dd uc k r df w :
  loc_opt df k = Some r ->
  resolves E dd uc r = true ->
  exists df' w',
    lc_to_lk_step E dd uc k (ID r) df w = (Ok df', w') /\
    keys df' = keys df /\ ledger w' = ledger w.
Proof.
  intros Hr Hres. unfold resolves in Hres.
  destruct (timeseries r) as [|path|lc|ty t m] eqn:Hts.
  - apply step_resolves_empty; rewrite ?Hts; auto.
  - destruct (genfromtxt E path) as [td|e] eqn:Hf; [|discriminate].
    apply Nat.leb_le in Hres.
    erewrite step_file_ok by eassumption.
    eexists; eexists; split; [reflexivity|]. rewrite keys_at. auto.
  - destruct (truthy (PyLightCurve lc)) eqn:Ht.
    + apply step_resolves_object; rewrite ?Hts; auto.
    + apply step_resolves_empty; rewrite ?Hts; auto.
  - destruct (truthy (PyOther ty t m)) eqn:Ht.
    + apply step_resolves_object; rewrite ?Hts; auto.
    + apply step_resolves_empty; rewrite ?Hts; auto.
Qed.

Lemma loop_resolves dd uc (post : list row) :
  forall k df w,
  (forall j r, nth_error post j = Some r ->
               loc_opt df (k + j) = Some r /\ resolves E dd uc r = true) ->
  exists df' w',
    lc_to_lk_loop E dd uc k (map ID post) df w = (Ok df', w') /\
    keys df' = keys df /\ ledger w' = ledger w.
Proof.
  induction post as [|r post IH]; intros k df w H.
  - exists df, w. auto.
  - destruct (H 0 r eq_refl) as [Hr Hres]. rewrite Nat.add_0_r in Hr.
    destruct (step_resolves dd uc k r df w Hr Hres) as [df1 [w1 [Hs [Hk Hl]]]].
    cbn [map]. rewrite loop_cons, Hs.
    destruct (IH (S k) df1 w1) as [df' [w' [Hloop [Hk' Hl']]]].
    + intros j r' Hj. destruct (H (S j) r' Hj) as [Hr' Hres'].
      split; [|exact Hres'].
      replace (S k + j) with (k + S j) by lia. rewrite <- Hr'.
      eapply step_loc_other; [eassumption|lia].
    + exists df', w'. split; [exact Hloop|]. split; congruence.
Qed.

Lemma kept_keys_rows (rs : list (@row F)) (df' : @frame F) :
  keys df' = keys (range_frame rs) ->
  List.length (reset_index df') = List.length rs /\
  map ID (rows (reset_index df')) = map ID rs.
Proof.
  intros Hk. split.
  - rewrite length_reset_index.
    rewrite <- (length_map fst df'). fold (labels df').
    rewrite labels_keys, Hk, <- labels_keys. unfold labels, range_frame.
    rewrite length_map, length_combine, length_seq. lia.
  - rewrite reset_index_ID, rows_ID_keys, Hk, <- rows_ID_keys.
    unfold range_frame. now rewrite rows_combine_seq.
Qed.

(** X10. A table read with a RangeIndex, of which every row has a file that
    loads with two rows or more, or a power spectrum, or a query that
    answers, or a light curve: [lc_to_lk] returns, keeps every row in its
    order and leaves the ledger as it was. *)
Theorem resolvable_table_is_resolved (rs : list row) dd uc w :
  Forall (fun r => resolves E dd uc r = true) rs ->
  exists out w',
    lc_to_lk E (range_frame rs) dd uc w = (Ok out, w') /\
    List.length out = List.length rs /\
    map ID (rows out) = map ID rs /\
    ledger w' = ledger w.
Proof.
  intros Hall.
  destruct (loop_resolves dd uc rs 0 (range_frame rs) w) as [df' [w' [Hl [Hk Hled]]]].
  - intros j r Hj. cbn [Nat.add]. rewrite loc_opt_range. split; [exact Hj|].
    rewrite Forall_forall in Hall. apply Hall. eapply nth_error_In; eassumption.
  - exists (reset_index df'), w'. unfold lc_to_lk, bind, ret.
    unfold range_frame at 1. rewrite rows_combine_seq, Hl.
    split; [reflexivity|].
    destruct (kept_keys_rows rs df' Hk) as [Hlen Hids]. auto.
Qed.

Lemma lk_to_pg_total df :
  (forall lc, exists pg, to_periodogram E lc = Ok pg) ->
  exists pgs, lk_to_pg E df = Ok pgs.
Proof.
  intros Hp. induction df as [|[l r] df [rest IH]]; [now exists []|].
  cbn [lk_to_pg]. rewrite IH. unfold lk_to_pg_row.
  destruct (truthy (psd r)); eauto.
  destruct (timeseries r) as [| |lc|]; eauto.
  destruct (Hp lc) as [pg ->]. eauto.
Qed.

Lemma nyquist_checks_total (sts : list star) w :
  (forall st, In st sts -> st_f st <> []) ->
  exists w', nyquist_checks E sts w = (Ok tt, w') /\ ledger w' = ledger w.
Proof.
  revert w. induction sts as [|s sts IH]; intros w Hf; [now exists w|].
  cbn [nyquist_checks]. unfold bind, nyquist_check, emit, ret, raise.
  destruct (rev (st_f s)) as [|nyq l] eqn:Hrev.
  { exfalso. apply (Hf s); [now left|].
    rewrite <- (rev_involutive (st_f s)), Hrev. reflexivity. }
  destruct (fgtb E (fst (st_numax s)) nyq);
    match goal with
    | |- context [nyquist_checks E sts ?w1] =>
        destruct (IH w1) as [w' [Hc Hl]]; [intros; apply Hf; now right|]
    end; exists w'; rewrite Hc; split; auto.
Qed.

(** X21. A run without failure.  The table is loaded, every row resolves
    (a file has two rows or more), the periodogram of every series is
    computed where no spectrum was supplied, every frequency axis has a
    value and no fit raises: the constructor returns a session of one star
    per row of the table, in order; the call returns, has called the fit of
    each star once, in order, and nothing else; every slot is released and
    the ledger is the one the run started with. *)
Theorem run_without_failure a (rs : list row) args w w1 :
  load_table E a w = (Ok (Some (range_frame rs)), w1) ->
  Forall (fun r => resolves E (a_download_dir a) (a_use_cached a) r = true) rs ->
  (forall lc, exists pg, to_periodogram E lc = Ok pg) ->
  (forall pg, frequency E pg <> []) ->
  (forall st, fit E st args = None) ->
  exists sess w2 sess' w3 sts,
    jam_init E a w = (Ok sess, w2) /\
    stars sess = map Some sts /\
    map st_ID sts = map ID rs /\
    jam_call E sess args w2 = (Ok sess', w3) /\
    stars sess' = map (fun _ => None) sts /\
    trace w3 = (trace w2 ++ fits_from 0 sts)%list /\
    ledger w3 = ledger w.
Proof.
  intros Hload Hall Hpg Hfreq Hfit.
  destruct (loop_resolves (a_download_dir a) (a_use_cached a) rs 0
              (range_frame rs) w1) as [df' [w2 [Hloop [Hk Hled]]]].
  { intros j r Hj. cbn [Nat.add]. rewrite loc_opt_range. split; [exact Hj|].
    rewrite Forall_forall in Hall. apply Hall. eapply nth_error_In; eassumption. }
  destruct (kept_keys_rows rs df' Hk) as [Hlen Hids].
  set (out := reset_index df') in *.
  assert (Hres : lc_to_lk E (range_frame rs) (a_download_dir a) (a_use_cached a) w1
                 = (Ok out, w2)).
  { unfold lc_to_lk, bind, ret. unfold range_frame at 1.
    rewrite rows_combine_seq, Hloop. reflexivity. }
  destruct (lk_to_pg_total out Hpg) as [pgs Hpgs].
  destruct (lk_to_pg_spec E _ _ Hpgs) as [Hl Hf].
  assert (Hlen' : List.length pgs = List.length out).
  { rewrite <- (length_map fst pgs), <- (length_map fst out).
    fold (labels pgs) (labels out). now rewrite Hl. }
  assert (Hlab : labels pgs = seq 0 (List.length pgs)).
  { rewrite Hl, Hlen'. unfold out. apply labels_reset_index. }
  pose proof (build_stars_positions E pgs (a_path a) w2 [] (rows pgs) Hlab eq_refl) as Hb.
  cbn [List.length] in Hb. unfold rows in Hb at 1. rewrite length_map in Hb.
  set (sts := map (fun r => star_of_row E r (a_path a)) (rows pgs)) in *.
  destruct (nyquist_checks_total sts w2) as [w3 [Hn Hl3]].
  { intros st Hin. unfold sts in Hin. apply in_map_iff in Hin.
    destruct Hin as [r [<- _]]. cbn. apply Hfreq. }
  assert (Hinit : jam_init E a w = (Ok (mk_session (map Some sts) None), w3)).
  { unfold jam_init, bind, lift, ret. rewrite Hload. cbn [read_vardf].
    unfold ret. rewrite Hres, Hpgs, Hb, Hn. reflexivity. }
  destruct (jam_call_spec E (mk_session (map Some sts) None) args sts w3 eq_refl)
    as [w4 [evs [Hc [Ht [Hfits [Hfm [Hp [_ Hl4]]]]]]]].
  assert (Hnof : filter (fails E args) sts = []).
  { clear -Hfit. induction sts as [|s l IH]; [reflexivity|].
    cbn [filter]. unfold fails at 1. now rewrite Hfit. }
  exists (mk_session (map Some sts) None), w3,
    (mk_session (map (slot_after E args) sts) (Some (model_type args))), w4, sts.
  split; [exact Hinit|]. split; [reflexivity|]. split.
  { unfold sts. rewrite map_map. cbn [st_ID star_of_row]. rewrite <- Hids.
    clear -Hf. unfold rows in *. induction Hf as [|r r' l l' Hr H IH]; [reflexivity|].
    cbn [map]. rewrite IH. f_equal.
    now destruct (lk_to_pg_row_columns E _ _ Hr) as [-> _]. }
  split; [exact Hc|]. split.
  { cbn [stars]. apply map_ext. intros st. unfold slot_after. now rewrite Hfit. }
  split.
  { rewrite Ht. f_equal. rewrite <- Hfits. symmetry.
    apply (filter_all_or is_Fit is_Printed); [exact Hfm|].
    rewrite Hnof in Hp. cbn in Hp.
    destruct (filter is_Printed evs); [reflexivity|discriminate]. }
  rewrite (Hl4 Hnof), Hl3, Hled.
  now destruct (load_table_world E _ _ _ _ Hload) as [-> _].
Qed.

(** X22. The script reaches the write of the ledger whenever the
    constructor returns: the batch call then returns whatever the fits do,
    and [to_csv] is called on the path [test/output/failed_lk_targets.csv]
    with the ledger as it is after the call.  When the write succeeds the
    script ends with that file, of index label [id], holding that ledger;
    when the write raises (the directory [test/output] does not exist) the
    script ends with the exception of the write.  When the constructor
    raises, the script ends with that exception and [to_csv] is not
    reached. *)
Theorem main_writes_the_ledger_when_the_constructor_returns w res w1 :
  jam_init E main_init_args w = (res, w1) ->
  match res with
  | Raise e => main E w = (Raise e, w1)
  | Ok sess =>
      exists sess' w',
        jam_call E sess (main_fit_args E) w1 = (Ok sess', w') /\
        main E w =
        match write_csv E "test/output/failed_lk_targets.csv" (ledger w') with
        | None =>
            (Ok (mk_csv "test/output/failed_lk_targets.csv" "id" (ledger w')),
             w')
        | Some ex => (Raise ex, w')
        end
  end.
Proof.
  intros H. unfold main, bind. rewrite H. destruct res as [sess|e]; [|reflexivity].
  pose proof H as Hs. apply jam_init_inv in Hs. destruct Hs as [sts [w0 [Hs _]]].
  destruct (jam_call_spec E sess (main_fit_args E) sts w1 Hs) as [w' [evs [Hc _]]].
  rewrite Hc. eexists; eexists. split; reflexivity.
Qed.

(** *** From a failed query to the file *)

Lemma fetch_failure_recorded (rs : list row) i r exc dd uc w out w' :
  nth_error rs i = Some r ->
  nothing_to_resolve r ->
  query_lightkurve E (ID r) dd uc (context r) = Raise exc ->
  NoDup (map ID rs) ->
  lc_to_lk E (range_frame rs) dd uc w = (Ok out, w') ->
  ledger_get (ledger w') (KId (ID r)) = Some (exn_str exc).
Proof.
  intros Hr [Hs [Ht Hp]] Hq Hnd H.
  apply lc_to_lk_inv in H. destruct H as [df' [H _]].
  rewrite (loop_range_split _ _ _ _ _ _ _ Hr) in H.
  destruct (lc_to_lk_loop E dd uc 0 (map ID (firstn i rs)) (range_frame rs) w)
    as [[df1|e] w1] eqn:Hpre; [|discriminate].
  pose proof (loop_range_prefix _ _ _ _ _ _ _ _ _ Hr Hpre) as Hdf1.
  rewrite loop_cons in H. erewrite step_fetch_fail in H by eassumption.
  destruct (unique_ID_split _ _ _ Hr Hnd) as [_ Hn2].
  destruct (loop_ledger_other _ _ _ _ _ _ _ _ _ (KId (ID r)) H) as [Hg _].
  { intros id Hin. apply KId_neq. intros <-. contradiction. }
  rewrite Hg. cbn [ledger]. apply ledger_get_at_same.
Qed.

Lemma nyquist_checks_ledger (sts : list star) w res w' :
  nyquist_checks E sts w = (res, w') -> ledger w' = ledger w.
Proof.
  revert w. induction sts as [|s sts IH]; intros w H.
  - now inversion H.
  - cbn in H. unfold bind, nyquist_check, emit, ret, raise in H.
    destruct (rev (st_f s)) as [|nyq l]; [now inversion H|].
    destruct (fgtb E (fst (st_numax s)) nyq); apply IH in H; exact H.
Qed.

Lemma jam_call_ledger (self : session) args w res w' s :
  jam_call E self args w = (res, w') ->
  ledger_get (ledger w') (KId s) = ledger_get (ledger w) (KId s).
Proof.
  unfold jam_call, bind, ret. intros H.
  destruct (call_loop E args 0 (stars self) (stars self) w) as [[slots|e] w1] eqn:Hl;
    inversion H; subst; eapply call_loop_ledger; eassumption.
Qed.

Lemma fetch_failure_absent (rs : list row) i r exc dd uc w out w' :
  nth_error rs i = Some r ->
  nothing_to_resolve r ->
  query_lightkurve E (ID r) dd uc (context r) = Raise exc ->
  NoDup (map ID rs) ->
  lc_to_lk E (range_frame rs) dd uc w = (Ok out, w') ->
  forall r', In r' (rows out) -> ID r' <> ID r.
Proof.
  intros Hr [Hs [Ht Hp]] Hq Hnd H r' Hin Hid.
  apply lc_to_lk_inv in H. destruct H as [df' [H ->]].
  pose proof H as Hkeys. apply loop_keys in Hkeys. destruct Hkeys as [dropped Hkeys].
  rewrite (loop_range_split _ _ _ _ _ _ _ Hr) in H.
  destruct (lc_to_lk_loop E dd uc 0 (map ID (firstn i rs)) (range_frame rs) w)
    as [[df1|e] w1] eqn:Hpre; [|discriminate].
  pose proof (loop_range_prefix _ _ _ _ _ _ _ _ _ Hr Hpre) as Hdf1.
  rewrite loop_cons in H. erewrite step_fetch_fail in H by eassumption.
  assert (Hgone : loc_opt df' i = None).
  { rewrite (loop_loc_other _ _ _ _ _ _ _ _ _ i H) by (left; lia).
    apply loc_opt_drop_same. }
  rewrite rows_reset_index in Hin. apply in_map_iff in Hin.
  destruct Hin as [[l r0] [<- Hin]]. cbn [fst snd set_index ID] in Hid.
  assert (Hk : In (l, ID r0) (keys df')).
  { unfold keys. apply in_map_iff. exists (l, r0). auto. }
  rewrite Hkeys in Hk. apply filter_In in Hk. destruct Hk as [Hk _].
  rewrite keys_range, <- (length_map ID rs) in Hk.
  apply In_combine_seq in Hk. destruct Hk as [p [-> Hnth]]. cbn [Nat.add] in Hin.
  rewrite Hid in Hnth.
  assert (Hi : nth_error (map ID rs) i = Some (ID r)) by now apply map_nth_error.
  assert (p = i).
  { eapply (proj1 (NoDup_nth_error (map ID rs))); [exact Hnd| |congruence].
    apply nth_error_Some. congruence. }
  subst p. now apply In_loc_opt in Hin.
Qed.

Lemma Forall2_In_r {A B} (P : A -> B -> Prop) l l' y :
  Forall2 P l l' -> In y l' -> exists x, In x l /\ P x y.
Proof.
  induction 1 as [|a b l l' Hab H IH]; intros Hin; [destruct Hin|].
  destruct Hin as [<-|Hin].
  - exists a. split; [now left|assumption].
  - destruct (IH Hin) as [x [Hx Hp]]. exists x. split; [now right|assumption].
Qed.

Lemma jam_init_star_rows a w sess w' :
  jam_init E a w = (Ok sess, w') ->
  exists v w1 out w2,
    load_table E a w = (Ok (Some v), w1) /\
    lc_to_lk E v (a_download_dir a) (a_use_cached a) w1 = (Ok out, w2) /\
    ledger w' = ledger w2 /\
    forall st, In (Some st) (stars sess) ->
      exists r, In r (rows out) /\ st_ID st = ID r.
Proof.
  intros H. apply jam_init_stages in H.
  destruct H as [v [w1 [out [w2 [pgs [sts [Hload [Hres [Hpg [Hb [Hn ->]]]]]]]]]]].
  exists v, w1, out, w2. split; [exact Hload|]. split; [exact Hres|].
  split; [eapply nyquist_checks_ledger; eassumption|].
  destruct (lk_to_pg_spec E _ _ Hpg) as [Hl Hf].
  assert (Hlen : List.length pgs = List.length out).
  { rewrite <- (length_map fst pgs), <- (length_map fst out).
    fold (labels pgs) (labels out). now rewrite Hl. }
  assert (Hlab : labels pgs = seq 0 (List.length pgs)).
  { rewrite Hl, Hlen.
    destruct (lc_to_lk_inv E _ _ _ _ _ _ Hres) as [df' [_ ->]].
    apply labels_reset_index. }
  pose proof (build_stars_positions E pgs (a_path a) w2 [] (rows pgs) Hlab eq_refl) as Hb'.
  cbn [List.length] in Hb'. unfold rows in Hb' at 1. rewrite length_map in Hb'.
  rewrite Hb in Hb'. inversion Hb'; subst sts; clear Hb'.
  intros st Hin. cbn [stars] in Hin. rewrite map_map in Hin.
  apply in_map_iff in Hin. destruct Hin as [r' [Heq Hin]].
  inversion Heq; subst st; clear Heq.
  destruct (Forall2_In_r _ _ _ _ Hf Hin) as [r [Hr Hrow]].
  exists r. split; [exact Hr|]. cbn [st_ID star_of_row].
  now destruct (lk_to_pg_row_columns E _ _ Hrow) as [-> _].
Qed.

(** X23. From a failed query to the file.  In a run of the script on a table
    with distinct identifiers, a row with an empty time-series cell and no
    power spectrum whose archive query raises: when the script ends
    normally, the file it writes maps the identifier of the row to the
    message of the exception, and the session had no star with that
    identifier. *)
Theorem failed_query_is_in_the_ledger_file (rs : list row) i r exc w w1 f w' :
  load_table E main_init_args w = (Ok (Some (range_frame rs)), w1) ->
  nth_error rs i = Some r ->
  is_str (timeseries r) = false ->
  truthy (timeseries r) = false ->
  truthy (psd r) = false ->
  query_lightkurve E (ID r) (PyStr LIGHTCURVE_DOWNLOAD_DIR) false (context r)
    = Raise exc ->
  NoDup (map ID rs) ->
  main E w = (Ok f, w') ->
  csv_path f = "test/output/failed_lk_targets.csv" /\
  ledger_get (csv_rows f) (KId (ID r)) = Some (exn_str exc) /\
  exists sess w2,
    jam_init E main_init_args w = (Ok sess, w2) /\
    forall st, In (Some st) (stars sess) -> st_ID st <> ID r.
Proof.
  intros Hload Hr Hs Ht Hp Hq Hnd H.
  assert (Hnothing : nothing_to_resolve r) by (unfold nothing_to_resolve; auto).
  unfold main, bind, to_csv in H.
  destruct (jam_init E main_init_args w) as [[sess|e] w2] eqn:Hinit; [|discriminate].
  destruct (jam_call E sess (main_fit_args E) w2) as [[sess'|e] w3] eqn:Hcall;
    [|discriminate].
  destruct (write_csv E _ (ledger w3)); [discriminate|].
  inversion H; subst; clear H. cbn [csv_path csv_rows].
  destruct (jam_init_star_rows _ _ _ _ Hinit)
    as [v [w1' [out [w2' [Hload' [Hres [Hled Hst]]]]]]].
  rewrite Hload in Hload'. inversion Hload'; subst v w1'; clear Hload'.
  cbn [a_download_dir a_use_cached main_init_args] in Hres.
  split; [reflexivity|]. split.
  - rewrite (jam_call_ledger _ _ _ _ _ _ Hcall), Hled.
    eapply fetch_failure_recorded; eassumption.
  - exists sess, w2. split; [reflexivity|].
    intros st Hin Hid. destruct (Hst st Hin) as [r' [Hr' Hid']].
    eapply fetch_failure_absent; [exact Hr|exact Hnothing|exact Hq|exact Hnd|
                                  exact Hres|exact Hr'|congruence].
Qed.

End Run.

(** * Further runs in the concrete environments *)

Lemma lc_to_lk_needs_label_zero_witness :
  lc_to_lk Sample.E [(5, Sample.a_row "KIC1" 30 PyNone Sample.spectrum)]
    Sample.cache false world0 = (Raise (KeyError 0), world0).
Proof.
  apply (lc_to_lk_needs_label_zero Sample.E
           [(5, Sample.a_row "KIC1" 30 PyNone Sample.spectrum)]
           Sample.cache false world0).
  - discriminate.
  - reflexivity.
Defined.

Lemma queries_only_for_rows_with_nothing_witness :
  In (Query 1 "KIC2") (trace (snd Sample.resolved))
  /\ (In (Query 1 "KIC2") (trace world0) \/
      exists r, nth_error Sample.three 1 = Some r /\ ID r = "KIC2" /\
                is_str (timeseries r) = false /\ truthy (timeseries r) = false /\
                truthy (psd r) = false).
Proof.
  split; [vm_compute; auto|].
  apply (queries_only_for_rows_with_nothing Sample.E Sample.three Sample.cache
           false world0 (Ok (fst Sample.resolved)) (snd Sample.resolved) 1 "KIC2").
  - vm_compute. reflexivity.
  - vm_compute. auto.
Defined.

Lemma fetched_series_is_stored_sorted_witness :
  In (Query 0 "KIC4") (trace (snd (Sample.run_resolver Sample.E Sample.fetching)))
  /\ exists r',
       In r' (rows (fst (Sample.run_resolver Sample.E Sample.fetching))) /\
       index r' = Some 0 /\
       same_columns (Sample.a_row "KIC4" 30 PyNone PyNone) r' /\
       timeseries r' = PyLightCurve (sort_lc Sample.E (mk_lc [(2, 7); (1, 9)]%Z "KIC4")).
Proof.
  apply (fetched_series_is_stored_sorted Sample.E Sample.fetching 0
           (Sample.a_row "KIC4" 30 PyNone PyNone) (mk_lc [(2, 7); (1, 9)]%Z "KIC4")
           Sample.cache false world0
           (fst (Sample.run_resolver Sample.E Sample.fetching))
           (snd (Sample.run_resolver Sample.E Sample.fetching))).
  - reflexivity.
  - reflexivity.
  - reflexivity.
  - reflexivity.
  - reflexivity.
  - vm_compute. reflexivity.
Defined.

Lemma light_curve_cell_is_kept_and_sorted_witness :
  samples Sample.a_series <> []
  /\ (forall id,
        In (Query 0 id) (trace (snd (Sample.run_resolver Sample.E Sample.with_series))) ->
        In (Query 0 id) (trace world0))
  /\ exists r',
       In r' (rows (fst (Sample.run_resolver Sample.E Sample.with_series))) /\
       index r' = Some 0 /\
       same_columns (Sample.a_row "KIC5" 30 (PyLightCurve Sample.a_series) PyNone) r' /\
       timeseries r' = PyLightCurve (sort_lc Sample.E Sample.a_series).
Proof.
  split; [discriminate|].
  apply (light_curve_cell_is_kept_and_sorted Sample.E Sample.with_series 0
           (Sample.a_row "KIC5" 30 (PyLightCurve Sample.a_series) PyNone)
           Sample.a_series Sample.cache false world0
           (fst (Sample.run_resolver Sample.E Sample.with_series))
           (snd (Sample.run_resolver Sample.E Sample.with_series))).
  - reflexivity.
  - reflexivity.
  - discriminate.
  - vm_compute. reflexivity.
Defined.

Lemma lc_to_lk_writes_timeseries_only_witness :
  In (nth 1 (rows (fst Sample.resolved)) (Sample.a_row "KIC0" 0 PyNone PyNone))
     (rows (fst Sample.resolved))
  /\ exists l r,
       index (nth 1 (rows (fst Sample.resolved)) (Sample.a_row "KIC0" 0 PyNone PyNone))
         = Some l /\
       nth_error Sample.three l = Some r /\
       same_columns r
         (nth 1 (rows (fst Sample.resolved)) (Sample.a_row "KIC0" 0 PyNone PyNone)).
Proof.
  split; [vm_compute; auto|].
  apply (lc_to_lk_writes_timeseries_only Sample.E Sample.three Sample.cache false
           world0 (fst Sample.resolved) (snd Sample.resolved)).
  - vm_compute. reflexivity.
  - vm_compute. auto.
Defined.

Lemma no_failed_query_no_dropped_row_witness :
  (forall id D, exists lc,
     query_lightkurve Sample.E_ok id Sample.cache false D = Ok lc)
  /\ List.length (fst (Sample.run_resolver Sample.E_ok Sample.three)) =
     List.length (range_frame Sample.three)
  /\ map ID (rows (fst (Sample.run_resolver Sample.E_ok Sample.three))) =
     map ID (rows (range_frame Sample.three))
  /\ map index (rows (fst (Sample.run_resolver Sample.E_ok Sample.three))) =
     map Some (labels (range_frame Sample.three))
  /\ ledger (snd (Sample.run_resolver Sample.E_ok Sample.three)) = ledger world0.
Proof.
  split; [intros id D; eexists; reflexivity|].
  apply (no_failed_query_no_dropped_row Sample.E_ok (range_frame Sample.three)
           Sample.cache false world0
           (fst (Sample.run_resolver Sample.E_ok Sample.three))
           (snd (Sample.run_resolver Sample.E_ok Sample.three))).
  - intros id D. eexists. reflexivity.
  - vm_compute. reflexivity.
Defined.

Lemma three_has_no_KIC9 (r : @row Z) :
  In r (rows (range_frame Sample.three)) -> KId "KIC9" <> KId (ID r).
Proof.
  cbn. intros [<-|[<-|[<-|[]]]]; discriminate.
Qed.

(** The resolver started with a ledger of two entries, on the table
    [Sample.three] whose second query fails.  The key KIC2, of a row of the
    table, had one entry and has one after, with a message; the key KIC9,
    of no row of the table, keeps its entry and its message. *)
Lemma lc_to_lk_keeps_ledger_entries_witness :
  lc_to_lk Sample.E (range_frame Sample.three) Sample.cache false Sample.noted =
    (Ok (fst Sample.resolved_noted), snd Sample.resolved_noted)
  /\ ledger_count (ledger Sample.noted) (KId "KIC2") = 1
  /\ ledger_get (ledger Sample.noted) (KId "KIC2") = Some "stale"
  /\ ledger_count (ledger (snd Sample.resolved_noted)) (KId "KIC2") <= 1
  /\ (exists m',
        ledger_get (ledger (snd Sample.resolved_noted)) (KId "KIC2") = Some m')
  /\ ledger_count (ledger Sample.noted) (KId "KIC9") = 1
  /\ ledger_get (ledger Sample.noted) (KId "KIC9") = Some "earlier failure"
  /\ ledger_count (ledger (snd Sample.resolved_noted)) (KId "KIC9") <= 1
  /\ ledger_get (ledger (snd Sample.resolved_noted)) (KId "KIC9") =
       Some "earlier failure".
Proof.
  assert (H : lc_to_lk Sample.E (range_frame Sample.three) Sample.cache false
                Sample.noted =
              (Ok (fst Sample.resolved_noted), snd Sample.resolved_noted))
    by (vm_compute; reflexivity).
  destruct (lc_to_lk_keeps_ledger_entries Sample.E (range_frame Sample.three)
              Sample.cache false Sample.noted (Ok (fst Sample.resolved_noted))
              (snd Sample.resolved_noted) (KId "KIC2") H) as [C2 [G2 _]].
  destruct (lc_to_lk_keeps_ledger_entries Sample.E (range_frame Sample.three)
              Sample.cache false Sample.noted (Ok (fst Sample.resolved_noted))
              (snd Sample.resolved_noted) (KId "KIC9") H) as [C9 [_ O9]].
  split; [exact H|].
  split; [reflexivity|]. split; [reflexivity|].
  split; [apply C2; vm_compute; lia|].
  split; [apply (G2 "stale"); reflexivity|].
  split; [reflexivity|]. split; [reflexivity|].
  split; [apply C9; vm_compute; lia|].
  rewrite (O9 three_has_no_KIC9). reflexivity.
Defined.

Lemma range_labels_distinct : NoDup (labels (range_frame Sample.three)).
Proof. cbn. repeat constructor; cbn; intuition discriminate. Qed.

Lemma one_message_per_dropped_row_witness :
  NoDup (labels (range_frame Sample.three))
  /\ List.length (fst Sample.resolved) +
     List.length (filter is_Printed (trace (snd Sample.resolved))) =
     List.length (range_frame Sample.three) +
     List.length (filter is_Printed (trace world0)).
Proof.
  split; [exact range_labels_distinct|].
  apply (one_message_per_dropped_row Sample.E (range_frame Sample.three)
           Sample.cache false world0 (fst Sample.resolved) (snd Sample.resolved)).
  - exact range_labels_distinct.
  - vm_compute. reflexivity.
Defined.

Lemma unrecognized_series_aborts_batch_witness :
  get_module Sample.a_table <> Ok lk_lightcurve_name
  /\ exists e,
       lc_to_lk Sample.E (range_frame Sample.alien) Sample.cache false world0 =
         (Raise e, snd Sample.alien_before) /\
       match get_module (timeseries (Sample.a_row "KIC8" 30 Sample.a_table PyNone)) with
       | Ok _ => e = TypeError unsupported_message
       | Raise e' => e = e'
       end.
Proof.
  split; [discriminate|].
  apply (unrecognized_series_aborts_batch Sample.E Sample.alien 1
           (Sample.a_row "KIC8" 30 Sample.a_table PyNone) Sample.cache false
           world0 (fst Sample.alien_before) (snd Sample.alien_before)).
  - reflexivity.
  - reflexivity.
  - reflexivity.
  - discriminate.
  - vm_compute. reflexivity.
Defined.

Lemma jam_call_fits_every_star_once_in_order_witness :
  stars Sample.five = map Some Sample.five_stars
  /\ exists sess' w' evs,
       jam_call Sample.E Sample.five Sample.args world0 = (Ok sess', w') /\
       trace w' = (trace world0 ++ evs)%list /\
       filter is_Fit evs = fits_from 0 Sample.five_stars /\
       Forall fit_or_message evs.
Proof.
  split; [reflexivity|].
  apply (jam_call_fits_every_star_once_in_order Sample.E Sample.five Sample.args
           Sample.five_stars world0).
  reflexivity.
Defined.

Lemma jam_call_releases_fitted_stars_witness :
  jam_call Sample.E Sample.five Sample.args world0 =
    (Ok (fst (Sample.run_call Sample.E Sample.five)),
     snd (Sample.run_call Sample.E Sample.five))
  /\ pb_model_type (fst (Sample.run_call Sample.E Sample.five)) = Some "simple"
  /\ List.length (stars (fst (Sample.run_call Sample.E Sample.five))) = 5
  /\ forall j st, nth_error Sample.five_stars j = Some st ->
       nth_error (stars (fst (Sample.run_call Sample.E Sample.five))) j =
       Some (match fit Sample.E st Sample.args with
             | None => None
             | Some _ => Some st
             end).
Proof.
  split; [vm_compute; reflexivity|].
  apply (jam_call_releases_fitted_stars Sample.E Sample.five Sample.args
           Sample.five_stars world0
           (fst (Sample.run_call Sample.E Sample.five))
           (snd (Sample.run_call Sample.E Sample.five))).
  - reflexivity.
  - vm_compute. reflexivity.
Defined.

Lemma one_message_per_failed_fit_witness :
  exists evs,
    trace (snd (Sample.run_call Sample.E Sample.five)) = (trace world0 ++ evs)%list /\
    List.length (filter is_Printed evs) =
    List.length (filter (fails Sample.E Sample.args) Sample.five_stars) /\
    (forall st ex, In st Sample.five_stars -> fit Sample.E st Sample.args = Some ex ->
                   In (Printed ("Star " ++ st_ID st ++
                                " produced an exception of type " ++
                                exn_type ex ++ " occurred. Arguments:" ++
                                nl ++ exn_args ex)) evs) /\
    ((forall st, In st Sample.five_stars -> fit Sample.E st Sample.args = None) ->
     ledger (snd (Sample.run_call Sample.E Sample.five)) = ledger world0 /\
     evs = fits_from 0 Sample.five_stars) /\
    In (Printed ("Star KIC3 produced an exception of type RuntimeError" ++
                 " occurred. Arguments:" ++ nl ++ "('fit did not converge',)"))
       evs.
Proof.
  destruct (one_message_per_failed_fit Sample.E Sample.five Sample.args
              Sample.five_stars world0
              (fst (Sample.run_call Sample.E Sample.five))
              (snd (Sample.run_call Sample.E Sample.five)))
    as [evs [Ht [Hn [Hm Hq]]]].
  - reflexivity.
  - vm_compute. reflexivity.
  - exists evs. split; [exact Ht|]. split; [exact Hn|]. split; [exact Hm|].
    split; [exact Hq|].
    apply (Hm (Sample.a_star "KIC3") Sample.not_converged).
    + cbn. auto.
    + reflexivity.
Defined.

Lemma session_cannot_be_called_again_witness :
  In (Sample.a_star "KIC1") Sample.five_stars
  /\ fit Sample.E (Sample.a_star "KIC1") Sample.args = None
  /\ forall args' w0, exists w1,
       jam_call Sample.E (fst (Sample.run_call Sample.E Sample.five)) args' w0 =
       (Raise (AttributeError "NoneType" "ID"), w1).
Proof.
  split; [now left|]. split; [reflexivity|].
  apply (session_cannot_be_called_again Sample.E Sample.five Sample.args
           Sample.five_stars (Sample.a_star "KIC1") world0
           (fst (Sample.run_call Sample.E Sample.five))
           (snd (Sample.run_call Sample.E Sample.five))).
  - reflexivity.
  - now left.
  - reflexivity.
  - vm_compute. reflexivity.
Defined.

Lemma one_star_per_resolved_row_witness :
  jam_init Sample.E (Sample.init (DictPath "in.csv")) world0 =
    (Ok (fst Sample.built), snd Sample.built)
  /\ exists v w1 out w2,
       load_table Sample.E (Sample.init (DictPath "in.csv")) world0 = (Ok (Some v), w1) /\
       lc_to_lk Sample.E v Sample.cache false w1 = (Ok out, w2) /\
       List.length (stars (fst Sample.built)) = List.length out /\
       forall j r, nth_error (rows out) j = Some r ->
         exists st, nth_error (stars (fst Sample.built)) j = Some (Some st) /\
           st_ID st = ID r /\
           st_numax st = (numax r, numax_err r) /\
           st_dnu st = (dnu r, dnu_err r) /\
           st_teff st = (teff r, teff_err r) /\
           st_bp_rp st = (bp_rp r, bp_rp_err r) /\
           st_path st = PyStr "test/output".
Proof.
  split; [vm_compute; reflexivity|].
  apply (one_star_per_resolved_row Sample.E (Sample.init (DictPath "in.csv"))
           world0 (fst Sample.built) (snd Sample.built)).
  vm_compute. reflexivity.
Defined.

Lemma reader_errors_escape_unreported_witness :
  (exists path, a_dictlike (Sample.init (DictPath "nowhere.csv")) = DictPath path /\
                read_csv Sample.E_ok path = Raise Sample.no_file)
  /\ jam_init Sample.E_ok (Sample.init (DictPath "nowhere.csv")) world0 =
     (Raise Sample.no_file, world0).
Proof.
  split; [exists "nowhere.csv"; split; reflexivity|].
  apply (reader_errors_escape_unreported Sample.E_ok
           (Sample.init (DictPath "nowhere.csv")) world0 Sample.no_file).
  left. exists "nowhere.csv". split; reflexivity.
Defined.

Lemma table_given_ignores_series_arguments_witness :
  a_dictlike (Sample.init (DictPath "in.csv")) <> DictOther
  /\ jam_init Sample.E
       (mk_init_args PyNone PyNone PyNone PyNone PyNone
          (PyStr "lc.txt") Sample.spectrum (DictPath "in.csv") false
          (mk_lkwargs PyNone PyNone PyNone PyNone PyNone (PyStr "TESS"))
          (PyStr "test/output") Sample.cache) world0
     = jam_init Sample.E (Sample.init (DictPath "in.csv")) world0.
Proof.
  split; [discriminate|].
  apply (table_given_ignores_series_arguments Sample.E
           (Sample.init (DictPath "in.csv")) (PyStr "lc.txt") Sample.spectrum
           (mk_lkwargs PyNone PyNone PyNone PyNone PyNone (PyStr "TESS")) world0).
  discriminate.
Defined.

Lemma constructed_stars_have_frequencies_witness :
  In (Some Sample.star3) (stars (fst Sample.built))
  /\ st_f Sample.star3 <> [].
Proof.
  split; [vm_compute; auto|].
  apply (constructed_stars_have_frequencies Sample.E
           (Sample.init (DictPath "in.csv")) world0
           (fst Sample.built) (snd Sample.built) Sample.star3).
  - vm_compute. reflexivity.
  - vm_compute. auto.
Defined.

Lemma constructor_warns_for_two_reasons_witness :
  In (Warn (nyquist_message "KIC3")) (trace (snd Sample.built))
  /\ (In (Warn (nyquist_message "KIC3")) (trace world0) \/
      (nyquist_message "KIC3" = ignoring_message /\
       a_dictlike (Sample.init (DictPath "in.csv")) <> DictOther /\
       any_parameter (Sample.init (DictPath "in.csv")) = true) \/
      exists st front nyq,
        In (Some st) (stars (fst Sample.built)) /\
        nyquist_message "KIC3" = nyquist_message (st_ID st) /\
        st_f st = (front ++ [nyq])%list /\
        fgtb Sample.E (fst (st_numax st)) nyq = true).
Proof.
  split; [vm_compute; auto|].
  apply (constructor_warns_for_two_reasons Sample.E
           (Sample.init (DictPath "in.csv")) world0
           (fst Sample.built) (snd Sample.built) (nyquist_message "KIC3")).
  - vm_compute. reflexivity.
  - vm_compute. auto.
Defined.

Lemma table_with_parameters_warns_witness :
  jam_init Sample.E Sample.init_with_ID world0 =
    (Ok (fst (Sample.run_init Sample.E Sample.init_with_ID)),
     snd (Sample.run_init Sample.E Sample.init_with_ID))
  /\ any_parameter Sample.init_with_ID = true
  /\ In (Warn ignoring_message)
        (trace (snd (Sample.run_init Sample.E Sample.init_with_ID))).
Proof.
  split; [vm_compute; reflexivity|]. split; [reflexivity|].
  apply (table_with_parameters_warns Sample.E Sample.init_with_ID world0
           (fst (Sample.run_init Sample.E Sample.init_with_ID))
           (snd (Sample.run_init Sample.E Sample.init_with_ID))).
  - vm_compute. reflexivity.
  - discriminate.
  - reflexivity.
Defined.

Lemma three_resolves :
  Forall (fun r => resolves Sample.E_ok Sample.cache false r = true) Sample.three.
Proof. repeat constructor. Qed.

Lemma resolvable_table_is_resolved_witness :
  Forall (fun r => resolves Sample.E_ok Sample.cache false r = true) Sample.three
  /\ exists out w',
       lc_to_lk Sample.E_ok (range_frame Sample.three) Sample.cache false world0 =
         (Ok out, w') /\
       List.length out = List.length Sample.three /\
       map ID (rows out) = map ID Sample.three /\
       ledger w' = ledger world0.
Proof.
  split; [exact three_resolves|].
  apply (resolvable_table_is_resolved Sample.E_ok Sample.three Sample.cache false
           world0).
  exact three_resolves.
Defined.

Lemma run_without_failure_witness :
  load_table Sample.E_ok (Sample.init (DictPath "in.csv")) world0 =
    (Ok (Some (range_frame Sample.three)), world0)
  /\ exists sess w2 sess' w3 sts,
       jam_init Sample.E_ok (Sample.init (DictPath "in.csv")) world0 = (Ok sess, w2) /\
       stars sess = map Some sts /\
       map st_ID sts = map ID Sample.three /\
       jam_call Sample.E_ok sess Sample.args w2 = (Ok sess', w3) /\
       stars sess' = map (fun _ => None) sts /\
       trace w3 = (trace w2 ++ fits_from 0 sts)%list /\
       ledger w3 = ledger world0.
Proof.
  split; [vm_compute; reflexivity|].
  apply (run_without_failure Sample.E_ok (Sample.init (DictPath "in.csv"))
           Sample.three Sample.args world0 world0).
  - vm_compute. reflexivity.
  - exact three_resolves.
  - intros lc. eexists. reflexivity.
  - intros pg. discriminate.
  - intros st. reflexivity.
Defined.

Lemma main_writes_the_ledger_when_the_constructor_returns_witness :
  jam_init Sample.E main_init_args world0 =
    (Ok (fst (Sample.run_init Sample.E main_init_args)),
     snd (Sample.run_init Sample.E main_init_args))
  /\ (exists sess' w',
       jam_call Sample.E (fst (Sample.run_init Sample.E main_init_args))
         (main_fit_args Sample.E) (snd (Sample.run_init Sample.E main_init_args))
       = (Ok sess', w') /\
       main Sample.E world0 =
       (Ok (mk_csv "test/output/failed_lk_targets.csv" "id" (ledger w')), w'))
  /\ (exists sess' w',
       jam_call Sample.E_no_dir (fst (Sample.run_init Sample.E main_init_args))
         (main_fit_args Sample.E_no_dir)
         (snd (Sample.run_init Sample.E main_init_args))
       = (Ok sess', w') /\
       main Sample.E_no_dir world0 = (Raise Sample.no_dir, w')).
Proof.
  split; [vm_compute; reflexivity|]. split.
  - apply (main_writes_the_ledger_when_the_constructor_returns Sample.E world0
             (Ok (fst (Sample.run_init Sample.E main_init_args)))
             (snd (Sample.run_init Sample.E main_init_args))).
    vm_compute. reflexivity.
  - apply (main_writes_the_ledger_when_the_constructor_returns Sample.E_no_dir
             world0 (Ok (fst (Sample.run_init Sample.E main_init_args)))
             (snd (Sample.run_init Sample.E main_init_args))).
    vm_compute. reflexivity.
Defined.

Lemma failed_query_is_in_the_ledger_file_witness :
  load_table Sample.E main_init_args world0 =
    (Ok (Some (range_frame Sample.three)), world0)
  /\ main Sample.E world0 =
       (Ok (fst (Sample.run_main Sample.E)), snd (Sample.run_main Sample.E))
  /\ csv_path (fst (Sample.run_main Sample.E)) = "test/output/failed_lk_targets.csv"
  /\ ledger_get (csv_rows (fst (Sample.run_main Sample.E))) (KId "KIC2") =
       Some "no data found"
  /\ exists sess w2,
       jam_init Sample.E main_init_args world0 = (Ok sess, w2) /\
       forall st, In (Some st) (stars sess) -> st_ID st <> "KIC2".
Proof.
  split; [vm_compute; reflexivity|].
  split; [vm_compute; reflexivity|].
  apply (failed_query_is_in_the_ledger_file Sample.E Sample.three 1
           (Sample.a_row "KIC2" 30 PyNone PyNone) Sample.no_data world0 world0
           (fst (Sample.run_main Sample.E)) (snd (Sample.run_main Sample.E))).
  - vm_compute. reflexivity.
  - reflexivity.
  - reflexivity.
  - reflexivity.
  - reflexivity.
  - reflexivity.
  - exact three_distinct.
  - vm_compute. reflexivity.
Defined.
